(** * nussl/spectral_utils.py: short-time Fourier transform engine

    A shallow embedding of [e_stft], [e_istft], [e_stft_plus], [make_window],
    [WindowType] and [StftParams] of [src/nussl/spectral_utils.py], and the
    properties of the specification that can be settled on it.

    Conventions.
    - The module is Python 2 code ([np.zeros(window_length / 2)] needs an
      integer), so [/] on integers is floor division and [%] takes the sign
      of the divisor: these are [Z.div] and [Z.modulo].  Division by zero
      raises and is written out.
    - A Python call either returns a value or raises: the type [outcome].
    - numpy and scipy are not code of this repository.  Their numeric
      primitives (float arithmetic, [fft], [ifft], the window generators,
      [linspace]) are the fields of the class [NumLib]; what the proofs need
      to know about them is stated in [NumLibShapes] (lengths), in
      [float_model], [frame_accuracy] and [cola_within] (float arithmetic
      with its rounding) and in [ExactArithmetic], [exact_dft] and [cola]
      (float arithmetic taken as exact). *)

From Stdlib Require Import ZArith String List Bool Lia.
From Stdlib Require Import QArith Qcanon Qabs Lqa.
Import ListNotations.
Open Scope Z_scope.

(* ------------------------------------------------------------------ *)
(** ** Outcomes of a Python call *)

(** The exceptions that the modelled code can raise through Python and numpy,
    together with the two error names of the specification.  No statement of
    the source raises [InvalidParameter] or [InvalidWindowType]. *)
Inductive exn : Type :=
| ValueError
| ZeroDivisionError
| TypeError
| AttributeError
| InvalidParameter
| InvalidWindowType.

Inductive outcome (A : Type) : Type :=
| Returns (a : A)
| Raises (e : exn).

Arguments Returns {A} a.
Arguments Raises {A} e.

Definition bind {A B : Type} (m : outcome A) (k : A -> outcome B) : outcome B :=
  match m with
  | Returns a => k a
  | Raises e => Raises e
  end.

Notation "x <- m ;; k" := (bind m (fun x => k))
  (at level 61, m at next level, right associativity).
Notation "' pat <- m ;; k" := (bind m (fun x => match x with pat => k end))
  (at level 61, pat pattern, m at next level, right associativity).

(** [for x in xs: ...] collecting one result per iteration, stopping at the
    first exception. *)
Fixpoint for_each {A B : Type} (f : A -> outcome B) (xs : list A) : outcome (list B) :=
  match xs with
  | [] => Returns []
  | x :: xs' =>
      y <- f x ;;
      ys <- for_each f xs' ;;
      Returns (y :: ys)
  end.

(** [for x in xs: state = body(state, x)]. *)
Fixpoint for_fold {A S : Type} (body : S -> A -> outcome S) (xs : list A) (s : S) : outcome S :=
  match xs with
  | [] => Returns s
  | x :: xs' =>
      s' <- body s x ;;
      for_fold body xs' s'
  end.

(** [range(n)]: empty when [n <= 0]. *)
Definition range (n : Z) : list Z := map Z.of_nat (seq 0 (Z.to_nat n)).

Definition len {A : Type} (l : list A) : Z := Z.of_nat (length l).

(* ------------------------------------------------------------------ *)
(** ** Python slices *)

(** Normalisation of a slice bound for a positive step: a negative bound
    counts from the end, and both are clamped to [0 .. n]. *)
Definition clamp_index (n i : Z) : Z :=
  if i <? 0 then Z.max (i + n) 0 else Z.min i n.

(** [l[start:stop]]. *)
Definition py_slice {A : Type} (start stop : Z) (l : list A) : list A :=
  let a := clamp_index (len l) start in
  let b := clamp_index (len l) stop in
  firstn (Z.to_nat (b - a)) (skipn (Z.to_nat a) l).

(** Normalisation of a slice bound for step [-1]: clamped to [-1 .. n-1]. *)
Definition clamp_index_rev (n i : Z) : Z :=
  if i <? 0 then Z.max (i + n) (-1) else Z.min i (n - 1).

(** [l[start:stop:-1]]: the elements of index [start], [start-1], ... down
    to, and not including, [stop]. *)
Definition py_slice_rev {A : Type} (start stop : Z) (l : list A) : list A :=
  let a := clamp_index_rev (len l) start in
  let b := clamp_index_rev (len l) stop in
  rev (firstn (Z.to_nat (a - b)) (skipn (Z.to_nat (b + 1)) l)).

(** numpy broadcasting of two 1-D operands under an elementwise operation:
    equal lengths pair up, a length-1 operand is repeated, anything else is
    a [ValueError]. *)
Definition broadcast2 {A B C : Type} (f : A -> B -> C) (xs : list A) (ys : list B)
  : outcome (list C) :=
  if (length xs =? length ys)%nat then Returns (map (fun p => f (fst p) (snd p)) (combine xs ys))
  else match xs, ys with
       | [x], _ => Returns (map (f x) ys)
       | _, [y] => Returns (map (fun x => f x y) xs)
       | _, _ => Raises ValueError
       end.

(** [l[start:stop] = v]: a basic slice cannot change the size of the array;
    [v] must have the length of the slice or length 1. *)
Definition py_slice_assign {A : Type} (start stop : Z) (l v : list A) : outcome (list A) :=
  let a := clamp_index (len l) start in
  let b := clamp_index (len l) stop in
  let k := Z.to_nat (b - a) in
  let put (w : list A) := firstn (Z.to_nat a) l ++ w ++ skipn (Z.to_nat a + k) l in
  if (length v =? k)%nat then Returns (put v)
  else match v with
       | [x] => Returns (put (repeat x k))
       | _ => Raises ValueError
       end.

(* ------------------------------------------------------------------ *)
(** ** Two-dimensional arrays *)

(** A 2-D numpy array: its shape and its rows.  The shape is kept apart from
    the data because an array may have rows of length zero, or no row. *)
Record ndarray2 (A : Type) : Type := mk2d {
  shape0 : nat;
  shape1 : nat;
  rows : list (list A)
}.

Arguments mk2d {A} shape0 shape1 rows.
Arguments shape0 {A} n.
Arguments shape1 {A} n.
Arguments rows {A} n.

Definition well_shaped {A : Type} (a : ndarray2 A) : Prop :=
  length (rows a) = shape0 a /\ Forall (fun r => length r = shape1 a) (rows a).

(** [a[:, j]]. *)
Definition column {A : Type} (j : nat) (a : ndarray2 A) : list A :=
  flat_map (fun r => match nth_error r j with Some x => [x] | None => [] end) (rows a).

(** [a.T]. *)
Definition transpose {A : Type} (a : ndarray2 A) : ndarray2 A :=
  mk2d (shape1 a) (shape0 a) (map (fun j => column j a) (seq 0 (shape1 a))).

(** [a[:, first:last]]. *)
Definition column_slice {A : Type} (first last : Z) (a : ndarray2 A) : ndarray2 A :=
  let n := Z.of_nat (shape1 a) in
  mk2d (shape0 a)
       (Z.to_nat (clamp_index n last - clamp_index n first))
       (map (py_slice first last) (rows a)).

(** [a[start:stop:-1, :]]. *)
Definition row_slice_rev {A : Type} (start stop : Z) (a : ndarray2 A) : ndarray2 A :=
  let n := Z.of_nat (shape0 a) in
  mk2d (Z.to_nat (clamp_index_rev n start - clamp_index_rev n stop))
       (shape1 a)
       (py_slice_rev start stop (rows a)).

(** [np.vstack((a, b))]; the two arrays must agree on the second axis. *)
Definition vstack {A : Type} (a b : ndarray2 A) : outcome (ndarray2 A) :=
  if (shape1 a =? shape1 b)%nat
  then Returns (mk2d (shape0 a + shape0 b) (shape1 a) (rows a ++ rows b))
  else Raises ValueError.

Definition map2d {A B : Type} (f : A -> B) (a : ndarray2 A) : ndarray2 B :=
  mk2d (shape0 a) (shape1 a) (map (map f) (rows a)).

(** [a[i, j]], when both indices are in range. *)
Definition entry {A : Type} (a : ndarray2 A) (i j : nat) : option A :=
  match nth_error (rows a) i with
  | Some r => nth_error r j
  | None => None
  end.

(* ------------------------------------------------------------------ *)
(** ** The numeric library *)

Record complex (R : Type) : Type := mkC { re : R; im : R }.
Arguments mkC {R} re im.
Arguments re {R} c.
Arguments im {R} c.

(** What the module takes from Python floats, numpy and scipy. *)
Class NumLib : Type := {
  R : Type;                               (* float64 *)
  R0 : R;
  R1 : R;
  Radd : R -> R -> R;
  Rmul : R -> R -> R;
  Rdiv : R -> R -> R;
  Ropp : R -> R;
  of_Z : Z -> R;                          (* float(n) *)
  abs_sq : complex R -> R;                (* abs(z) ** 2 *)
  fft : Z -> list R -> list (complex R);  (* scipy.fftpack.fft(x, n=n), n >= 1 *)
  ifft : list (complex R) -> list (complex R);  (* scipy.fftpack.ifft(x), x not empty *)
  hann : Z -> list R;                     (* scipy.signal.hann(length, False) *)
  hamming : Z -> list R;                  (* scipy.signal.hamming(length, False) *)
  blackman : Z -> list R;                 (* scipy.signal.blackman(length, False) *)
  linspace01 : Z -> list R                (* np.linspace(0, 1, num), num >= 0 *)
}.

(** The lengths of what the library returns. *)
Class NumLibShapes (K : NumLib) : Prop := {
  fft_length : forall n v, 1 <= n -> length (fft n v) = Z.to_nat n;
  ifft_length : forall v, length (ifft v) = length v;
  hann_length : forall n, length (hann n) = Z.to_nat n;
  hamming_length : forall n, length (hamming n) = Z.to_nat n;
  blackman_length : forall n, length (blackman n) = Z.to_nat n;
  linspace01_length : forall n, length (linspace01 n) = Z.to_nat n
}.

(* ------------------------------------------------------------------ *)
(** ** The source functions *)

Section Engine.
Context {K : NumLib}.

Definition C0 : complex R := mkC R0 R0.

(** [z.conj()]. *)
Definition conj (z : complex R) : complex R := mkC (re z) (Ropp (im z)).

(** [np.zeros(k)]: a negative dimension is refused. *)
Definition np_zeros (k : Z) : outcome (list R) :=
  if k <? 0 then Raises ValueError else Returns (repeat R0 (Z.to_nat k)).

(** [np.ones(k)]. *)
Definition np_ones (k : Z) : outcome (list R) :=
  if k <? 0 then Raises ValueError else Returns (repeat R1 (Z.to_nat k)).

(** *** class WindowType (lines 298-305) *)

Definition RECTANGULAR : string := "rectangular".
Definition HAMMING : string := "hamming".
Definition HANN : string := "hann".
Definition BLACKMAN : string := "blackman".
Definition DEFAULT : string := HAMMING.
Definition all_types : list string := [RECTANGULAR; HAMMING; HANN; BLACKMAN].

(** *** make_window (lines 274-295)

    The result is [Some w] for an array and [None] for Python's [None], which
    the last branch returns. *)
Definition make_window (window_type : string) (length : Z) : outcome (option (list R)) :=
  if String.eqb window_type RECTANGULAR then
    w <- np_ones length ;; Returns (Some w)
  else if String.eqb window_type HANN then
    Returns (Some (hann length))
  else if String.eqb window_type BLACKMAN then
    Returns (Some (blackman length))
  else if String.eqb window_type HAMMING then
    Returns (Some (hamming length))
  else
    Returns None.

(** *** e_stft (lines 77-173) *)

(** Lines 132-133, [int(2 ** np.ceil(np.log2(window_length)))], with the
    float arithmetic taken as exact: [np.log2] of a negative number is [nan]
    and [int(nan)] raises; [np.log2(0)] is [-inf] and [2 ** -inf] is [0.0]. *)
Definition default_n_fft_bins (window_length : Z) : outcome Z :=
  if window_length <? 0 then Raises ValueError
  else if window_length =? 0 then Returns 0
  else Returns (2 ^ Z.log2_up window_length).

(** Lines 135-148: the padded signal, [len(zero_pad1)] and [zero_pad2_len]. *)
Definition pad_signal (signal : list R) (window_length hop_length : Z)
  : outcome (list R * Z * Z) :=
  let orig_signal_length := len signal in
  zero_pad1 <- (if window_length mod 2 =? 0
                then np_zeros (window_length / 2)
                else np_zeros ((window_length - 1) / 2)) ;;
  let signal := zero_pad1 ++ signal ++ zero_pad1 in
  if hop_length =? 0 then Raises ZeroDivisionError
  else if negb (orig_signal_length mod hop_length =? 0) then
    let zero_pad2_len := hop_length - orig_signal_length mod hop_length in
    zero_pad2 <- np_zeros zero_pad2_len ;;
    Returns (signal ++ zero_pad2, len zero_pad1, zero_pad2_len)
  else
    Returns (signal, len zero_pad1, 0).

(** [np.multiply(unwindowed_signal, window)]; a [None] operand is a
    [TypeError]. *)
Definition np_multiply (xs : list R) (window : option (list R)) : outcome (list R) :=
  match window with
  | Some w => broadcast2 Rmul xs w
  | None => Raises TypeError
  end.

(** [stft[hop,] = v]: [v] is broadcast to a row of [width] values. *)
Definition assign_row {A : Type} (width : Z) (v : list A) : outcome (list A) :=
  if (length v =? Z.to_nat width)%nat then Returns v
  else match v with
       | [x] => Returns (repeat x (Z.to_nat width))
       | _ => Raises ValueError
       end.

(** Lines 159-164: one iteration of the loop, the row of index [hop]. *)
Definition stft_frame (signal : list R) (window : option (list R))
  (window_length hop_length n_fft_bins stft_bins hop : Z) : outcome (list (complex R)) :=
  let start := hop * hop_length in
  let end_ := start + window_length in
  let unwindowed_signal := py_slice start end_ signal in
  windowed_signal <- np_multiply unwindowed_signal window ;;
  if n_fft_bins <? 1 then Raises ValueError
  else
    let fft_ := fft n_fft_bins windowed_signal in
    assign_row stft_bins (py_slice 0 stft_bins fft_).

Definition e_stft (signal : list R) (window_length hop_length : Z) (window_type : string)
  (n_fft_bins : option Z) (remove_reflection : bool) : outcome (ndarray2 (complex R)) :=
  n_fft_bins <- match n_fft_bins with
                | None => default_n_fft_bins window_length
                | Some n => Returns n
                end ;;
  '(signal, len_zero_pad1, zero_pad2_len) <- pad_signal signal window_length hop_length ;;
  window <- make_window window_type window_length ;;
  let num_blocks := (len signal - window_length) / hop_length + 1 in
  let stft_bins := if remove_reflection then n_fft_bins / 2 + 1 else n_fft_bins in
  if (num_blocks <? 0) || (stft_bins <? 0) then Raises ValueError
  else
    frames <- for_each (stft_frame signal window window_length hop_length n_fft_bins stft_bins)
                       (range num_blocks) ;;
    let stft := mk2d (Z.to_nat num_blocks) (Z.to_nat stft_bins) frames in
    let stft := transpose stft in
    if remove_reflection then
      let first := len_zero_pad1 / hop_length in
      let last := Z.of_nat (shape1 stft) - (len_zero_pad1 + zero_pad2_len) / hop_length in
      Returns (column_slice first last stft)
    else
      Returns stft.

(** *** e_istft (lines 176-238) *)

(** Line 230, [signal[start:end] = signal[start:end] + np.real(ifft(stft[:, n]))];
    [scipy.fftpack.ifft] refuses an empty input. *)
Definition overlap_add_step (stft : ndarray2 (complex R)) (window_length hop_length : Z)
  (signal : list R) (n : Z) : outcome (list R) :=
  let start := n * hop_length in
  let end_ := start + window_length in
  let col := column (Z.to_nat n) stft in
  if (length col =? 0)%nat then Raises ValueError
  else
    s <- broadcast2 Radd (py_slice start end_ signal) (map re (ifft col)) ;;
    py_slice_assign start end_ signal s.

(** Lines 223-225: the spectrogram with the reflection put back, the full
    spectrum of every frame. *)
Definition rebuild_reflection (stft : ndarray2 (complex R)) : outcome (ndarray2 (complex R)) :=
  let reflection := row_slice_rev (-2) 0 stft in
  let reflection := map2d conj reflection in
  vstack stft reflection.

(** Lines 217-230: the overlap-add buffer before any trimming. *)
Definition overlap_add (stft : ndarray2 (complex R)) (window_length hop_length : Z)
  (reconstruct_reflection : bool) : outcome (list R) :=
  let n_hops := Z.of_nat (shape1 stft) in
  let signal_length := (n_hops - 1) * hop_length + window_length in
  signal <- np_zeros signal_length ;;
  stft <- (if reconstruct_reflection then rebuild_reflection stft else Returns stft) ;;
  for_fold (overlap_add_step stft window_length hop_length) (range n_hops) signal.

(** [window_type] is an argument of the function and is not read by it. *)
Definition e_istft (stft : ndarray2 (complex R)) (window_length hop_length : Z)
  (window_type : string) (reconstruct_reflection remove_padding : bool) : outcome (list R) :=
  let n_hops := Z.of_nat (shape1 stft) in
  let signal_length := (n_hops - 1) * hop_length + window_length in
  signal <- overlap_add stft window_length hop_length reconstruct_reflection ;;
  if remove_padding then
    let start := window_length - hop_length in
    let stop := signal_length - (window_length - hop_length) in
    Returns (py_slice start stop signal)
  else
    Returns signal.

(** *** e_stft_plus (lines 241-271) *)

(** [np.dot(window, window.T)]. *)
Definition np_dot (xs ys : list R) : outcome R :=
  if (length xs =? length ys)%nat
  then Returns (fold_left Radd (map (fun p => Rmul (fst p) (snd p)) (combine xs ys)) R0)
  else Raises ValueError.

Definition e_stft_plus (signal : list R) (window_length hop_length : Z) (window_type : string)
  (sample_rate : Z) (n_fft_bins : option Z)
  : outcome (ndarray2 (complex R) * ndarray2 R * list R * list R) :=
  let n_fft_bins := match n_fft_bins with None => window_length | Some n => n end in
  stft <- e_stft signal window_length hop_length window_type (Some n_fft_bins) true ;;
  if n_fft_bins / 2 + 1 <? 0 then Raises ValueError
  else
    let frequency_vector := map (Rmul (of_Z (sample_rate / 2))) (linspace01 (n_fft_bins / 2 + 1)) in
    let time_vector := map of_Z (range (Z.of_nat (shape1 stft))) in
    if sample_rate =? 0 then Raises ZeroDivisionError
    else
      let hop_in_secs := Rdiv (of_Z hop_length) (of_Z sample_rate) in
      let time_vector := map (Rmul hop_in_secs) time_vector in
      window <- make_window window_type window_length ;;
      match window with
      | None => Raises AttributeError
      | Some window =>
          win_dot <- np_dot window window ;;
          let psd := map2d (fun z => Rmul (Rdiv R1 (of_Z sample_rate)) (Rdiv (abs_sq z) win_dot)) stft in
          Returns (stft, psd, frequency_vector, time_vector)
      end.

End Engine.

(* ------------------------------------------------------------------ *)
(** ** class StftParams (lines 311-394) *)

Section Params.

(** [int(2 ** (np.ceil(np.log2(Constants.DEFAULT_WIN_LEN_PARAM * sample_rate))))],
    line 330.  The module [Constants] is not among the sources, so the
    default window length is taken as a function of the sample rate. *)
Variable default_win_len : Z -> Z.

Record StftParams : Type := mkStftParams {
  sample_rate : Z;
  _window_length : Z;
  _hop_length : Z;
  window_type : string;
  _n_fft_bins : Z;
  _hop_length_needs_update : bool;
  _n_fft_bins_needs_update : bool
}.

(** [__init__] (lines 326-343). *)
Definition StftParams_init (sample_rate : Z) (window_length hop_length : option Z)
  (window_type : option string) (n_fft_bins : option Z) : StftParams :=
  let default_win_len := default_win_len sample_rate in
  let _window_length := match window_length with None => default_win_len | Some w => w end in
  let _hop_length := match hop_length with None => _window_length / 2 | Some h => h end in
  let window_type := match window_type with None => DEFAULT | Some t => t end in
  let _n_fft_bins := match n_fft_bins with None => _window_length | Some n => n end in
  mkStftParams sample_rate _window_length _hop_length window_type _n_fft_bins
    (match hop_length with None => true | Some _ => false end)
    (match n_fft_bins with None => true | Some _ => false end).

(** The properties and their setters (lines 345-394). *)
Definition window_length (self : StftParams) : Z := _window_length self.
Definition hop_length (self : StftParams) : Z := _hop_length self.
Definition n_fft_bins (self : StftParams) : Z := _n_fft_bins self.
Definition window_overlap (self : StftParams) : Z := window_length self - hop_length self.

Definition set_window_length (value : Z) (self : StftParams) : StftParams :=
  let self := mkStftParams (sample_rate self) value (_hop_length self) (window_type self)
                (_n_fft_bins self) (_hop_length_needs_update self)
                (_n_fft_bins_needs_update self) in
  let self := if _n_fft_bins_needs_update self
              then mkStftParams (sample_rate self) (_window_length self) (_hop_length self)
                     (window_type self) value (_hop_length_needs_update self)
                     (_n_fft_bins_needs_update self)
              else self in
  if _hop_length_needs_update self
  then mkStftParams (sample_rate self) (_window_length self) (value / 2) (window_type self)
         (_n_fft_bins self) (_hop_length_needs_update self) (_n_fft_bins_needs_update self)
  else self.

Definition set_hop_length (value : Z) (self : StftParams) : StftParams :=
  mkStftParams (sample_rate self) (_window_length self) value (window_type self)
    (_n_fft_bins self) false (_n_fft_bins_needs_update self).

Definition set_n_fft_bins (value : Z) (self : StftParams) : StftParams :=
  mkStftParams (sample_rate self) (_window_length self) (_hop_length self) (window_type self)
    value (_hop_length_needs_update self) false.

(** [sample_rate] and [window_type] are plain attributes. *)
Definition set_sample_rate (value : Z) (self : StftParams) : StftParams :=
  mkStftParams value (_window_length self) (_hop_length self) (window_type self)
    (_n_fft_bins self) (_hop_length_needs_update self) (_n_fft_bins_needs_update self).

Definition set_window_type (value : string) (self : StftParams) : StftParams :=
  mkStftParams (sample_rate self) (_window_length self) (_hop_length self) value
    (_n_fft_bins self) (_hop_length_needs_update self) (_n_fft_bins_needs_update self).

(** A write to a field of an instance, and a sequence of writes. *)
Inductive write : Type :=
| WriteWindowLength (value : Z)
| WriteHopLength (value : Z)
| WriteNFftBins (value : Z)
| WriteSampleRate (value : Z)
| WriteWindowType (value : string).

Definition apply_write (self : StftParams) (w : write) : StftParams :=
  match w with
  | WriteWindowLength v => set_window_length v self
  | WriteHopLength v => set_hop_length v self
  | WriteNFftBins v => set_n_fft_bins v self
  | WriteSampleRate v => set_sample_rate v self
  | WriteWindowType t => set_window_type t self
  end.

Definition apply_writes (ws : list write) (self : StftParams) : StftParams :=
  fold_left apply_write ws self.

(** Whether [hop_length] (respectively [n_fft_bins]) was given to the
    constructor or written since. *)
Definition is_hop_write (w : write) : bool :=
  match w with WriteHopLength _ => true | _ => false end.

Definition is_n_fft_write (w : write) : bool :=
  match w with WriteNFftBins _ => true | _ => false end.

Definition is_given {A : Type} (o : option A) : bool :=
  match o with Some _ => true | None => false end.

Definition hop_explicitly_set (hop_arg : option Z) (ws : list write) : bool :=
  is_given hop_arg || existsb is_hop_write ws.

Definition n_fft_explicitly_set (n_fft_arg : option Z) (ws : list write) : bool :=
  is_given n_fft_arg || existsb is_n_fft_write ws.

End Params.

(* ------------------------------------------------------------------ *)
(** ** An exact numeric library on the rationals

    An instance of [NumLib] in which every value is a rational number and
    every operation is exact.  The roots of unity it knows are the fourth
    ones, so [fft], [ifft] and the windows are the mathematical ones for the
    sizes 1, 2 and 4, which is where the examples below use them. *)

Module ExactQ.

Definition C := complex Qc.

Definition Cadd (a b : C) : C := mkC (re a + re b)%Qc (im a + im b)%Qc.
Definition Cmul (a b : C) : C :=
  mkC (re a * re b - im a * im b)%Qc (re a * im b + im a * re b)%Qc.
Definition Cscale (q : Qc) (a : C) : C := mkC (q * re a)%Qc (q * im a)%Qc.
Definition Csum (l : list C) : C := fold_right Cadd (mkC 0%Qc 0%Qc) l.

Definition qz (n : Z) : Qc := Q2Qc (inject_Z n).

(** A signal with integer sample values. *)
Definition samples (l : list Z) : list Qc := map qz l.

(** The complex number [a + b i]. *)
Definition gauss (a b : Z) : C := mkC (qz a) (qz b).

(** A frame of three bins, for [n_fft_bins = 4], whose Nyquist bin is [i]. *)
Definition three_bins : ndarray2 C :=
  mk2d 3 1 [[gauss 1 0]; [gauss 2 1]; [gauss 0 1]].

(** A frame of two bins, for [n_fft_bins = 3]. *)
Definition two_bins : ndarray2 C :=
  mk2d 2 1 [[gauss 1 0]; [gauss 2 1]].

(** [exp(-2 pi i k / 4)]. *)
Definition omega4 (k : Z) : C :=
  match k mod 4 with
  | 0 => mkC 1%Qc 0%Qc
  | 1 => mkC 0%Qc (- (1))%Qc
  | 2 => mkC (- (1))%Qc 0%Qc
  | _ => mkC 0%Qc 1%Qc
  end.

(** [sum_j x_j exp(-+ 2 pi i j k / n)] for [k] in [range(n)], [n] a divisor
    of 4. *)
Definition dft (sign n : Z) (xs : list C) : list C :=
  map (fun k =>
         Csum (map (fun p => Cmul (snd p) (omega4 (sign * (4 / n) * fst p * k)))
                   (combine (range n) xs)))
      (range n).

(** The input is cut or zero-padded to [n] values. *)
Definition fft (n : Z) (xs : list Qc) : list C :=
  dft 1 n (map (fun x => mkC x 0%Qc) (firstn (Z.to_nat n) (xs ++ repeat 0%Qc (Z.to_nat n)))).

Definition ifft (xs : list C) : list C :=
  map (Cscale (1 / qz (len xs))%Qc) (dft (-1) (len xs) xs).

(** [cos(2 pi j / n)]. *)
Definition cos_turn (n j : Z) : Qc := re (omega4 ((4 / n) * j)).

(** [a0 - a1 cos(2 pi j / n) + a2 cos(4 pi j / n)], the periodic window. *)
Definition cosine_window (a0 a1 a2 : Qc) (n : Z) : list Qc :=
  if n <? 1 then []
  else if n =? 1 then [1%Qc]
  else map (fun j => (a0 - a1 * cos_turn n j + a2 * cos_turn n (2 * j))%Qc) (range n).

Definition hann : Z -> list Qc := cosine_window (Q2Qc (1 # 2)) (Q2Qc (1 # 2)) 0%Qc.
Definition hamming : Z -> list Qc := cosine_window (Q2Qc (54 # 100)) (Q2Qc (46 # 100)) 0%Qc.
Definition blackman : Z -> list Qc :=
  cosine_window (Q2Qc (42 # 100)) (Q2Qc (1 # 2)) (Q2Qc (8 # 100)).

Definition linspace01 (n : Z) : list Qc :=
  if n =? 1 then [0%Qc] else map (fun j => (qz j / qz (n - 1))%Qc) (range n).

Definition abs_sq (z : C) : Qc := (re z * re z + im z * im z)%Qc.

End ExactQ.

Definition ExactLib : NumLib := {|
  R := Qc;
  R0 := 0%Qc;
  R1 := 1%Qc;
  Radd := Qcplus;
  Rmul := Qcmult;
  Rdiv := Qcdiv;
  Ropp := Qcopp;
  of_Z := ExactQ.qz;
  abs_sq := ExactQ.abs_sq;
  fft := ExactQ.fft;
  ifft := ExactQ.ifft;
  hann := ExactQ.hann;
  hamming := ExactQ.hamming;
  blackman := ExactQ.blackman;
  linspace01 := ExactQ.linspace01
|}.

(* ------------------------------------------------------------------ *)
(** ** Notions used in the statements *)

Section Statements.
Context {K : NumLib}.

(** Analysis followed by synthesis, as in the docstring example of
    [e_istft] (lines 212-215), with the flags left open. *)
Definition round_trip (x : list R) (window_length hop_length : Z) (window_type : string)
  (n_fft_bins : option Z) (remove_padding : bool) : outcome (list R) :=
  stft <- e_stft x window_length hop_length window_type n_fft_bins true ;;
  e_istft stft window_length hop_length window_type true remove_padding.

(** The tail padding of line 147. *)
Definition tail_pad (orig_signal_length hop_length : Z) : Z :=
  if orig_signal_length mod hop_length =? 0 then 0
  else hop_length - orig_signal_length mod hop_length.

(** The number of frames that [e_stft] keeps when [remove_reflection] is
    set, from the length of the signal it was given. *)
Definition kept_frames (orig_signal_length window_length hop_length : Z) : Z :=
  let z := window_length / 2 in
  let t := tail_pad orig_signal_length hop_length in
  let num_blocks := (orig_signal_length + 2 * z + t - window_length) / hop_length + 1 in
  Z.max 0 (num_blocks - z / hop_length - (z + t) / hop_length).

(** The signal after the padding of lines 137-148, for a valid call. *)
Definition padded (x : list R) (window_length hop_length : Z) : list R :=
  repeat R0 (Z.to_nat (window_length / 2)) ++ x ++
  repeat R0 (Z.to_nat (window_length / 2)) ++
  repeat R0 (Z.to_nat (tail_pad (len x) hop_length)).

(** The values of [windowed_signal] and of the row [stft[hop,]] when the
    loop body of lines 159-164 does not raise. *)
Definition windowed_frame (p w : list R) (window_length hop_length hop : Z) : list R :=
  map (fun q => Rmul (fst q) (snd q))
      (combine (py_slice (hop * hop_length) (hop * hop_length + window_length) p) w).

Definition spectrum_frame (p w : list R) (window_length hop_length n_fft_bins stft_bins hop : Z)
  : list (complex R) :=
  py_slice 0 stft_bins (fft n_fft_bins (windowed_frame p w window_length hop_length hop)).

(** The array [stft] after line 167, before the frames are trimmed. *)
Definition untrimmed_stft (x w : list R) (window_length hop_length n_fft_bins : Z)
  (remove_reflection : bool) : ndarray2 (complex R) :=
  let p := padded x window_length hop_length in
  let num_blocks := (len p - window_length) / hop_length + 1 in
  let stft_bins := if remove_reflection then n_fft_bins / 2 + 1 else n_fft_bins in
  transpose (mk2d (Z.to_nat num_blocks) (Z.to_nat stft_bins)
               (map (spectrum_frame p w window_length hop_length n_fft_bins stft_bins)
                    (range num_blocks))).

(** The buffer after one iteration of the loop of lines 227-230 that does
    not raise: [frame] is added to the values of [buf] from index [offset]
    on. *)
Definition add_frame (buf : list R) (offset : nat) (frame : list R) : list R :=
  firstn offset buf ++
  map (fun p => Radd (fst p) (snd p)) (combine (firstn (length frame) (skipn offset buf)) frame) ++
  skipn (offset + length frame) buf.

(** The time-domain frame of index [n]: [np.real(ifft(stft[:, n]))]. *)
Definition time_frame (stft : ndarray2 (complex R)) (n : Z) : list R :=
  map re (ifft (column (Z.to_nat n) stft)).

(** The buffer after the whole loop, when no iteration raises. *)
Definition accumulate (stft : ndarray2 (complex R)) (hop_length : Z) (ns : list Z)
  (buf : list R) : list R :=
  fold_left (fun b n => add_frame b (Z.to_nat (n * hop_length)) (time_frame stft n)) ns buf.

(** [l] with [k] values dropped at each end. *)
Definition trim_both {A : Type} (k : nat) (l : list A) : list A :=
  skipn k (firstn (length l - k) l).

End Statements.

(** Float arithmetic taken as exact: the laws of a ring that the
    overlap-add sum goes through. *)
Class ExactArithmetic (K : NumLib) : Prop := {
  Radd_0_l : forall a : R, Radd R0 a = a;
  Rmul_1_r : forall a : R, Rmul a R1 = a;
  Rmul_add_distr : forall a b c : R, Radd (Rmul a b) (Rmul a c) = Rmul a (Radd b c)
}.

(** [fft] and [ifft] taken as the exact discrete Fourier transform of [n]
    points and its inverse: the transform of real values is Hermitian, and
    the inverse transform gives the values back. *)
Definition exact_dft {K : NumLib} (n : Z) : Prop :=
  (forall (v : list R) (k : nat),
      length v = Z.to_nat n -> (1 <= k)%nat -> (2 * k < Z.to_nat n)%nat ->
      nth_error (fft n v) (Z.to_nat n - k) = option_map conj (nth_error (fft n v) k)) /\
  (forall v : list R, length v = Z.to_nat n -> map re (ifft (fft n v)) = v).

(** Constant overlap-add at a hop of half the window: the two halves of the
    window add up to one. *)
Definition cola {K : NumLib} (w : list R) (hop_length : Z) : Prop :=
  forall i : nat, (i < Z.to_nat hop_length)%nat ->
    Radd (nth (Z.to_nat hop_length + i) w R0) (nth i w R0) = R1.

(** The shape of the array that a call returns. *)
Definition shape_of {A : Type} (m : outcome (ndarray2 A)) : option (nat * nat) :=
  match m with
  | Returns a => Some (shape0 a, shape1 a)
  | Raises _ => None
  end.

(** The value that [e_stft] gives to [n_fft_bins] (lines 132-133) when the
    window has at least one sample. *)
Definition resolved_n_fft_bins (window_length : Z) (n_fft_bins : option Z) : Z :=
  match n_fft_bins with
  | Some n => n
  | None => 2 ^ Z.log2_up window_length
  end.

(** [n] is the smallest power of two that is at least [w]. *)
Definition smallest_pow2_ge (w n : Z) : Prop :=
  (exists k, 0 <= k /\ n = 2 ^ k) /\ w <= n /\
  forall j, 0 <= j -> w <= 2 ^ j -> n <= 2 ^ j.

(** The exceptions of Python and numpy, as opposed to the error names of
    the specification. *)
Definition builtin (e : exn) : Prop := e <> InvalidParameter /\ e <> InvalidWindowType.

Definition builtin_only {A : Type} (m : outcome A) : Prop :=
  forall e, m = Raises e -> builtin e.

(** A call that does not raise the exception [e]. *)
Definition never_raises {A : Type} (e : exn) (m : outcome A) : Prop := m <> Raises e.

(* ------------------------------------------------------------------ *)
(** ** Notions used in the further properties *)

Section FurtherStatements.
Context {K : NumLib}.

(** Analysis that keeps the whole spectrum, followed by synthesis that takes
    the spectrum as complete: the other pairing of the flags that the
    docstring of [e_stft] describes (lines 82-85). *)
Definition round_trip_full (x : list R) (window_length hop_length : Z) (window_type : string)
  (n_fft_bins : option Z) (remove_padding : bool) : outcome (list R) :=
  stft <- e_stft x window_length hop_length window_type n_fft_bins false ;;
  e_istft stft window_length hop_length window_type false remove_padding.

End FurtherStatements.

(** The value that a write gives to [window_length], [hop_length] or
    [n_fft_bins], and the last value written to a field by a sequence of
    writes, if any. *)
Definition window_length_written (w : write) : option Z :=
  match w with WriteWindowLength v => Some v | _ => None end.

Definition hop_length_written (w : write) : option Z :=
  match w with WriteHopLength v => Some v | _ => None end.

Definition n_fft_bins_written (w : write) : option Z :=
  match w with WriteNFftBins v => Some v | _ => None end.

Definition last_written {A : Type} (field : write -> option A) (ws : list write) : option A :=
  fold_left (fun acc w => match field w with Some v => Some v | None => acc end) ws None.

(* ------------------------------------------------------------------ *)
(** ** Notions used for rounding error *)

Section Rounding.
Context {K : NumLib}.

(** The rational number that a float stands for. *)
Variable value : R -> Q.

(** IEEE arithmetic rounded to nearest, on the floats whose value is at
    most [Omega] in size: a sum that stays in that range is the exact sum
    with a relative error of at most [u], and so is a product, up to the
    absolute error [eta] of an underflow. *)
Definition float_model (u eta Omega : Q) : Prop :=
  (0 <= u)%Q /\ (0 <= eta)%Q /\ (value R0 == 0)%Q /\
  (forall a b : R,
      (Qabs (value a) <= Omega)%Q -> (Qabs (value b) <= Omega)%Q ->
      (Qabs (value a + value b) <= Omega)%Q ->
      (Qabs (value (Radd a b) - (value a + value b)) <= u * Qabs (value a + value b))%Q) /\
  (forall a b : R,
      (Qabs (value a) <= Omega)%Q -> (Qabs (value b) <= Omega)%Q ->
      (Qabs (value a * value b) <= Omega)%Q ->
      (Qabs (value (Rmul a b) - value a * value b) <= u * Qabs (value a * value b) + eta)%Q).

(** What [e_stft] and [e_istft] do to one windowed frame of [window_length]
    samples: transform (line 163), keep the first
    [window_length // 2 + 1] bins (line 164), rebuild the others by
    reflection (lines 222-225), transform back and take the real part
    (line 229). *)
Definition resynthesis (window_length : Z) (frame : list R) : list R :=
  let half := py_slice 0 (window_length / 2 + 1) (fft window_length frame) in
  map re (ifft (half ++ map conj (py_slice_rev (-2) 0 half))).

(** The accuracy of [fft] and [ifft]: a frame whose samples are at most
    [M] in size, [M] being at most [Mmax], comes back from [resynthesis]
    with an error of at most [eps * M + eta]. *)
Definition frame_accuracy (window_length : Z) (eps eta Mmax : Q) : Prop :=
  (0 <= eps)%Q /\
  forall (frame : list R) (M : Q),
    length frame = Z.to_nat window_length ->
    (forall j, (j < Z.to_nat window_length)%nat -> (Qabs (value (nth j frame R0)) <= M)%Q) ->
    (M <= Mmax)%Q ->
    forall i, (i < Z.to_nat window_length)%nat ->
      (Qabs (value (nth i (resynthesis window_length frame) R0) - value (nth i frame R0))
         <= eps * M + eta)%Q.

Definition sumQ (l : list Q) : Q := fold_right Qplus 0%Q l.

(** The number of frames, one hop apart, that cover a sample which is at
    offset [i] in the last of them. *)
Definition overlap_count (window_length hop_length : Z) (i : nat) : nat :=
  Z.to_nat ((window_length - 1 - Z.of_nat i) / hop_length + 1).

(** The sum of the window samples that meet at such a sample. *)
Definition overlapped_window (w : list R) (hop_length : Z) (i : nat) : Q :=
  sumQ (map (fun j => value (nth (i + j * Z.to_nat hop_length) w R0))
            (seq 0 (overlap_count (len w) hop_length i))).

(** Constant overlap-add: at a stride of [hop_length] the samples of the
    window add up to [c], within [delta]. *)
Definition cola_within (w : list R) (hop_length : Z) (c delta : Q) : Prop :=
  (0 <= delta)%Q /\
  forall i, (i < Z.to_nat hop_length)%nat ->
    (Qabs (overlapped_window w hop_length i - c) <= delta)%Q.

(** [x[j]], and zero where [j] is not an index of [x]. *)
Definition sample_at (x : list R) (j : Z) : R :=
  if j <? 0 then R0 else nth (Z.to_nat j) x R0.

End Rounding.

(** The error of a float sum of [k] terms, each known within [e] and at
    most [a] in size. *)
Fixpoint sum_tolerance (u e a : Q) (k : nat) : Q :=
  match k with
  | O => 0
  | S k' =>
      sum_tolerance u e a k' + e
      + u * (inject_Z (Z.of_nat k) * a + sum_tolerance u e a k' + e)
  end%Q.

(** The largest sample of a windowed frame, for a signal of amplitude [A]
    and a window of amplitude [B]. *)
Definition frame_bound (u eta A B : Q) : Q := ((1 + u) * (A * B) + eta)%Q.

(** The error of one sample of a frame that went through [resynthesis]. *)
Definition term_error (u eta eps A B : Q) : Q :=
  (eps * frame_bound u eta A B + eta + (u * (A * B) + eta))%Q.

(** The largest value that the overlap-add of [r] frames goes through. *)
Definition largest_sum (u eta eps A B : Q) (r : nat) : Q :=
  (inject_Z (Z.of_nat r) * (A * B) + sum_tolerance u (term_error u eta eps A B) (A * B) r)%Q.

(** The tolerance of the round trip: [u] is the unit roundoff, [eta] the
    underflow error, [eps] the accuracy of the transforms, [delta] the
    defect of the window sum, [A] the amplitude of the signal, [B] the one
    of the window and [r] the number of frames that overlap. *)
Definition tolerance (u eta eps delta A B : Q) (r : nat) : Q :=
  (sum_tolerance u (term_error u eta eps A B) (A * B) r + A * delta)%Q.

(** The frame [n], of [Wn] samples and [h] samples after the one before,
    covers the position [t] of the buffer. *)
Definition covers (h Wn n t : nat) : bool := ((n * h <=? t) && (t <? n * h + Wn))%nat.

(** The number that a value of [ExactLib] stands for. *)
Definition exact_value (q : @R ExactLib) : Q := this q.

(* ================================================================== *)
(** * Properties *)

(** ** StftParams: dependent defaults *)

Section ParamsFacts.
Variable default_win_len : Z -> Z.

Lemma hop_flag_after_writes (ws : list write) (s : StftParams) :
  _hop_length_needs_update (apply_writes ws s) =
  _hop_length_needs_update s && negb (existsb is_hop_write ws).
Proof.
  revert s; induction ws as [|w ws IH]; intros s; simpl.
  - now rewrite andb_true_r.
  - unfold apply_writes in IH; rewrite IH.
    destruct w; simpl; unfold set_window_length; simpl;
      destruct (_n_fft_bins_needs_update s), (_hop_length_needs_update s); reflexivity.
Qed.

Lemma n_fft_flag_after_writes (ws : list write) (s : StftParams) :
  _n_fft_bins_needs_update (apply_writes ws s) =
  _n_fft_bins_needs_update s && negb (existsb is_n_fft_write ws).
Proof.
  revert s; induction ws as [|w ws IH]; intros s; simpl.
  - now rewrite andb_true_r.
  - unfold apply_writes in IH; rewrite IH.
    destruct w; simpl; unfold set_window_length; simpl;
      destruct (_n_fft_bins_needs_update s), (_hop_length_needs_update s); reflexivity.
Qed.

Lemma set_window_length_fields (v : Z) (s : StftParams) :
  window_length (set_window_length v s) = v /\
  hop_length (set_window_length v s) =
    (if _hop_length_needs_update s then v / 2 else hop_length s) /\
  n_fft_bins (set_window_length v s) =
    (if _n_fft_bins_needs_update s then v else n_fft_bins s).
Proof.
  unfold set_window_length, window_length, hop_length, n_fft_bins; simpl.
  destruct (_n_fft_bins_needs_update s), (_hop_length_needs_update s); simpl; auto.
Qed.

(** While a field tracks the window length it holds the derived value. *)
Lemma derived_values_after_writes (ws : list write) (s : StftParams) :
  (_hop_length_needs_update s = true -> hop_length s = window_length s / 2) ->
  (_n_fft_bins_needs_update s = true -> n_fft_bins s = window_length s) ->
  let s' := apply_writes ws s in
  (_hop_length_needs_update s' = true -> hop_length s' = window_length s' / 2) /\
  (_n_fft_bins_needs_update s' = true -> n_fft_bins s' = window_length s').
Proof.
  revert s; induction ws as [|w ws IH]; intros s Hh Hn; simpl; [auto|].
  apply IH; destruct w; simpl;
    unfold set_window_length, window_length, hop_length, n_fft_bins in *; simpl;
    destruct (_n_fft_bins_needs_update s), (_hop_length_needs_update s); simpl;
    auto; discriminate.
Qed.

(** C5.  Take any instance built by [__init__] and any sequence [ws] of
    field writes, followed by a write of [v] to [window_length].  If
    [hop_length] was neither given to the constructor nor written in [ws],
    it held [window_length / 2] before the write and holds [v / 2] after it;
    otherwise the write leaves it as it was.  Likewise [n_fft_bins] held
    [window_length] and becomes [v], or is left as it was. *)
Theorem lazy_dependent_defaults
  (sr : Z) (wl hl : option Z) (wt : option string) (nf : option Z)
  (ws : list write) (v : Z) :
  let s := apply_writes ws (StftParams_init default_win_len sr wl hl wt nf) in
  let s' := set_window_length v s in
  window_length s' = v /\
  (hop_explicitly_set hl ws = false ->
     hop_length s = window_length s / 2 /\ hop_length s' = v / 2) /\
  (hop_explicitly_set hl ws = true -> hop_length s' = hop_length s) /\
  (n_fft_explicitly_set nf ws = false ->
     n_fft_bins s = window_length s /\ n_fft_bins s' = v) /\
  (n_fft_explicitly_set nf ws = true -> n_fft_bins s' = n_fft_bins s).
Proof.
  intros s s'.
  set (s0 := StftParams_init default_win_len sr wl hl wt nf) in *.
  assert (Fh : _hop_length_needs_update s = negb (hop_explicitly_set hl ws)).
  { unfold s; rewrite hop_flag_after_writes; unfold hop_explicitly_set.
    destruct hl; simpl; [reflexivity|]. reflexivity. }
  assert (Fn : _n_fft_bins_needs_update s = negb (n_fft_explicitly_set nf ws)).
  { unfold s; rewrite n_fft_flag_after_writes; unfold n_fft_explicitly_set.
    destruct nf; simpl; reflexivity. }
  assert (D : (_hop_length_needs_update s = true -> hop_length s = window_length s / 2) /\
              (_n_fft_bins_needs_update s = true -> n_fft_bins s = window_length s)).
  { apply (derived_values_after_writes ws s0);
      unfold s0, StftParams_init, hop_length, n_fft_bins, window_length; simpl;
      [destruct hl | destruct nf]; simpl; intros; try discriminate; reflexivity. }
  destruct D as [Dh Dn].
  destruct (set_window_length_fields v s) as (E1 & E2 & E3).
  fold s' in E1, E2, E3.
  split; [exact E1|].
  split; [intros H; split|].
  - apply Dh; rewrite Fh, H; reflexivity.
  - rewrite E2, Fh, H; reflexivity.
  - split; [intros H; rewrite E2, Fh, H; reflexivity|].
    split; [intros H; split|intros H].
    + apply Dn; rewrite Fn, H; reflexivity.
    + rewrite E3, Fn, H; reflexivity.
    + rewrite E3, Fn, H; reflexivity.
Qed.

End ParamsFacts.

(** An instance built with defaults, then [hop_length] written, then two
    writes of [window_length]: the first hypothesis of each pair is met for
    [n_fft_bins] and the second for [hop_length]. *)
Lemma lazy_dependent_defaults_witness :
  let init := StftParams_init (fun _ => 2048) 44100 None None None None in
  let s := apply_writes [WriteHopLength 100; WriteWindowLength 512] init in
  let s' := set_window_length 1024 s in
  window_length s' = 1024 /\ hop_length s' = 100 /\ n_fft_bins s' = 1024 /\
  hop_length (set_window_length 1024 init) = 512.
Proof.
  pose proof (lazy_dependent_defaults (fun _ => 2048) 44100 None None None None
                [WriteHopLength 100; WriteWindowLength 512] 1024) as P.
  pose proof (lazy_dependent_defaults (fun _ => 2048) 44100 None None None None [] 1024) as Q.
  cbv zeta in P, Q.
  destruct P as (P1 & _ & P3 & P4 & _).
  destruct Q as (_ & Q2 & _).
  intros init s s'.
  split; [exact P1|].
  split; [exact (P3 eq_refl)|].
  split; [exact (proj2 (P4 eq_refl))|].
  exact (proj2 (Q2 eq_refl)).
Defined.

(* ------------------------------------------------------------------ *)
(** ** Slices, loops and arrays *)

Lemma len_nonneg {A : Type} (l : list A) : 0 <= len l.
Proof. unfold len; lia. Qed.

Lemma len_app {A : Type} (l1 l2 : list A) : len (l1 ++ l2) = len l1 + len l2.
Proof. unfold len; rewrite length_app; lia. Qed.

Lemma len_repeat {A : Type} (x : A) (n : nat) : len (repeat x n) = Z.of_nat n.
Proof. unfold len; now rewrite repeat_length. Qed.

Lemma clamp_index_range (n i : Z) : 0 <= n -> 0 <= clamp_index n i <= n.
Proof. unfold clamp_index; destruct (i <? 0) eqn:E; lia. Qed.

Lemma clamp_index_id (n i : Z) : 0 <= i <= n -> clamp_index n i = i.
Proof. unfold clamp_index; destruct (i <? 0) eqn:E; lia. Qed.

Lemma py_slice_length {A : Type} (a b : Z) (l : list A) :
  length (py_slice a b l) =
  Z.to_nat (clamp_index (len l) b - clamp_index (len l) a).
Proof.
  unfold py_slice.
  pose proof (clamp_index_range (len l) a (len_nonneg l)).
  pose proof (clamp_index_range (len l) b (len_nonneg l)).
  rewrite length_firstn, length_skipn; unfold len in *; lia.
Qed.

Lemma py_slice_inside {A : Type} (a b : Z) (l : list A) :
  0 <= a <= b -> b <= len l ->
  py_slice a b l = firstn (Z.to_nat (b - a)) (skipn (Z.to_nat a) l).
Proof.
  intros Ha Hb; unfold py_slice; rewrite !clamp_index_id by lia; reflexivity.
Qed.

Lemma py_slice_to_zero {A : Type} (a : Z) (l : list A) : 0 <= a -> py_slice a 0 l = [].
Proof.
  intros Ha; unfold py_slice.
  pose proof (clamp_index_range (len l) a (len_nonneg l)).
  rewrite (clamp_index_id (len l) 0) by (pose proof (len_nonneg l); lia).
  replace (Z.to_nat (0 - clamp_index (len l) a)) with 0%nat by lia; reflexivity.
Qed.

Lemma py_slice_inside_length {A : Type} (a b : Z) (l : list A) :
  0 <= a <= b -> b <= len l -> length (py_slice a b l) = Z.to_nat (b - a).
Proof.
  intros Ha Hb; rewrite py_slice_length, !clamp_index_id by lia; reflexivity.
Qed.

Lemma in_firstn {A : Type} (n : nat) (l : list A) (x : A) : In x (firstn n l) -> In x l.
Proof. intros H; rewrite <- (firstn_skipn n l); apply in_or_app; now left. Qed.

Lemma in_skipn {A : Type} (n : nat) (l : list A) (x : A) : In x (skipn n l) -> In x l.
Proof. intros H; rewrite <- (firstn_skipn n l); apply in_or_app; now right. Qed.

Lemma range_length (n : Z) : length (range n) = Z.to_nat n.
Proof. unfold range; now rewrite length_map, length_seq. Qed.

Lemma in_range (n i : Z) : In i (range n) <-> 0 <= i < n.
Proof.
  unfold range; rewrite in_map_iff; split.
  - intros (k & <- & Hk); apply in_seq in Hk; lia.
  - intros Hi; exists (Z.to_nat i); split; [lia | apply in_seq; lia].
Qed.

Lemma for_each_returns {A B : Type} (f : A -> outcome B) (g : A -> B) (xs : list A) :
  (forall x, In x xs -> f x = Returns (g x)) ->
  for_each f xs = Returns (map g xs).
Proof.
  induction xs as [|x xs IH]; intros Hf; simpl; [reflexivity|].
  rewrite (Hf x (or_introl eq_refl)); simpl.
  rewrite IH by (intros y Hy; apply Hf; now right); reflexivity.
Qed.

Lemma column_length {A : Type} (j : nat) (a : ndarray2 A) :
  well_shaped a -> (j < shape1 a)%nat -> length (column j a) = shape0 a.
Proof.
  intros [Hr Hc] Hj; unfold column; rewrite <- Hr; clear Hr.
  induction (rows a) as [|r rs IH]; simpl; [reflexivity|].
  inversion Hc as [|? ? Hl Hrest]; subst.
  destruct (nth_error r j) eqn:E.
  - simpl; f_equal; auto.
  - apply nth_error_None in E; lia.
Qed.

Lemma transpose_well_shaped {A : Type} (a : ndarray2 A) :
  well_shaped a -> well_shaped (transpose a).
Proof.
  intros Ha; split; simpl; [now rewrite length_map, length_seq|].
  apply Forall_forall; intros c Hc; apply in_map_iff in Hc.
  destruct Hc as (j & <- & Hj); apply in_seq in Hj.
  apply column_length; [exact Ha | lia].
Qed.

Lemma shape0_column_slice {A : Type} (first last : Z) (a : ndarray2 A) :
  shape0 (column_slice first last a) = shape0 a.
Proof. reflexivity. Qed.

Lemma shape1_column_slice {A : Type} (first last : Z) (a : ndarray2 A) :
  shape1 (column_slice first last a) =
  Z.to_nat (clamp_index (Z.of_nat (shape1 a)) last - clamp_index (Z.of_nat (shape1 a)) first).
Proof. reflexivity. Qed.

Lemma column_slice_well_shaped {A : Type} (first last : Z) (a : ndarray2 A) :
  well_shaped a -> well_shaped (column_slice first last a).
Proof.
  intros [Hr Hc]; split; simpl; [now rewrite length_map|].
  apply Forall_forall; intros c Hin; apply in_map_iff in Hin.
  destruct Hin as (r & <- & Hin).
  rewrite Forall_forall in Hc; specialize (Hc r Hin).
  rewrite py_slice_length; unfold len; now rewrite Hc.
Qed.

(* ------------------------------------------------------------------ *)
(** ** Which exceptions the code raises *)

Lemma builtin_only_returns {A : Type} (a : A) : builtin_only (Returns a).
Proof. intros e H; discriminate. Qed.

Lemma builtin_only_raises {A : Type} (e : exn) : builtin e -> builtin_only (@Raises A e).
Proof. intros He e' H; injection H as <-; exact He. Qed.

Lemma builtin_only_bind {A B : Type} (m : outcome A) (k : A -> outcome B) :
  builtin_only m -> (forall a, builtin_only (k a)) -> builtin_only (bind m k).
Proof.
  intros Hm Hk; destruct m as [a|e]; simpl; [apply Hk|].
  intros e' H; apply Hm; injection H as <-; reflexivity.
Qed.

Lemma builtin_only_for_each {A B : Type} (f : A -> outcome B) (xs : list A) :
  (forall x, builtin_only (f x)) -> builtin_only (for_each f xs).
Proof.
  intros Hf; induction xs as [|x xs IH]; simpl; [apply builtin_only_returns|].
  apply builtin_only_bind; [apply Hf|intros y].
  apply builtin_only_bind; [exact IH|intros ys]; apply builtin_only_returns.
Qed.

Lemma builtin_only_broadcast2 {A B C : Type} (f : A -> B -> C) xs ys :
  builtin_only (broadcast2 f xs ys).
Proof.
  unfold broadcast2; destruct (length xs =? length ys)%nat; [apply builtin_only_returns|].
  destruct xs as [|x [|x' xs]]; destruct ys as [|y [|y' ys]];
    first [apply builtin_only_returns | apply builtin_only_raises; split; discriminate].
Qed.

Lemma builtin_only_assign_row {A : Type} (w : Z) (v : list A) :
  builtin_only (assign_row w v).
Proof.
  unfold assign_row; destruct (length v =? Z.to_nat w)%nat; [apply builtin_only_returns|].
  destruct v as [|x [|x' v]];
    first [apply builtin_only_returns | apply builtin_only_raises; split; discriminate].
Qed.

Ltac builtin_step :=
  first
    [ apply builtin_only_returns
    | apply builtin_only_raises; split; discriminate
    | apply builtin_only_broadcast2
    | apply builtin_only_assign_row
    | apply builtin_only_for_each; intros
    | apply builtin_only_bind; [|intros]
    | match goal with
      | |- builtin_only (if ?c then _ else _) => destruct c
      | |- builtin_only (match ?x with _ => _ end) => destruct x
      end ].

Section EngineFacts.
Context {K : NumLib}.

Lemma builtin_only_np_zeros (k : Z) : builtin_only (np_zeros k).
Proof. unfold np_zeros; repeat builtin_step. Qed.

Lemma builtin_only_make_window (wt : string) (n : Z) : builtin_only (make_window wt n).
Proof. unfold make_window, np_ones; repeat builtin_step. Qed.

Lemma builtin_only_pad_signal (x : list R) (W H : Z) : builtin_only (pad_signal x W H).
Proof.
  unfold pad_signal.
  apply builtin_only_bind; [destruct (W mod 2 =? 0); apply builtin_only_np_zeros|intros z].
  repeat first [apply builtin_only_np_zeros | builtin_step].
Qed.

Lemma builtin_only_e_stft (x : list R) (W H : Z) (wt : string) (n : option Z) (rr : bool) :
  builtin_only (e_stft x W H wt n rr).
Proof.
  unfold e_stft, default_n_fft_bins, stft_frame, np_multiply.
  apply builtin_only_bind; [repeat builtin_step|intros n'].
  apply builtin_only_bind; [apply builtin_only_pad_signal|intros [[p z] t]].
  apply builtin_only_bind; [apply builtin_only_make_window|intros w].
  repeat builtin_step.
Qed.

End EngineFacts.

(* ------------------------------------------------------------------ *)
(** ** make_window *)

Section WindowFacts.
Context {K : NumLib}.

Lemma not_in_all_types (wt : string) :
  ~ In wt all_types ->
  String.eqb wt RECTANGULAR = false /\ String.eqb wt HANN = false /\
  String.eqb wt BLACKMAN = false /\ String.eqb wt HAMMING = false.
Proof.
  intros H; repeat split; apply String.eqb_neq; intros ->; apply H; simpl; auto.
Qed.

(** C6, as the code has it.  For a tag that is none of the four window
    types, [make_window] returns [None]: it does not raise, and it does not
    substitute a window either. *)
Theorem make_window_unknown_type (wt : string) (n : Z) :
  ~ In wt all_types -> make_window wt n = Returns None.
Proof.
  intros H; destruct (not_in_all_types wt H) as (E1 & E2 & E3 & E4).
  unfold make_window; now rewrite E1, E2, E3, E4.
Qed.

Lemma make_window_known `{!NumLibShapes K} (wt : string) (n : Z) :
  In wt all_types -> 0 <= n ->
  exists w, make_window wt n = Returns (Some w) /\ length w = Z.to_nat n.
Proof.
  intros Hin Hn; unfold make_window, np_ones.
  destruct (String.eqb wt RECTANGULAR) eqn:E1.
  { destruct (n <? 0) eqn:En; [lia|]; simpl; eexists; split;
      [reflexivity | apply repeat_length]. }
  destruct (String.eqb wt HANN) eqn:E2.
  { eexists; split; [reflexivity | apply hann_length]. }
  destruct (String.eqb wt BLACKMAN) eqn:E3.
  { eexists; split; [reflexivity | apply blackman_length]. }
  destruct (String.eqb wt HAMMING) eqn:E4.
  { eexists; split; [reflexivity | apply hamming_length]. }
  apply String.eqb_neq in E1, E2, E3, E4.
  simpl in Hin; intuition congruence.
Qed.

End WindowFacts.

Lemma make_window_unknown_type_witness :
  @make_window ExactLib "triangular" 4 = Returns None.
Proof.
  apply (@make_window_unknown_type ExactLib "triangular" 4).
  simpl; intros [H|[H|[H|[H|[]]]]]; discriminate H.
Defined.

(** C6, as the claim has it, fails: the call returns. *)
Lemma make_window_unknown_type_counterexample :
  1 <= 4 /\ ~ In "triangular"%string all_types /\
  @make_window ExactLib "triangular" 4 <> Raises InvalidWindowType.
Proof.
  split; [lia|]; split.
  - simpl; intros [H|[H|[H|[H|[]]]]]; discriminate H.
  - vm_compute; discriminate.
Qed.

(* ------------------------------------------------------------------ *)
(** ** e_istft and its window_type argument *)

(** C10.  Two calls of [e_istft] that differ in [window_type] alone have
    the same outcome. *)
Theorem e_istft_ignores_window_type {K : NumLib} (stft : ndarray2 (complex R))
  (window_length hop_length : Z) (wt1 wt2 : string)
  (reconstruct_reflection remove_padding : bool) :
  e_istft stft window_length hop_length wt1 reconstruct_reflection remove_padding =
  e_istft stft window_length hop_length wt2 reconstruct_reflection remove_padding.
Proof. reflexivity. Qed.

(* ------------------------------------------------------------------ *)
(** ** The two defaults of n_fft_bins *)

Lemma default_n_fft_bins_smallest (W : Z) :
  1 <= W -> smallest_pow2_ge W (2 ^ Z.log2_up W).
Proof.
  intros HW; pose proof (Z.log2_up_nonneg W) as Hk.
  split; [exists (Z.log2_up W); split; [exact Hk | reflexivity]|]; split.
  - destruct (Z.eq_dec W 1) as [->|Hne]; [simpl; lia|].
    apply (Z.log2_up_spec W); lia.
  - intros j Hj Hle; apply Z.pow_le_mono_r; [lia|].
    apply Z.log2_up_le_pow2; lia.
Qed.

Lemma n_fft_bins_defaults_aux (W : Z) :
  1 <= W -> default_n_fft_bins W = Returns (2 ^ Z.log2_up W).
Proof.
  intros HW; unfold default_n_fft_bins.
  destruct (W <? 0) eqn:E1; [lia|]; destruct (W =? 0) eqn:E2; [lia|]; reflexivity.
Qed.

(* ------------------------------------------------------------------ *)
(** ** Padding *)

Lemma tail_pad_spec (L H : Z) :
  1 <= H -> 0 <= tail_pad L H < H /\ (L + tail_pad L H) mod H = 0.
Proof.
  intros HH; unfold tail_pad.
  pose proof (Z.mod_pos_bound L H ltac:(lia)) as Hm.
  destruct (L mod H =? 0) eqn:E.
  - apply Z.eqb_eq in E; rewrite Z.add_0_r; lia.
  - apply Z.eqb_neq in E; split; [lia|].
    rewrite (Z.div_mod L H) at 1 by lia.
    replace (H * (L / H) + L mod H + (H - L mod H)) with ((L / H + 1) * H) by ring.
    apply Z.mod_mul; lia.
Qed.

Lemma half_window (W : Z) :
  (if W mod 2 =? 0 then W / 2 else (W - 1) / 2) = W / 2.
Proof.
  destruct (W mod 2 =? 0) eqn:E; [reflexivity|].
  apply Z.eqb_neq in E.
  pose proof (Z.mod_pos_bound W 2 ltac:(lia)).
  pose proof (Z.div_mod W 2 ltac:(lia)).
  assert (Hm : W mod 2 = 1) by lia.
  replace (W - 1) with (W / 2 * 2 + 0) by lia.
  rewrite Z.div_add_l by lia; change (0 / 2) with 0; lia.
Qed.

Section PaddingFacts.
Context {K : NumLib}.

(** The padding stage on a window of no negative length and a hop of at
    least one sample. *)
Lemma pad_signal_valid (x : list R) (W H : Z) :
  0 <= W -> 1 <= H ->
  pad_signal x W H =
    Returns (repeat R0 (Z.to_nat (W / 2)) ++ x ++ repeat R0 (Z.to_nat (W / 2)) ++
             repeat R0 (Z.to_nat (tail_pad (len x) H)),
             W / 2, tail_pad (len x) H).
Proof.
  intros HW HH.
  destruct (tail_pad_spec (len x) H HH) as [Ht1 _].
  assert (Hz : 0 <= W / 2) by (apply Z.div_pos; lia).
  unfold pad_signal.
  replace (if W mod 2 =? 0 then np_zeros (W / 2) else np_zeros ((W - 1) / 2))
    with (np_zeros (if W mod 2 =? 0 then W / 2 else (W - 1) / 2))
    by (destruct (W mod 2 =? 0); reflexivity).
  rewrite half_window; unfold np_zeros at 1.
  destruct (W / 2 <? 0) eqn:Ez; [lia|]; simpl bind.
  destruct (H =? 0) eqn:EH; [lia|].
  rewrite len_repeat, Z2Nat.id by lia.
  unfold tail_pad in *.
  destruct (len x mod H =? 0) eqn:Em; simpl negb; cbv iota.
  - simpl; rewrite app_nil_r; reflexivity.
  - unfold np_zeros; destruct (H - len x mod H <? 0) eqn:Et; [lia|]; simpl.
    rewrite <- !app_assoc; reflexivity.
Qed.

(** C4, as the code has it.  [e_stft] puts [window_length // 2] zeros before
    the signal, the same number of zeros after it, and then the
    [hop_length - (len(signal) % hop_length)] zeros (none when the length is
    a multiple of [hop_length]) that bring the length of the signal it was
    given, plus these last zeros, to a multiple of [hop_length]. *)
Theorem edge_padding (x : list R) (W H : Z) :
  0 <= W -> 1 <= H ->
  let z := W / 2 in
  let t := tail_pad (len x) H in
  pad_signal x W H =
    Returns (repeat R0 (Z.to_nat z) ++ x ++ repeat R0 (Z.to_nat z) ++ repeat R0 (Z.to_nat t),
             z, t) /\
  0 <= t < H /\ (len x + t) mod H = 0.
Proof.
  intros HW HH z t.
  split; [apply pad_signal_valid; assumption | apply tail_pad_spec; exact HH].
Qed.

End PaddingFacts.

(** Four samples, a window of 4 and a hop of 2. *)
Lemma edge_padding_witness :
  @pad_signal ExactLib (ExactQ.samples [1; 2; 3; 4]) 4 2 =
    Returns (ExactQ.samples [0; 0; 1; 2; 3; 4; 0; 0], 2, 0).
Proof.
  destruct (@edge_padding ExactLib (ExactQ.samples [1; 2; 3; 4]) 4 2 ltac:(lia) ltac:(lia))
    as [E _].
  exact E.
Defined.

(** C4, as the claim has it, fails: the length of the signal is a multiple
    of the hop, so the claim has no zero after the signal, and the code has
    two. *)
Lemma edge_padding_counterexample :
  let x := ExactQ.samples [1; 2; 3; 4] in
  tail_pad (len x) 2 = 0 /\
  @pad_signal ExactLib x 4 2 = Returns (ExactQ.samples [0; 0; 1; 2; 3; 4; 0; 0], 2, 0) /\
  forall z t, @pad_signal ExactLib x 4 2 <>
    Returns (repeat 0%Qc (Z.to_nat (4 / 2)) ++ x ++ repeat 0%Qc (Z.to_nat (tail_pad (len x) 2)),
             z, t).
Proof.
  split; [reflexivity|]; split; [reflexivity|].
  intros z t E.
  apply (f_equal (fun o => match o with
                           | Returns (l, _, _) => length l
                           | Raises _ => 0%nat
                           end)) in E.
  vm_compute in E; discriminate E.
Qed.

(* ------------------------------------------------------------------ *)
(** ** e_stft on valid arguments *)

Section StftFacts.
Context {K : NumLib} `{!NumLibShapes K}.

Lemma len_padded (x : list R) (W H : Z) :
  0 <= W -> 1 <= H ->
  len (padded x W H) = len x + 2 * (W / 2) + tail_pad (len x) H.
Proof.
  intros HW HH; unfold padded.
  pose proof (tail_pad_spec (len x) H HH) as [Ht _].
  assert (0 <= W / 2) by (apply Z.div_pos; lia).
  rewrite !len_app, !len_repeat; lia.
Qed.

Lemma window_fits_padded (x : list R) (W H : Z) :
  1 <= W -> 1 <= H -> -1 <= len (padded x W H) - W.
Proof.
  intros HW HH; rewrite len_padded by lia.
  pose proof (tail_pad_spec (len x) H HH) as [Ht _].
  pose proof (len_nonneg x).
  pose proof (Z.div_mod W 2 ltac:(lia)).
  pose proof (Z.mod_pos_bound W 2 ltac:(lia)).
  lia.
Qed.

Lemma num_blocks_nonneg (x : list R) (W H : Z) :
  1 <= W -> 1 <= H -> 0 <= (len (padded x W H) - W) / H + 1.
Proof.
  intros HW HH; pose proof (window_fits_padded x W H HW HH) as Hf.
  assert (-1 <= (len (padded x W H) - W) / H); [|lia].
  apply Z.div_le_lower_bound; lia.
Qed.

Lemma frame_inside (p : list R) (W H hop : Z) :
  1 <= H -> 0 <= hop < (len p - W) / H + 1 ->
  0 <= hop * H /\ hop * H + W <= len p.
Proof.
  intros HH Hhop; split; [nia|].
  pose proof (Z.mul_div_le (len p - W) H ltac:(lia)); nia.
Qed.

Lemma stft_frame_valid (p w : list R) (W H n bins hop : Z) :
  1 <= W -> 1 <= H -> 1 <= n -> 0 <= bins <= n ->
  length w = Z.to_nat W ->
  0 <= hop < (len p - W) / H + 1 ->
  stft_frame p (Some w) W H n bins hop = Returns (spectrum_frame p w W H n bins hop).
Proof.
  intros HW HH Hn Hb Hw Hhop.
  destruct (frame_inside p W H hop HH Hhop) as [F1 F2].
  unfold stft_frame, np_multiply, broadcast2.
  rewrite py_slice_inside_length by lia.
  replace (hop * H + W - hop * H) with W by lia.
  rewrite Hw, Nat.eqb_refl; simpl bind.
  destruct (n <? 1) eqn:En; [lia|].
  unfold assign_row, spectrum_frame, windowed_frame.
  rewrite py_slice_inside_length; [| lia | unfold len; rewrite fft_length; lia].
  rewrite Z.sub_0_r, Nat.eqb_refl; reflexivity.
Qed.

Lemma stft_bins_range (n : Z) (rr : bool) :
  1 <= n -> 0 <= (if rr then n / 2 + 1 else n) <= n.
Proof.
  intros Hn; destruct rr; [|lia].
  pose proof (Z.div_mod n 2 ltac:(lia)).
  pose proof (Z.mod_pos_bound n 2 ltac:(lia)).
  assert (0 <= n / 2) by (apply Z.div_pos; lia).
  destruct (Z.eq_dec n 1) as [->|]; [simpl; lia | lia].
Qed.

(** The value of [e_stft] on a signal of any length, a window and a hop of
    at least one sample, at least one bin and a window that [make_window]
    builds. *)
Lemma e_stft_valid (x w : list R) (W H n : Z) (wt : string) (rr : bool) :
  1 <= W -> 1 <= H -> 1 <= n ->
  make_window wt W = Returns (Some w) -> length w = Z.to_nat W ->
  e_stft x W H wt (Some n) rr =
    Returns (let a := untrimmed_stft x w W H n rr in
             if rr
             then column_slice (W / 2 / H)
                    (Z.of_nat (shape1 a) - (W / 2 + tail_pad (len x) H) / H) a
             else a).
Proof.
  intros HW HH Hn Hmw Hw.
  unfold e_stft; simpl bind.
  rewrite (pad_signal_valid x W H ltac:(lia) HH).
  simpl bind; rewrite Hmw; simpl bind.
  fold (padded x W H).
  pose proof (num_blocks_nonneg x W H HW HH) as Hnb.
  pose proof (stft_bins_range n rr Hn) as Hb.
  destruct ((len (padded x W H) - W) / H + 1 <? 0) eqn:E1; [lia|].
  destruct ((if rr then n / 2 + 1 else n) <? 0) eqn:E2; [lia|]; simpl orb; cbv iota.
  rewrite (for_each_returns _
             (spectrum_frame (padded x W H) w W H n (if rr then n / 2 + 1 else n))).
  - simpl bind; unfold untrimmed_stft; destruct rr; reflexivity.
  - intros hop Hhop; apply in_range in Hhop.
    apply stft_frame_valid; assumption.
Qed.

Lemma untrimmed_stft_shape (x w : list R) (W H n : Z) (rr : bool) :
  1 <= W -> 1 <= H -> 1 <= n ->
  let a := untrimmed_stft x w W H n rr in
  well_shaped a /\
  Z.of_nat (shape0 a) = (if rr then n / 2 + 1 else n) /\
  Z.of_nat (shape1 a) = (len (padded x W H) - W) / H + 1.
Proof.
  intros HW HH Hn a.
  pose proof (num_blocks_nonneg x W H HW HH) as Hnb.
  pose proof (stft_bins_range n rr Hn) as Hb.
  split; [|split; unfold a, untrimmed_stft; simpl; lia].
  apply transpose_well_shaped; split; simpl.
  - now rewrite length_map, range_length.
  - apply Forall_forall; intros r Hr; apply in_map_iff in Hr.
    destruct Hr as (hop & <- & _); unfold spectrum_frame.
    rewrite py_slice_inside_length; [f_equal; lia | lia |].
    unfold len; rewrite fft_length; lia.
Qed.

End StftFacts.

(* ------------------------------------------------------------------ *)
(** ** The exact library has the lengths of numpy and scipy *)

Lemma ExactQ_dft_length (sign n : Z) (xs : list ExactQ.C) :
  length (ExactQ.dft sign n xs) = Z.to_nat n.
Proof. unfold ExactQ.dft; now rewrite length_map, range_length. Qed.

Lemma ExactQ_cosine_window_length (a0 a1 a2 : Qc) (n : Z) :
  length (ExactQ.cosine_window a0 a1 a2 n) = Z.to_nat n.
Proof.
  unfold ExactQ.cosine_window.
  destruct (n <? 1) eqn:E1; [simpl; lia|].
  destruct (n =? 1) eqn:E2; [apply Z.eqb_eq in E2; subst; reflexivity|].
  now rewrite length_map, range_length.
Qed.

#[export] Instance ExactLib_shapes : NumLibShapes ExactLib.
Proof.
  constructor; simpl.
  - intros n v _; unfold ExactQ.fft; apply ExactQ_dft_length.
  - intros v; unfold ExactQ.ifft; rewrite length_map, ExactQ_dft_length.
    unfold len; apply Nat2Z.id.
  - intros n; apply ExactQ_cosine_window_length.
  - intros n; apply ExactQ_cosine_window_length.
  - intros n; apply ExactQ_cosine_window_length.
  - intros n; unfold ExactQ.linspace01.
    destruct (n =? 1) eqn:E; [apply Z.eqb_eq in E; subst; reflexivity|].
    now rewrite length_map, range_length.
Qed.

(* ------------------------------------------------------------------ *)
(** ** The shape of the spectrogram *)

Lemma trimmed_frame_count (nb z t H : Z) :
  0 <= nb -> 0 <= z -> 0 <= t < H ->
  Z.of_nat (Z.to_nat (clamp_index nb (nb - (z + t) / H) - clamp_index nb (z / H))) =
  Z.max 0 (nb - z / H - (z + t) / H).
Proof.
  intros Hnb Hz Ht.
  assert (Ha : 0 <= z / H) by (apply Z.div_pos; lia).
  assert (Hab : z / H <= (z + t) / H) by (apply Z.div_le_mono; lia).
  assert (Hb : (z + t) / H <= z / H + 1).
  { replace (z / H + 1) with ((z + 1 * H) / H) by (rewrite Z.div_add; lia).
    apply Z.div_le_mono; lia. }
  unfold clamp_index.
  destruct (nb - (z + t) / H <? 0) eqn:E1; destruct (z / H <? 0) eqn:E2; lia.
Qed.

Lemma resolved_n_fft_bins_positive (W : Z) (n : option Z) :
  match n with Some k => 1 <= k | None => True end ->
  1 <= resolved_n_fft_bins W n.
Proof.
  destruct n as [k|]; simpl; [auto|intros _].
  pose proof (Z.pow_pos_nonneg 2 (Z.log2_up W) ltac:(lia) (Z.log2_up_nonneg W)); lia.
Qed.

Lemma e_stft_resolved {K : NumLib} (x : list R) (W H : Z) (wt : string)
  (n : option Z) (rr : bool) :
  1 <= W ->
  e_stft x W H wt n rr = e_stft x W H wt (Some (resolved_n_fft_bins W n)) rr.
Proof.
  intros HW; destruct n as [k|]; [reflexivity|].
  pose proof (n_fft_bins_defaults_aux W HW) as E.
  unfold e_stft; rewrite E; reflexivity.
Qed.

Section ShapeLaw.
Context {K : NumLib} `{!NumLibShapes K}.

(** C2, as the code has it.  On a valid call with [remove_reflection] set,
    the spectrogram has [n_fft_bins // 2 + 1] bins.  Its number of frames,
    from the length [L] of the signal, the head pad [z = window_length // 2]
    and the tail pad [t], is
    [(L + 2 z + t - window_length) // hop_length + 1 - z // hop_length
      - (z + t) // hop_length], or zero when that is negative.  This is
    [(L - window_length) // hop_length + 1] when the window is two hops long
    and the signal is a whole number of hops. *)
Theorem stft_shape (x : list R) (W H : Z) (wt : string) (n : option Z) :
  1 <= W -> 1 <= H -> In wt all_types ->
  match n with Some k => 1 <= k | None => True end ->
  (exists a, e_stft x W H wt n true = Returns a /\
             well_shaped a /\
             Z.of_nat (shape0 a) = resolved_n_fft_bins W n / 2 + 1 /\
             Z.of_nat (shape1 a) = kept_frames (len x) W H) /\
  (W = 2 * H -> len x mod H = 0 -> 1 <= len x ->
   kept_frames (len x) W H = (len x - W) / H + 1).
Proof.
  intros HW HH Hwt Hn; split.
  - destruct (make_window_known wt W Hwt ltac:(lia)) as (w & Hmw & Hw).
    pose proof (resolved_n_fft_bins_positive W n Hn) as Hr.
    rewrite e_stft_resolved by exact HW.
    rewrite (e_stft_valid x w W H _ wt true HW HH Hr Hmw Hw).
    destruct (untrimmed_stft_shape x w W H (resolved_n_fft_bins W n) true HW HH Hr)
      as (Hws & Hs0 & Hs1).
    eexists; split; [reflexivity|]; cbv zeta.
    split; [now apply column_slice_well_shaped|].
    split; [simpl; exact Hs0|].
    destruct (tail_pad_spec (len x) H HH) as [Ht _].
    unfold column_slice; simpl shape1.
    rewrite trimmed_frame_count;
      [| lia | apply Z.div_pos; lia | exact Ht].
    pose proof (num_blocks_nonneg x W H HW HH) as Hnb.
    unfold kept_frames; rewrite Z2Nat.id by exact Hnb.
    rewrite len_padded by lia; reflexivity.
  - intros -> Hm Hx; unfold kept_frames, tail_pad; rewrite Hm.
    change (0 =? 0) with true; cbv iota zeta.
    replace (2 * H / 2) with H by (rewrite Z.mul_comm, Z.div_mul; lia).
    apply Z.mod_divide in Hm; [|lia]; destruct Hm as [q Hq]; rewrite Hq.
    assert (1 <= q) by nia.
    replace (q * H + 2 * H + 0 - 2 * H) with (q * H) by lia.
    replace (q * H - 2 * H) with ((q - 2) * H) by lia.
    rewrite !Z.div_mul, Z.add_0_r, Z.div_same by lia; lia.
Qed.

(** C7, as the code has it.  [e_stft] does not check its arguments and no
    call raises [InvalidParameter]: a hop of zero is a [ZeroDivisionError]
    of the modulo, a negative window length a [ValueError] of numpy, and an
    empty signal with a valid window and hop is transformed like any
    other. *)
Theorem e_stft_no_validation (x : list R) (W H : Z) (wt : string) (n : option Z) (rr : bool) :
  never_raises InvalidParameter (e_stft x W H wt n rr) /\
  (H = 0 -> 0 <= W -> e_stft x W H wt n rr = Raises ZeroDivisionError) /\
  (W < 0 -> e_stft x W H wt n rr = Raises ValueError) /\
  (x = [] -> 1 <= W -> 1 <= H -> In wt all_types ->
   match n with Some k => 1 <= k | None => True end ->
   exists a, e_stft x W H wt n rr = Returns a).
Proof.
  split; [|split; [|split]].
  - intros E; apply builtin_only_e_stft in E; destruct E as [E _]; now apply E.
  - intros -> HW.
    assert (Hz : 0 <= W / 2) by (apply Z.div_pos; lia).
    assert (P : pad_signal x W 0 = Raises ZeroDivisionError).
    { unfold pad_signal.
      replace (if W mod 2 =? 0 then np_zeros (W / 2) else np_zeros ((W - 1) / 2))
        with (np_zeros (if W mod 2 =? 0 then W / 2 else (W - 1) / 2))
        by (destruct (W mod 2 =? 0); reflexivity).
      rewrite half_window; unfold np_zeros.
      destruct (W / 2 <? 0) eqn:E; [lia|]; reflexivity. }
    unfold e_stft, default_n_fft_bins.
    destruct n as [k|]; simpl bind; [now rewrite P|].
    destruct (W <? 0) eqn:E1; [lia|].
    destruct (W =? 0); simpl bind; now rewrite P.
  - intros HW.
    assert (P : pad_signal x W H = Raises ValueError).
    { unfold pad_signal.
      replace (if W mod 2 =? 0 then np_zeros (W / 2) else np_zeros ((W - 1) / 2))
        with (np_zeros (if W mod 2 =? 0 then W / 2 else (W - 1) / 2))
        by (destruct (W mod 2 =? 0); reflexivity).
      rewrite half_window; unfold np_zeros.
      assert (W / 2 < 0) by (apply Z.div_lt_upper_bound; lia).
      destruct (W / 2 <? 0) eqn:E; [reflexivity|lia]. }
    unfold e_stft, default_n_fft_bins.
    destruct n as [k|]; simpl bind; [now rewrite P|].
    destruct (W <? 0) eqn:E1; [reflexivity|lia].
  - intros _ HW HH Hwt Hn.
    destruct (make_window_known wt W Hwt ltac:(lia)) as (w & Hmw & Hw).
    pose proof (resolved_n_fft_bins_positive W n Hn) as Hr.
    rewrite e_stft_resolved by exact HW.
    rewrite (e_stft_valid x w W H _ wt rr HW HH Hr Hmw Hw).
    eexists; reflexivity.
Qed.

Lemma e_stft_returns (x : list R) (W H : Z) (wt : string) (n : Z) (rr : bool) :
  1 <= W -> 1 <= H -> 1 <= n -> In wt all_types ->
  exists a w, e_stft x W H wt (Some n) rr = Returns a /\ well_shaped a /\
              make_window wt W = Returns (Some w) /\
              Z.of_nat (shape0 a) = (if rr then n / 2 + 1 else n).
Proof.
  intros HW HH Hn Hwt.
  destruct (make_window_known wt W Hwt ltac:(lia)) as (w & Hmw & Hw).
  rewrite (e_stft_valid x w W H n wt rr HW HH Hn Hmw Hw).
  destruct (untrimmed_stft_shape x w W H n rr HW HH Hn) as (Hws & Hs0 & _).
  eexists; exists w; split; [reflexivity|]; cbv zeta.
  destruct rr; (split; [|split; [exact Hmw|]]);
    try (apply column_slice_well_shaped); try exact Hws; exact Hs0.
Qed.

(** C8.  With [n_fft_bins] left out, [e_stft] transforms with the smallest
    power of two [n] that is at least [window_length], and [e_stft_plus]
    runs [e_stft] with [window_length] itself.  The value is the one the
    transform uses: on a valid call the spectrogram of [e_stft] has
    [n // 2 + 1] bins (all [n] of them with the reflection kept) and the
    one of [e_stft_plus] has [window_length // 2 + 1].  The two defaults
    agree when [window_length] is a power of two and differ otherwise,
    [e_stft] then giving more bins than [e_stft_plus]. *)
Theorem n_fft_bins_defaults (x : list R) (W H : Z) (wt : string) (sr : Z) (rr : bool) :
  1 <= W ->
  exists n,
    smallest_pow2_ge W n /\
    default_n_fft_bins W = Returns n /\
    e_stft x W H wt None rr = e_stft x W H wt (Some n) rr /\
    e_stft_plus x W H wt sr None = e_stft_plus x W H wt sr (Some W) /\
    (forall r, e_stft_plus x W H wt sr None = Returns r ->
               e_stft x W H wt (Some W) true = Returns (fst (fst (fst r)))) /\
    (1 <= H -> In wt all_types ->
     (exists a, e_stft x W H wt None rr = Returns a /\
                Z.of_nat (shape0 a) = if rr then n / 2 + 1 else n) /\
     (sr <> 0 ->
      exists stft psd frequency_vector time_vector,
        e_stft_plus x W H wt sr None = Returns (stft, psd, frequency_vector, time_vector) /\
        e_stft x W H wt (Some W) true = Returns stft /\
        Z.of_nat (shape0 stft) = W / 2 + 1)) /\
    ((exists k, 0 <= k /\ W = 2 ^ k) -> n = W) /\
    ((forall k, 0 <= k -> W <> 2 ^ k) -> W < n /\ W / 2 + 1 < n / 2 + 1).
Proof.
  intros HW; exists (2 ^ Z.log2_up W).
  pose proof (n_fft_bins_defaults_aux W HW) as E.
  pose proof (default_n_fft_bins_smallest W HW) as Hn.
  assert (Hn1 : 1 <= 2 ^ Z.log2_up W) by (destruct Hn as (_ & Hge & _); lia).
  assert (Hsame : e_stft x W H wt None rr = e_stft x W H wt (Some (2 ^ Z.log2_up W)) rr)
    by (unfold e_stft; rewrite E; reflexivity).
  split; [exact Hn|]; split; [exact E|]; split; [exact Hsame|].
  split; [reflexivity|]; split; [|split; [|split]].
  - intros r; unfold e_stft_plus.
    destruct (e_stft x W H wt (Some W) true) as [a|e]; simpl; [|discriminate].
    destruct (W / 2 + 1 <? 0); [discriminate|].
    destruct (sr =? 0); [discriminate|].
    destruct (make_window wt W) as [[w|]|e]; simpl; try discriminate.
    destruct (np_dot w w); simpl; [|discriminate].
    intros E'; injection E' as <-; reflexivity.
  - intros HH Hwt; split.
    + rewrite Hsame.
      destruct (e_stft_returns x W H wt (2 ^ Z.log2_up W) rr HW HH Hn1 Hwt)
        as (a & w & Ea & _ & _ & Hs0).
      exists a; split; [exact Ea | exact Hs0].
    + intros Hsr.
      destruct (e_stft_returns x W H wt W true HW HH HW Hwt) as (a & w & Ea & _ & Hmw & Hs0).
      assert (Hbins : 0 <= W / 2 + 1) by (assert (0 <= W / 2) by (apply Z.div_pos; lia); lia).
      unfold e_stft_plus; rewrite Ea; simpl bind.
      destruct (W / 2 + 1 <? 0) eqn:E1; [lia|].
      destruct (sr =? 0) eqn:E2; [lia|].
      rewrite Hmw; simpl bind.
      unfold np_dot; rewrite Nat.eqb_refl; simpl bind.
      do 4 eexists; split; [reflexivity|]; split; [reflexivity | exact Hs0].
  - intros (k & Hk & Ek); destruct Hn as (_ & Hge & Hmin).
    specialize (Hmin k Hk ltac:(lia)); lia.
  - intros Hnp; destruct Hn as (_ & Hge & _).
    pose proof (Z.log2_up_nonneg W) as Hl.
    assert (Hlt : W < 2 ^ Z.log2_up W).
    { specialize (Hnp (Z.log2_up W) Hl); lia. }
    split; [exact Hlt|].
    assert (Hl1 : 1 <= Z.log2_up W).
    { destruct (Z.eq_dec (Z.log2_up W) 0) as [E0|]; [|lia].
      rewrite E0 in Hlt; simpl in Hlt; lia. }
    replace (Z.log2_up W) with (1 + (Z.log2_up W - 1)) by lia.
    rewrite Z.pow_add_r by lia.
    change (2 ^ 1) with 2.
    assert (Hp : 0 < 2 ^ (Z.log2_up W - 1)) by (apply Z.pow_pos_nonneg; lia).
    rewrite (Z.mul_comm 2), Z.div_mul by lia.
    assert (W / 2 < 2 ^ (Z.log2_up W - 1)); [|lia].
    apply Z.div_lt_upper_bound; [lia|].
    replace (Z.log2_up W) with (1 + (Z.log2_up W - 1)) in Hlt by lia.
    rewrite Z.pow_add_r in Hlt by lia; change (2 ^ 1) with 2 in Hlt; lia.
Qed.

End ShapeLaw.

(** A window of 6 samples over ten samples of signal: [e_stft] transforms
    with 8 bins and returns 5 of them, [e_stft_plus] transforms with 6 and
    returns 4. *)
Lemma n_fft_bins_defaults_witness :
  1 <= 6 /\
  @default_n_fft_bins 6 = Returns 8 /\
  shape_of (@e_stft ExactLib (ExactQ.samples [1; 2; 3; 4; 5; 6; 7; 8; 9; 10]) 6 3 HANN None true) =
    Some (5%nat, 3%nat) /\
  shape_of (@e_stft ExactLib (ExactQ.samples [1; 2; 3; 4; 5; 6; 7; 8; 9; 10]) 6 3 HANN None false) =
    Some (8%nat, 5%nat) /\
  (exists stft psd frequency_vector time_vector,
     @e_stft_plus ExactLib (ExactQ.samples [1; 2; 3; 4; 5; 6; 7; 8; 9; 10]) 6 3 HANN 8 None =
       Returns (stft, psd, frequency_vector, time_vector) /\
     Z.of_nat (shape0 stft) = 4).
Proof.
  destruct (@n_fft_bins_defaults ExactLib _ (ExactQ.samples [1; 2; 3; 4; 5; 6; 7; 8; 9; 10])
              6 3 HANN 8 true ltac:(lia))
    as (n & _ & E & _ & _ & _ & Hrun & _ & _).
  destruct (Hrun ltac:(lia) ltac:(simpl; auto)) as (_ & Hplus).
  destruct (Hplus ltac:(lia)) as (stft & psd & f & t & Ep & _ & Hs).
  split; [lia|]; split; [reflexivity|].
  split; [vm_compute; reflexivity|]; split; [vm_compute; reflexivity|].
  exists stft, psd, f, t; split; [exact Ep | exact Hs].
Defined.


(** Five samples, a window of 4 and a hop of 2: two frames of three bins. *)
Lemma stft_shape_witness :
  shape_of (@e_stft ExactLib (ExactQ.samples [1; 2; 3; 4; 5]) 4 2 HANN (Some 4) true) =
    Some (3%nat, 2%nat) /\
  kept_frames 5 4 2 = 2 /\
  kept_frames 8 4 2 = (8 - 4) / 2 + 1.
Proof.
  destruct (@stft_shape ExactLib _ (ExactQ.samples [1; 2; 3; 4; 5]) 4 2 HANN (Some 4)
              ltac:(lia) ltac:(lia) ltac:(simpl; auto) ltac:(simpl; lia))
    as ((a & E & _ & H0 & H1) & _).
  destruct (@stft_shape ExactLib _ (ExactQ.samples [1; 2; 3; 4; 5; 6; 7; 8]) 4 2 HANN (Some 4)
              ltac:(lia) ltac:(lia) ltac:(simpl; auto) ltac:(simpl; lia))
    as (_ & F).
  split; [|split].
  - assert (S0 : shape0 a = 3%nat) by (apply Nat2Z.inj; rewrite H0; reflexivity).
    assert (S1 : shape1 a = 2%nat) by (apply Nat2Z.inj; rewrite H1; reflexivity).
    rewrite E; exact (f_equal2 (fun r c => Some (r, c)) S0 S1).
  - reflexivity.
  - refine (F eq_refl eq_refl _); vm_compute; discriminate.
Defined.

(** C2, as the claim has it, fails: five samples, a window of 4 and a hop
    of 2 give two frames, and [(5 - 4) // 2 + 1] is one. *)
Lemma stft_shape_counterexample :
  let x := ExactQ.samples [1; 2; 3; 4; 5] in
  shape_of (@e_stft ExactLib x 4 2 HANN (Some 4) true) = Some (3%nat, 2%nat) /\
  (len x - 4) / 2 + 1 = 1.
Proof. split; vm_compute; reflexivity. Qed.

(** The example of the docstring of [e_stft] (lines 104-121): three seconds
    at 44.1 kHz, a window of 2048 and a hop of 1024.  The code keeps the 129
    frames that the docstring announces, [duration / hop_length]; the
    formula of the claim gives 128. *)
Lemma docstring_example_frames :
  kept_frames (3 * 44100) 2048 1024 = 129 /\
  3 * 44100 / 1024 = 129 /\
  (3 * 44100 - 2048) / 1024 + 1 = 128.
Proof. repeat split. Qed.

Lemma e_stft_no_validation_witness :
  exists a, @e_stft ExactLib [] 4 2 HANN (Some 4) true = Returns a.
Proof.
  destruct (@e_stft_no_validation ExactLib _ [] 4 2 HANN (Some 4) true) as (_ & _ & _ & E).
  apply E; [reflexivity | lia | lia | simpl; auto | simpl; lia].
Defined.

(** C7, as the claim has it, fails: the empty signal is accepted, and the
    result is a spectrogram of three bins and no frame. *)
Lemma e_stft_no_validation_counterexample :
  @e_stft ExactLib [] 4 2 HANN (Some 4) true = Returns (mk2d 3 0 [[]; []; []]) /\
  @e_stft ExactLib [] 4 2 HANN (Some 4) true <> Raises InvalidParameter.
Proof. split; [vm_compute; reflexivity | vm_compute; discriminate]. Qed.

(* ------------------------------------------------------------------ *)
(** ** The reflection above Nyquist *)

Lemma py_slice_rev_reflection {A : Type} (l : list A) :
  py_slice_rev (-2) 0 l = rev (firstn (length l - 2) (skipn 1 l)).
Proof.
  assert (Ea : clamp_index_rev (len l) (-2) = Z.max (len l - 2) (-1))
    by (unfold clamp_index_rev; destruct (-2 <? 0) eqn:E; lia).
  assert (Eb : clamp_index_rev (len l) 0 = Z.min 0 (len l - 1))
    by (unfold clamp_index_rev; destruct (0 <? 0) eqn:E; lia).
  unfold py_slice_rev; rewrite Ea, Eb; clear Ea Eb.
  destruct l as [|a l]; [reflexivity|].
  assert (Hl : len (a :: l) = Z.of_nat (length l) + 1) by (unfold len; simpl length; lia).
  rewrite Hl.
  replace (Z.min 0 (Z.of_nat (length l) + 1 - 1)) with 0 by lia.
  replace (Z.to_nat (Z.max (Z.of_nat (length l) + 1 - 2) (-1) - 0))
    with (length (a :: l) - 2)%nat by (simpl length; lia).
  reflexivity.
Qed.

Lemma reflection_length {A : Type} (l : list A) :
  length (py_slice_rev (-2) 0 l) = (length l - 2)%nat.
Proof.
  rewrite py_slice_rev_reflection, length_rev, length_firstn, length_skipn; lia.
Qed.

Lemma rev_clamp_reflection (n : nat) :
  Z.to_nat (clamp_index_rev (Z.of_nat n) (-2) - clamp_index_rev (Z.of_nat n) 0) = (n - 2)%nat.
Proof.
  unfold clamp_index_rev.
  destruct (-2 <? 0) eqn:E1; [|lia]; destruct (0 <? 0) eqn:E2; lia.
Qed.

(** Bin [k] of the first half and its mirror image in the rebuilt list. *)
Lemma mirrored_nth_error {A : Type} (f : A -> A) (l : list A) (k : nat) :
  (1 <= k)%nat -> (k + 2 <= length l)%nat ->
  nth_error (l ++ map f (py_slice_rev (-2) 0 l)) (2 * (length l - 1) - k) =
  option_map f (nth_error l k).
Proof.
  intros Hk1 Hk2.
  rewrite py_slice_rev_reflection, nth_error_app.
  destruct (Nat.ltb_spec (2 * (length l - 1) - k) (length l)) as [Hlt|_]; [lia|].
  rewrite nth_error_map, nth_error_rev, length_firstn, length_skipn.
  replace (Nat.min (length l - 2) (length l - 1)) with (length l - 2)%nat by lia.
  destruct (Nat.ltb_spec (2 * (length l - 1) - k - length l) (length l - 2)) as [_|Hge]; [|lia].
  rewrite nth_error_firstn.
  destruct (Nat.ltb_spec (length l - 2 - S (2 * (length l - 1) - k - length l)) (length l - 2))
    as [_|Hge]; [|lia].
  rewrite nth_error_skipn; do 2 f_equal; lia.
Qed.

Section Reflection.
Context {K : NumLib}.

Lemma rebuild_reflection_returns (stft : ndarray2 (complex R)) :
  rebuild_reflection stft =
    Returns (mk2d (shape0 stft + Z.to_nat (clamp_index_rev (Z.of_nat (shape0 stft)) (-2)
                                           - clamp_index_rev (Z.of_nat (shape0 stft)) 0))
                  (shape1 stft)
                  (rows stft ++ map (map conj) (py_slice_rev (-2) 0 (rows stft)))).
Proof.
  unfold rebuild_reflection, vstack; simpl; now rewrite Nat.eqb_refl.
Qed.

Lemma rebuild_reflection_well_shaped (stft full : ndarray2 (complex R)) :
  well_shaped stft -> rebuild_reflection stft = Returns full ->
  well_shaped full /\ shape1 full = shape1 stft /\
  shape0 full = (shape0 stft + (shape0 stft - 2))%nat /\
  rows full = rows stft ++ map (map conj) (py_slice_rev (-2) 0 (rows stft)).
Proof.
  intros [Hr Hc] E; rewrite rebuild_reflection_returns in E; injection E as <-.
  rewrite rev_clamp_reflection; simpl.
  split; [|auto]; split; simpl.
  - rewrite length_app, length_map, reflection_length; lia.
  - apply Forall_app; split; [exact Hc|].
    apply Forall_forall; intros r Hin; apply in_map_iff in Hin.
    destruct Hin as (r0 & <- & Hin); rewrite length_map.
    rewrite py_slice_rev_reflection in Hin; apply in_rev in Hin.
    apply in_firstn, in_skipn in Hin.
    rewrite Forall_forall in Hc; now apply Hc.
Qed.

Lemma conj_involutive (z : complex R) :
  (forall r : R, Ropp (Ropp r) = r) -> conj (conj z) = z.
Proof. intros Hopp; destruct z as [a b]; unfold conj; simpl; now rewrite Hopp. Qed.

Lemma entry_in_range {A : Type} (a : ndarray2 A) (i j : nat) :
  well_shaped a -> (i < shape0 a)%nat -> (j < shape1 a)%nat ->
  exists r z, nth_error (rows a) i = Some r /\ nth_error r j = Some z /\ entry a i j = Some z.
Proof.
  intros [Hr Hc] Hi Hj; unfold entry.
  destruct (nth_error (rows a) i) as [r|] eqn:E;
    [|apply nth_error_None in E; lia].
  assert (Hl : length r = shape1 a).
  { rewrite Forall_forall in Hc; apply Hc; eapply nth_error_In; eassumption. }
  destruct (nth_error r j) as [z|] eqn:E';
    [|apply nth_error_None in E'; lia].
  exists r, z; auto.
Qed.

(** C3, as the code has it.  For an even [n_fft_bins] and a spectrogram of
    [n_fft_bins // 2 + 1] bins, the rebuilt spectrum has [n_fft_bins] bins and
    bin [n_fft_bins - k] is the conjugate of bin [k] for every [k] from 1 to
    [n_fft_bins - 1], the Nyquist index [n_fft_bins // 2] apart: the Nyquist
    bin is the one supplied. *)
Theorem conjugate_symmetry (stft : ndarray2 (complex R)) (n : Z) :
  (forall r : R, Ropp (Ropp r) = r) ->
  well_shaped stft -> 2 <= n -> n mod 2 = 0 ->
  Z.of_nat (shape0 stft) = n / 2 + 1 ->
  exists full,
    rebuild_reflection stft = Returns full /\
    well_shaped full /\ Z.of_nat (shape0 full) = n /\ shape1 full = shape1 stft /\
    forall (j : nat), (j < shape1 stft)%nat ->
      (forall k, 1 <= k <= n - 1 -> k <> n / 2 ->
         exists z, entry full (Z.to_nat k) j = Some z /\
                   entry full (Z.to_nat (n - k)) j = Some (conj z)) /\
      entry full (Z.to_nat (n / 2)) j = entry stft (Z.to_nat (n / 2)) j.
Proof.
  intros Hopp Hws Hn Heven Hbins.
  pose proof (Z.div_mod n 2 ltac:(lia)) as Hdm; rewrite Heven in Hdm.
  destruct (rebuild_reflection stft) as [full|e] eqn:E;
    [|rewrite rebuild_reflection_returns in E; discriminate].
  destruct (rebuild_reflection_well_shaped stft full Hws E) as (Hwf & Hs1 & Hs0 & Hrows).
  exists full; split; [reflexivity|]; split; [exact Hwf|].
  split; [lia|]; split; [exact Hs1|].
  pose proof Hws as [Hlen Hcols].
  assert (Hmirror : forall k : nat, (1 <= k)%nat -> (k + 2 <= shape0 stft)%nat ->
            nth_error (rows full) (Z.to_nat n - k) =
            option_map (map conj) (nth_error (rows stft) k)).
  { intros k Hk1 Hk2; rewrite Hrows.
    replace (Z.to_nat n - k)%nat with (2 * (length (rows stft) - 1) - k)%nat by lia.
    apply mirrored_nth_error; lia. }
  assert (Hlow : forall k : nat, (k < shape0 stft)%nat ->
            nth_error (rows full) k = nth_error (rows stft) k).
  { intros k Hk; rewrite Hrows; apply nth_error_app1; lia. }
  intros j Hj; split.
  - intros k Hk Hny.
    destruct (Z_lt_le_dec k (n / 2)) as [Hlo|Hhi].
    + (* k below Nyquist: its mirror is the conjugated copy *)
      destruct (entry_in_range stft (Z.to_nat k) j Hws ltac:(lia) Hj)
        as (r & z & Er & Ez & _).
      exists z; unfold entry.
      rewrite Hlow by lia; rewrite Er; split; [exact Ez|].
      replace (Z.to_nat (n - k)) with (Z.to_nat n - Z.to_nat k)%nat by lia.
      rewrite Hmirror by lia; rewrite Er; simpl.
      rewrite nth_error_map, Ez; reflexivity.
    + (* k above Nyquist: it is the conjugated copy of its mirror *)
      destruct (entry_in_range stft (Z.to_nat (n - k)) j Hws ltac:(lia) Hj)
        as (r & z & Er & Ez & _).
      exists (conj z); unfold entry.
      replace (Z.to_nat k) with (Z.to_nat n - Z.to_nat (n - k))%nat by lia.
      rewrite Hmirror by lia; rewrite Er; simpl.
      rewrite nth_error_map, Ez; split; [reflexivity|].
      rewrite Hlow by lia; rewrite Er, Ez.
      now rewrite conj_involutive.
  - unfold entry; rewrite Hlow by lia; reflexivity.
Qed.

End Reflection.

(** A frame of three bins: the rebuilt spectrum has the four bins
    [1, 2 + i, i, 2 - i]. *)
Lemma conjugate_symmetry_witness :
  @rebuild_reflection ExactLib ExactQ.three_bins =
    Returns (mk2d 4 1 [[ExactQ.gauss 1 0]; [ExactQ.gauss 2 1]; [ExactQ.gauss 0 1];
                       [ExactQ.gauss 2 (-1)]]) /\
  exists full, @rebuild_reflection ExactLib ExactQ.three_bins = Returns full /\
               Z.of_nat (shape0 full) = 4 /\
               exists z, entry full 1 0 = Some z /\ entry full 3 0 = Some (@conj ExactLib z).
Proof.
  split; [vm_compute; reflexivity|].
  destruct (@conjugate_symmetry ExactLib ExactQ.three_bins 4 Qcopp_involutive)
    as (full & E & _ & S0 & _ & Hsym).
  - split; [reflexivity | repeat constructor].
  - lia.
  - reflexivity.
  - reflexivity.
  - exists full; split; [exact E|]; split; [exact S0|].
    destruct (Hsym 0%nat ltac:(simpl; lia)) as [Hk _].
    apply (Hk 1); [lia | vm_compute; discriminate].
Defined.

(** C3, as the claim has it, fails at the Nyquist index, where the rebuilt
    spectrum holds the bin supplied and not its conjugate, and for an odd
    [n_fft_bins], where the rebuilt spectrum is one bin short. *)
Lemma conjugate_symmetry_counterexample :
  (exists full, @rebuild_reflection ExactLib ExactQ.three_bins = Returns full /\
                entry full 2 0 = Some (ExactQ.gauss 0 1) /\
                entry full (4 - 2) 0 <> Some (@conj ExactLib (ExactQ.gauss 0 1))) /\
  (exists full, @rebuild_reflection ExactLib ExactQ.two_bins = Returns full /\
                shape0 full = 2%nat /\
                entry full (3 - 1) 0 = None).
Proof.
  split; eexists; (split; [vm_compute; reflexivity|]).
  - split; [reflexivity|].
    intros E; vm_compute in E; discriminate E.
  - split; reflexivity.
Qed.

(* ------------------------------------------------------------------ *)
(** ** Overlap-add *)

Lemma py_slice_assign_inside {A : Type} (a b : Z) (l v : list A) :
  0 <= a <= b -> b <= len l -> length v = Z.to_nat (b - a) ->
  py_slice_assign a b l v =
    Returns (firstn (Z.to_nat a) l ++ v ++ skipn (Z.to_nat a + length v) l).
Proof.
  intros Ha Hb Hv; unfold py_slice_assign.
  rewrite !clamp_index_id by lia.
  rewrite <- Hv, Nat.eqb_refl; reflexivity.
Qed.

Lemma broadcast2_same_length {A B C : Type} (f : A -> B -> C) (xs : list A) (ys : list B) :
  length xs = length ys ->
  broadcast2 f xs ys = Returns (map (fun p => f (fst p) (snd p)) (combine xs ys)).
Proof. intros E; unfold broadcast2; now rewrite E, Nat.eqb_refl. Qed.

Section OverlapAdd.
Context {K : NumLib} `{!NumLibShapes K}.

Lemma add_frame_length (buf : list R) (offset : nat) (frame : list R) :
  (offset + length frame <= length buf)%nat ->
  length (add_frame buf offset frame) = length buf.
Proof.
  intros H; unfold add_frame.
  rewrite !length_app, length_map, length_combine, !length_firstn, !length_skipn; lia.
Qed.

Lemma time_frame_length (stft : ndarray2 (complex R)) (n : Z) :
  well_shaped stft -> 0 <= n < Z.of_nat (shape1 stft) ->
  length (time_frame stft n) = shape0 stft.
Proof.
  intros Hws Hn; unfold time_frame.
  rewrite length_map, ifft_length; apply column_length; [exact Hws | lia].
Qed.

(** One iteration on a frame that fits the buffer. *)
Lemma overlap_add_step_inside (stft : ndarray2 (complex R)) (W H : Z) (buf : list R) (n : Z) :
  well_shaped stft -> 1 <= W -> Z.of_nat (shape0 stft) = W ->
  0 <= n < Z.of_nat (shape1 stft) ->
  0 <= n * H -> n * H + W <= len buf ->
  overlap_add_step stft W H buf n =
    Returns (add_frame buf (Z.to_nat (n * H)) (time_frame stft n)).
Proof.
  intros Hws HW Hbins Hn Hlo Hhi.
  pose proof (time_frame_length stft n Hws Hn) as Hf.
  unfold overlap_add_step.
  rewrite (column_length _ _ Hws) by lia.
  destruct (Nat.eqb_spec (shape0 stft) 0) as [E|_]; [lia|].
  fold (time_frame stft n).
  rewrite broadcast2_same_length
    by (rewrite py_slice_inside_length by lia; rewrite Hf; lia).
  simpl bind.
  rewrite py_slice_assign_inside;
    [| lia | lia
     | rewrite length_map, length_combine, py_slice_inside_length, Hf by lia; lia].
  unfold add_frame; rewrite py_slice_inside by lia.
  rewrite length_map, length_combine, length_firstn, length_skipn, Hf.
  replace (Z.to_nat (n * H + W - n * H)) with (shape0 stft) by lia.
  replace (Nat.min (Nat.min (shape0 stft) (length buf - Z.to_nat (n * H))) (shape0 stft))
    with (shape0 stft) by (unfold len in Hhi; lia).
  reflexivity.
Qed.

(** The whole loop, on frames that fit the buffer. *)
Lemma overlap_add_loop (stft : ndarray2 (complex R)) (W H : Z) (ns : list Z) (buf : list R) :
  well_shaped stft -> 1 <= W -> Z.of_nat (shape0 stft) = W ->
  (forall n, In n ns -> 0 <= n < Z.of_nat (shape1 stft) /\ 0 <= n * H /\ n * H + W <= len buf) ->
  for_fold (overlap_add_step stft W H) ns buf = Returns (accumulate stft H ns buf) /\
  length (accumulate stft H ns buf) = length buf.
Proof.
  intros Hws HW Hbins; revert buf.
  induction ns as [|n ns IH]; intros buf Hns; simpl; [auto|].
  destruct (Hns n (or_introl eq_refl)) as (Hn & Hlo & Hhi).
  rewrite overlap_add_step_inside by assumption; simpl bind.
  assert (Hl : length (add_frame buf (Z.to_nat (n * H)) (time_frame stft n)) = length buf).
  { apply add_frame_length; rewrite time_frame_length by assumption.
    unfold len in Hhi; lia. }
  destruct (IH (add_frame buf (Z.to_nat (n * H)) (time_frame stft n))) as [E1 E2].
  { intros m Hm; unfold len; rewrite Hl; apply Hns; now right. }
  unfold accumulate in *; simpl; rewrite E1, E2; auto.
Qed.

End OverlapAdd.

(* ------------------------------------------------------------------ *)
(** ** The length of the inverse transform and the trimming *)


Lemma trim_both_exact {A : Type} (k : nat) (l : list A) :
  (2 * k <= length l)%nat ->
  exists head tail, l = head ++ trim_both k l ++ tail /\ length head = k /\ length tail = k.
Proof.
  intros Hk; exists (firstn k l), (skipn (length l - k) l); split; [|split].
  - unfold trim_both.
    rewrite <- (firstn_skipn (length l - k) l) at 1.
    rewrite app_assoc; f_equal.
    rewrite <- (firstn_skipn k (firstn (length l - k) l)) at 1.
    f_equal; rewrite firstn_firstn; f_equal; lia.
  - rewrite length_firstn; lia.
  - rewrite length_skipn; lia.
Qed.


Section InverseLength.
Context {K : NumLib} `{!NumLibShapes K}.


End InverseLength.



(* ------------------------------------------------------------------ *)
(** ** Columns of transposed, sliced and stacked arrays *)

Lemma column_as_map {A : Type} (d : A) (j : nat) (a : ndarray2 A) :
  well_shaped a -> (j < shape1 a)%nat ->
  column j a = map (fun r => nth j r d) (rows a).
Proof.
  intros [_ Hc] Hj; unfold column.
  induction (rows a) as [|r rs IH]; simpl; [reflexivity|].
  inversion Hc as [|? ? Hl Hrest]; subst.
  rewrite (nth_error_nth' r d) by lia; simpl; f_equal; auto.
Qed.

Lemma map_nth_seq {A : Type} (d : A) (l : list A) :
  map (fun i => nth i l d) (seq 0 (length l)) = l.
Proof.
  apply nth_error_ext; intros n.
  rewrite nth_error_map, nth_error_seq.
  destruct (Nat.ltb_spec n (length l)) as [Hlt|Hge]; simpl.
  - symmetry; apply nth_error_nth'; exact Hlt.
  - symmetry; apply nth_error_None; exact Hge.
Qed.

Lemma nth_py_slice {A : Type} (d : A) (a b : Z) (l : list A) (i : nat) :
  0 <= a -> Z.of_nat i < b - a -> b <= len l ->
  nth i (py_slice a b l) d = nth (Z.to_nat a + i) l d.
Proof.
  intros Ha Hi Hb; rewrite py_slice_inside by lia.
  rewrite nth_firstn.
  destruct (Nat.ltb_spec i (Z.to_nat (b - a))) as [_|Hge]; [|lia].
  apply nth_skipn.
Qed.

Lemma nth_map_in {A B : Type} (f : A -> B) (l : list A) (k : nat) (dA : A) (dB : B) :
  (k < length l)%nat -> nth k (map f l) dB = f (nth k l dA).
Proof.
  intros Hk; rewrite (nth_indep _ dB (f dA)) by (now rewrite length_map).
  apply map_nth.
Qed.

Lemma nth_row_length {A : Type} (a : ndarray2 A) (i : nat) :
  well_shaped a -> (i < shape0 a)%nat -> length (nth i (rows a) []) = shape1 a.
Proof.
  intros [Hr Hc] Hi; rewrite Forall_forall in Hc; apply Hc, nth_In; lia.
Qed.

(** Frame [n] of the trimmed spectrogram is row [first + n] of the array
    that the loop of [e_stft] fills. *)
Lemma column_of_trimmed_transpose {A : Type} (d : A) (first last : Z) (a : ndarray2 A)
  (n : nat) :
  well_shaped a -> 0 <= first -> first + Z.of_nat n < last -> last <= Z.of_nat (shape0 a) ->
  column n (column_slice first last (transpose a)) = nth (Z.to_nat first + n) (rows a) [].
Proof.
  intros Hws Hf Hn Hl.
  pose proof (transpose_well_shaped a Hws) as Hwt.
  pose proof (column_slice_well_shaped first last _ Hwt) as Hwc.
  rewrite (column_as_map d) by
    (try exact Hwc; simpl; rewrite !clamp_index_id by lia; lia).
  simpl rows; rewrite !map_map.
  rewrite <- (map_nth_seq d (nth (Z.to_nat first + n) (rows a) [])).
  rewrite nth_row_length by (try exact Hws; lia).
  apply map_ext_in; intros i Hi; apply in_seq in Hi.
  assert (Hcol : length (column i a) = shape0 a) by (apply column_length; [exact Hws | lia]).
  rewrite nth_py_slice by (unfold len; lia).
  rewrite (column_as_map d) by (try exact Hws; lia).
  apply (nth_map_in (fun r : list A => nth i r d)); destruct Hws as [Hr _]; lia.
Qed.

Lemma column_app {A : Type} (j s0 s0' s1 : nat) (r1 r2 : list (list A)) :
  column j (mk2d s0 s1 (r1 ++ r2)) = column j (mk2d s0' s1 r1) ++ column j (mk2d s0' s1 r2).
Proof. unfold column; simpl; apply flat_map_app. Qed.

Lemma column_map_rows {A B : Type} (f : A -> B) (j s0 s1 : nat) (rs : list (list A)) :
  column j (mk2d s0 s1 (map (map f) rs)) = map f (column j (mk2d s0 s1 rs)).
Proof.
  unfold column; simpl; induction rs as [|r rs IH]; simpl; [reflexivity|].
  rewrite nth_error_map, map_app, IH; destruct (nth_error r j); reflexivity.
Qed.

Lemma py_slice_rev_map {A B : Type} (f : A -> B) (a b : Z) (l : list A) :
  py_slice_rev a b (map f l) = map f (py_slice_rev a b l).
Proof.
  unfold py_slice_rev, len; rewrite length_map, map_rev, skipn_map, firstn_map; reflexivity.
Qed.

(* ------------------------------------------------------------------ *)
(** ** The values of the overlap-add buffer *)

Lemma nth_error_combine_some {A B : Type} (xs : list A) (ys : list B) (i : nat) (a : A) (b : B) :
  nth_error xs i = Some a -> nth_error ys i = Some b ->
  nth_error (combine xs ys) i = Some (a, b).
Proof.
  revert ys i; induction xs as [|x xs IH]; intros [|y ys] [|i]; simpl; try discriminate.
  - now intros [= ->] [= ->].
  - apply IH.
Qed.

Lemma range_snoc (k : nat) : range (Z.of_nat (S k)) = range (Z.of_nat k) ++ [Z.of_nat k].
Proof.
  unfold range; rewrite !Nat2Z.id, seq_S, map_app; reflexivity.
Qed.

Lemma nth_range (n : Z) (k : nat) (d : Z) :
  Z.of_nat k < n -> nth k (range n) d = Z.of_nat k.
Proof.
  intros Hk; unfold range.
  rewrite (nth_map_in Z.of_nat _ _ 0%nat) by (rewrite length_seq; lia).
  rewrite seq_nth by lia; reflexivity.
Qed.

Section BufferValues.
Context {K : NumLib}.

Lemma add_frame_nth_outside (buf : list R) (offset : nat) (frame : list R) (t : nat) :
  (offset + length frame <= length buf)%nat ->
  (t < offset \/ offset + length frame <= t)%nat ->
  nth_error (add_frame buf offset frame) t = nth_error buf t.
Proof.
  intros Hfit Ht; unfold add_frame.
  assert (Hmid : length (map (fun p : R * R => Radd (fst p) (snd p))
                          (combine (firstn (length frame) (skipn offset buf)) frame))
                 = length frame).
  { rewrite length_map, length_combine, length_firstn, length_skipn; lia. }
  destruct Ht as [Ht|Ht].
  - rewrite nth_error_app1 by (rewrite length_firstn; lia).
    rewrite nth_error_firstn.
    destruct (Nat.ltb_spec t offset); [reflexivity|lia].
  - rewrite nth_error_app2 by (rewrite length_firstn; lia).
    rewrite nth_error_app2 by (rewrite Hmid, length_firstn; lia).
    rewrite nth_error_skipn, Hmid, length_firstn; f_equal; lia.
Qed.

Lemma add_frame_nth_inside (buf : list R) (offset : nat) (frame : list R) (t : nat) (b : R) :
  (offset + length frame <= length buf)%nat ->
  (offset <= t < offset + length frame)%nat ->
  nth_error buf t = Some b ->
  nth_error (add_frame buf offset frame) t = Some (Radd b (nth (t - offset) frame R0)).
Proof.
  intros Hfit Ht Hb; unfold add_frame.
  rewrite nth_error_app2 by (rewrite length_firstn; lia).
  rewrite length_firstn; replace (Nat.min offset (length buf)) with offset by lia.
  rewrite nth_error_app1
    by (rewrite length_map, length_combine, length_firstn, length_skipn; lia).
  rewrite nth_error_map.
  rewrite (nth_error_combine_some _ _ _ b (nth (t - offset) frame R0)); [reflexivity| |].
  - rewrite nth_error_firstn.
    destruct (Nat.ltb_spec (t - offset) (length frame)); [|lia].
    rewrite nth_error_skipn, <- Hb; f_equal; lia.
  - apply nth_error_nth'; lia.
Qed.

(** The buffer after the frames [0 .. k-1], each of two hops, have been
    added at a stride of one hop: the samples from the first hop to the hop
    [k] hold the sum of the two frames that cover them. *)
Lemma fold_frames_invariant `{!ExactArithmetic K}
  (fr : Z -> list R) (H : Z) (h m : nat) (target : nat -> R) :
  H = Z.of_nat h ->
  (forall k : nat, (k < m)%nat -> length (fr (Z.of_nat k)) = (2 * h)%nat) ->
  (forall k i : nat, (1 <= k < m)%nat -> (i < h)%nat ->
     Radd (Radd R0 (nth (h + i) (fr (Z.of_nat (k - 1))) R0)) (nth i (fr (Z.of_nat k)) R0)
     = target (k * h + i)%nat) ->
  forall k : nat, (k <= m)%nat ->
    let B := fold_left (fun b n => add_frame b (Z.to_nat (n * H)) (fr n))
                       (range (Z.of_nat k)) (repeat R0 ((m + 1) * h)) in
    length B = ((m + 1) * h)%nat /\
    (forall t, ((k + 1) * h <= t < (m + 1) * h)%nat -> nth_error B t = Some R0) /\
    (forall i, (1 <= k)%nat -> (i < h)%nat ->
       nth_error B (k * h + i) = Some (Radd R0 (nth (h + i) (fr (Z.of_nat (k - 1))) R0))) /\
    (forall t, (h <= t < k * h)%nat -> nth_error B t = Some (target t)).
Proof.
  intros HH Hlen Hcola.
  induction k as [|k IH]; intros Hk B.
  - unfold B; simpl; split; [apply repeat_length|]; split; [|split].
    + intros t Ht; apply nth_error_repeat; lia.
    + intros i Hk1; lia.
    + intros t Ht; lia.
  - specialize (IH ltac:(lia)); cbv zeta in IH.
    destruct IH as (I1 & I2 & I3 & I4).
    unfold B; rewrite range_snoc, fold_left_app; simpl fold_left.
    set (B0 := fold_left (fun b n => add_frame b (Z.to_nat (n * H)) (fr n))
                 (range (Z.of_nat k)) (repeat R0 ((m + 1) * h))) in *.
    replace (Z.to_nat (Z.of_nat k * H)) with (k * h)%nat by (subst H; lia).
    pose proof (Hlen k ltac:(lia)) as Hf.
    assert (Hfit : (k * h + length (fr (Z.of_nat k)) <= length B0)%nat)
      by (rewrite Hf, I1; nia).
    split; [rewrite add_frame_length; assumption|]; split; [|split].
    + intros t Ht; rewrite add_frame_nth_outside; [apply I2; nia | exact Hfit |].
      right; rewrite Hf; nia.
    + intros i _ Hi.
      rewrite (add_frame_nth_inside _ _ _ _ R0); [| exact Hfit | rewrite Hf; nia |].
      * replace (S k - 1)%nat with k by lia.
        do 3 f_equal; nia.
      * apply I2; nia.
    + intros t Ht.
      destruct (Nat.lt_ge_cases t (k * h)) as [Hlt|Hge].
      * rewrite add_frame_nth_outside; [apply I4; lia | exact Hfit | now left].
      * assert (Hk1 : (1 <= k)%nat) by nia.
        replace t with (k * h + (t - k * h))%nat at 1 by lia.
        rewrite (add_frame_nth_inside _ _ _ _
                   (Radd R0 (nth (h + (t - k * h)) (fr (Z.of_nat (k - 1))) R0)));
          [| exact Hfit | rewrite Hf; nia | apply I3; [exact Hk1 | nia]].
        replace (k * h + (t - k * h) - k * h)%nat with (t - k * h)%nat by lia.
        rewrite Hcola by nia; do 2 f_equal; lia.
Qed.

End BufferValues.

(* ------------------------------------------------------------------ *)
(** ** Analysis followed by synthesis, in exact arithmetic *)

Section RoundTrip.
Context {K : NumLib} `{!NumLibShapes K} `{!ExactArithmetic K}.

Lemma windowed_frame_length (p w : list R) (W H hop : Z) :
  0 <= hop * H -> 0 <= W -> hop * H + W <= len p -> length w = Z.to_nat W ->
  length (windowed_frame p w W H hop) = Z.to_nat W.
Proof.
  intros Hlo HW Hhi Hw; unfold windowed_frame.
  rewrite length_map, length_combine, py_slice_inside_length, Hw by lia; lia.
Qed.

Lemma windowed_frame_nth (p w : list R) (W H hop : Z) (i : nat) :
  0 <= hop * H -> hop * H + W <= len p -> length w = Z.to_nat W ->
  (i < Z.to_nat W)%nat ->
  nth i (windowed_frame p w W H hop) R0 =
  Rmul (nth (Z.to_nat (hop * H) + i) p R0) (nth i w R0).
Proof.
  intros Hlo Hhi Hw Hi; unfold windowed_frame.
  apply nth_error_nth; rewrite nth_error_map.
  rewrite (nth_error_combine_some _ _ _
             (nth (Z.to_nat (hop * H) + i) p R0) (nth i w R0)); [reflexivity| |].
  - rewrite <- (nth_py_slice R0 (hop * H) (hop * H + W)) by lia.
    apply nth_error_nth'; rewrite py_slice_inside_length by lia; lia.
  - apply nth_error_nth'; lia.
Qed.

Lemma padded_nth (x : list R) (W H : Z) (t : nat) :
  0 <= W ->
  nth (Z.to_nat (W / 2) + t) (padded x W H) R0 = nth t x R0.
Proof.
  intros HW; unfold padded.
  rewrite <- (repeat_length R0 (Z.to_nat (W / 2))) at 1.
  rewrite app_nth2_plus, <- repeat_app.
  destruct (Nat.lt_ge_cases t (length x)) as [Hlt|Hge].
  - now rewrite app_nth1.
  - rewrite app_nth2, nth_repeat by lia.
    symmetry; apply nth_overflow; exact Hge.
Qed.

Lemma padded_head (x : list R) (W H : Z) (j : nat) :
  (j < Z.to_nat (W / 2))%nat -> nth j (padded x W H) R0 = R0.
Proof.
  intros Hj; unfold padded.
  rewrite app_nth1 by (rewrite repeat_length; exact Hj).
  apply nth_repeat.
Qed.

(** The reflection rebuilt from the first half of the transform of real
    values is the second half of that transform. *)
Lemma hermitian_rebuild (v : list R) (W H : Z) :
  exact_dft W -> 1 <= H -> W = 2 * H -> length v = Z.to_nat W ->
  let half := py_slice 0 (W / 2 + 1) (fft W v) in
  half ++ map conj (py_slice_rev (-2) 0 half) = fft W v.
Proof.
  intros [Hherm _] HH HW Hv half.
  assert (HF : length (fft W v) = Z.to_nat W) by (apply fft_length; lia).
  assert (Hhalf2 : W / 2 = H) by (subst W; rewrite Z.mul_comm, Z.div_mul; lia).
  assert (Ehalf : half = firstn (Z.to_nat (H + 1)) (fft W v)).
  { unfold half; rewrite py_slice_inside by (unfold len; lia).
    rewrite Hhalf2; simpl skipn; f_equal; lia. }
  assert (Hl : length half = Z.to_nat (H + 1)) by (rewrite Ehalf, length_firstn; lia).
  apply nth_error_ext; intros k.
  destruct (Nat.lt_ge_cases k (Z.to_nat (H + 1))) as [Hlo|Hhi].
  - rewrite nth_error_app1 by lia.
    rewrite Ehalf, nth_error_firstn.
    destruct (Nat.ltb_spec k (Z.to_nat (H + 1))); [reflexivity|lia].
  - destruct (Nat.lt_ge_cases k (Z.to_nat W)) as [Hin|Hout].
    + replace k with (2 * (length half - 1) - (Z.to_nat W - k))%nat at 1 by lia.
      rewrite mirrored_nth_error by lia.
      rewrite Ehalf, nth_error_firstn.
      destruct (Nat.ltb_spec (Z.to_nat W - k) (Z.to_nat (H + 1))); [|lia].
      rewrite <- Hherm by lia; f_equal; lia.
    + transitivity (@None (complex R)); [|symmetry]; apply nth_error_None.
      * rewrite length_app, length_map, reflection_length; lia.
      * lia.
Qed.

(** A frame of the rebuilt spectrogram is a frame of the spectrogram with
    its reflection. *)
Lemma rebuilt_column (stft full : ndarray2 (complex R)) (n : nat) :
  well_shaped stft -> rebuild_reflection stft = Returns full -> (n < shape1 stft)%nat ->
  column n full = column n stft ++ map conj (py_slice_rev (-2) 0 (column n stft)).
Proof.
  intros Hws E Hn.
  destruct (rebuild_reflection_well_shaped stft full Hws E) as (_ & _ & _ & Hrows).
  unfold column at 1; rewrite Hrows, flat_map_app; f_equal.
  change (column n (mk2d 0 0 (map (map conj) (py_slice_rev (-2) 0 (rows stft)))) =
          map conj (py_slice_rev (-2) 0 (column n stft))).
  rewrite column_map_rows; f_equal.
  rewrite (column_as_map C0 n stft) by assumption.
  rewrite py_slice_rev_map.
  apply (column_as_map C0 n
           (mk2d (length (py_slice_rev (-2) 0 (rows stft))) (shape1 stft)
                 (py_slice_rev (-2) 0 (rows stft)))); [|exact Hn].
  split; [reflexivity|]; simpl.
  destruct Hws as [_ Hc]; rewrite Forall_forall in *; intros r Hr.
  rewrite py_slice_rev_reflection in Hr; apply in_rev in Hr.
  apply in_firstn, in_skipn in Hr; now apply Hc.
Qed.

End RoundTrip.

Section RoundTripLaw.
Context {K : NumLib} `{!NumLibShapes K} `{!ExactArithmetic K}.

(** The number of hops that cover the signal and its tail pad. *)
Lemma hops_over_signal (L H : Z) :
  0 <= L -> 1 <= H ->
  let q := (L + tail_pad L H) / H in
  0 <= q /\ q * H = L + tail_pad L H /\ (q - 1) * H <= L.
Proof.
  intros HL HH q.
  destruct (tail_pad_spec L H HH) as [Ht Hm].
  apply Z.mod_divide in Hm; [|lia]; destruct Hm as [c Hc].
  assert (Hq : q = c) by (unfold q; rewrite Hc, Z.div_mul; lia).
  rewrite Hq; split; [nia|]; split; [lia|nia].
Qed.

Lemma kept_frames_half_overlap (L H : Z) :
  0 <= L -> 1 <= H ->
  kept_frames L (2 * H) H = Z.max 0 ((L + tail_pad L H) / H - 1).
Proof.
  intros HL HH; unfold kept_frames; cbv zeta.
  destruct (tail_pad_spec L H HH) as [Ht _].
  replace (2 * H / 2) with H by (rewrite Z.mul_comm, Z.div_mul; lia).
  rewrite Z.div_same by lia.
  replace ((H + tail_pad L H) / H) with 1
    by (apply Z.div_unique with (r := tail_pad L H); lia).
  replace (L + 2 * H + tail_pad L H - 2 * H) with (L + tail_pad L H) by lia.
  f_equal; lia.
Qed.

End RoundTripLaw.

(* ------------------------------------------------------------------ *)
(** ** The exact library at four points *)

#[export] Instance ExactLib_arith : ExactArithmetic ExactLib.
Proof.
  constructor; simpl; intros.
  - apply Qcplus_0_l.
  - apply Qcmult_1_r.
  - symmetry; apply Qcmult_plus_distr_r.
Qed.

Lemma ExactQ_quarter : (Q2Qc 1 / ExactQ.qz 4 * (1 + 1 + 1 + 1) = 1)%Qc.
Proof. apply Qc_is_canon; reflexivity. Qed.

Lemma ExactQ_quarter_sum (a : Qc) : (Q2Qc 1 / ExactQ.qz 4 * (a + a + a + a) = a)%Qc.
Proof.
  transitivity (a * (Q2Qc 1 / ExactQ.qz 4 * (1 + 1 + 1 + 1)))%Qc; [ring|].
  rewrite ExactQ_quarter; ring.
Qed.

Ltac quarter_of x :=
  transitivity (Q2Qc 1 / ExactQ.qz 4 * (x + x + x + x))%Qc;
  [f_equal; ring | apply ExactQ_quarter_sum].

(** The transform of [ExactLib] at four points is Hermitian on real values
    and is undone by its inverse. *)
Lemma ExactLib_dft4 : @exact_dft ExactLib 4.
Proof.
  split.
  - intros v k Hv Hk1 Hk2.
    change (Z.to_nat 4) with 4%nat in *.
    assert (k = 1%nat) by lia; subst k.
    destruct v as [|a [|b [|c [|d [|? ?]]]]]; try discriminate.
    cbv -[Qcplus Qcmult Qcopp Qcminus Qcdiv Qcinv Q2Qc].
    f_equal; f_equal; ring.
  - intros v Hv.
    change (Z.to_nat 4) with 4%nat in *.
    destruct v as [|a [|b [|c [|d [|? ?]]]]]; try discriminate.
    cbv -[Qcplus Qcmult Qcopp Qcminus Qcdiv Qcinv Q2Qc ExactQ.qz].
    f_equal; [quarter_of a|].
    f_equal; [quarter_of b|].
    f_equal; [quarter_of c|].
    f_equal; quarter_of d.
Qed.

(** The periodic Hann window of four samples is [0, 1/2, 1, 1/2]. *)
Lemma ExactLib_hann4_cola : @cola ExactLib (@hann ExactLib 4) 2.
Proof.
  intros i Hi; change (Z.to_nat 2) with 2%nat in *.
  destruct i as [|[|i]]; [| |lia]; apply Qc_is_canon; reflexivity.
Qed.

(* ------------------------------------------------------------------ *)
(** ** Rounding error of the overlap-add sum *)

Lemma sumQ_app (l1 l2 : list Q) : (sumQ (l1 ++ l2) == sumQ l1 + sumQ l2)%Q.
Proof.
  induction l1 as [|q l1 IH]; simpl; [ring|rewrite IH; ring].
Qed.

Lemma inject_nat_S (k : nat) :
  (inject_Z (Z.of_nat (S k)) == inject_Z (Z.of_nat k) + 1)%Q.
Proof.
  rewrite Nat2Z.inj_succ; unfold Z.succ; rewrite inject_Z_plus; reflexivity.
Qed.

Lemma inject_nat_nonneg (k : nat) : (0 <= inject_Z (Z.of_nat k))%Q.
Proof.
  change 0%Q with (inject_Z 0); rewrite <- Zle_Qle; lia.
Qed.

Lemma inject_nat_le (k k' : nat) :
  (k <= k')%nat -> (inject_Z (Z.of_nat k) <= inject_Z (Z.of_nat k'))%Q.
Proof.
  intros Hk; rewrite <- Zle_Qle; lia.
Qed.

Lemma sum_tolerance_nonneg (u e a : Q) (k : nat) :
  (0 <= u)%Q -> (0 <= e)%Q -> (0 <= a)%Q -> (0 <= sum_tolerance u e a k)%Q.
Proof.
  intros Hu He Ha; induction k as [|k IH]; [apply Qle_refl|].
  cbn [sum_tolerance].
  pose proof (inject_nat_nonneg (S k)) as Hk.
  set (T := sum_tolerance u e a k) in *.
  set (n := inject_Z (Z.of_nat (S k))) in *.
  assert (0 <= n * a)%Q by (apply Qmult_le_0_compat; assumption).
  assert (0 <= u * (n * a + T + e))%Q by (apply Qmult_le_0_compat; lra).
  lra.
Qed.

Lemma sum_tolerance_step (u e a : Q) (k : nat) :
  (0 <= u)%Q -> (0 <= e)%Q -> (0 <= a)%Q ->
  (sum_tolerance u e a k + e <= sum_tolerance u e a (S k))%Q.
Proof.
  intros Hu He Ha.
  pose proof (sum_tolerance_nonneg u e a k Hu He Ha) as HT.
  cbn [sum_tolerance].
  pose proof (inject_nat_nonneg (S k)) as Hk.
  set (T := sum_tolerance u e a k) in *.
  set (n := inject_Z (Z.of_nat (S k))) in *.
  assert (0 <= n * a)%Q by (apply Qmult_le_0_compat; assumption).
  assert (0 <= u * (n * a + T + e))%Q by (apply Qmult_le_0_compat; lra).
  lra.
Qed.

Lemma sum_tolerance_mono (u e a : Q) (k k' : nat) :
  (0 <= u)%Q -> (0 <= e)%Q -> (0 <= a)%Q -> (k <= k')%nat ->
  (sum_tolerance u e a k <= sum_tolerance u e a k')%Q.
Proof.
  intros Hu He Ha Hk; induction Hk as [|k' _ IH]; [apply Qle_refl|].
  pose proof (sum_tolerance_step u e a k' Hu He Ha); lra.
Qed.

(** The tolerance grows with each of its parameters. *)
Lemma sum_tolerance_le (u u' e e' a a' : Q) (k : nat) :
  (0 <= u <= u')%Q -> (0 <= e <= e')%Q -> (0 <= a <= a')%Q ->
  (sum_tolerance u e a k <= sum_tolerance u' e' a' k)%Q.
Proof.
  intros Hu He Ha; induction k as [|k IH]; [apply Qle_refl|].
  cbn [sum_tolerance].
  pose proof (inject_nat_nonneg (S k)) as Hk.
  pose proof (sum_tolerance_nonneg u e a k ltac:(lra) ltac:(lra) ltac:(lra)) as HT.
  set (T := sum_tolerance u e a k) in *.
  set (T' := sum_tolerance u' e' a' k) in *.
  set (n := inject_Z (Z.of_nat (S k))) in *.
  assert (G1 : (0 <= n * a <= n * a')%Q).
  { split; [apply Qmult_le_0_compat; lra|].
    apply Qmult_le_compat_nonneg; split; lra. }
  assert (G2 : (u * (n * a + T + e) <= u' * (n * a' + T' + e'))%Q).
  { apply Qmult_le_compat_nonneg; split; lra. }
  lra.
Qed.

Lemma sum_tolerance_scale (u e a A : Q) (k : nat) :
  (sum_tolerance u (A * e) (A * a) k == A * sum_tolerance u e a k)%Q.
Proof.
  induction k as [|k IH]; [simpl; ring|].
  cbn [sum_tolerance]; rewrite IH; ring.
Qed.

Section SumError.
Context {K : NumLib}.
Variable value : R -> Q.

(** A float sum of terms [g n] that stand for [s * omega n]. *)
Lemma float_sum_error (u eta Omega E a s : Q) (g : nat -> R) (omega : nat -> Q)
  (ns : list nat) :
  float_model value u eta Omega -> (0 <= E)%Q -> (0 <= a)%Q ->
  (inject_Z (Z.of_nat (length ns)) * a + sum_tolerance u E a (length ns) <= Omega)%Q ->
  (forall n, In n ns ->
     (Qabs (value (g n) - s * omega n) <= E)%Q /\ (Qabs (s * omega n) <= a)%Q) ->
  (Qabs (value (fold_left (fun acc n => Radd acc (g n)) ns R0) - s * sumQ (map omega ns))
     <= sum_tolerance u E a (length ns))%Q /\
  (Qabs (s * sumQ (map omega ns)) <= inject_Z (Z.of_nat (length ns)) * a)%Q.
Proof.
  intros (Hu & _ & H0 & Hadd & _) HE Ha.
  induction ns as [|n ns IH] using rev_ind; intros Hrange Hg.
  - cbn [fold_left map sumQ fold_right length sum_tolerance].
    change (inject_Z (Z.of_nat 0)) with 0%Q.
    split; apply Qabs_Qle_condition; split; lra.
  - rewrite length_app, Nat.add_1_r in Hrange.
    pose proof (sum_tolerance_step u E a (length ns) Hu HE Ha) as Hstep.
    pose proof (sum_tolerance_nonneg u E a (length ns) Hu HE Ha) as HT0.
    pose proof (inject_nat_S (length ns)) as HS.
    pose proof (inject_nat_nonneg (length ns)) as Hk0.
    assert (Hka : (0 <= inject_Z (Z.of_nat (length ns)) * a)%Q)
      by (apply Qmult_le_0_compat; assumption).
    destruct IH as [IH1 IH2].
    { revert Hrange Hstep HS Hka.
      generalize (sum_tolerance u E a (S (length ns))) (sum_tolerance u E a (length ns))
                 (inject_Z (Z.of_nat (S (length ns)))) (inject_Z (Z.of_nat (length ns))).
      clear - HE Ha; intros T' T k' k Hrange Hstep HS Hka.
      assert (k' * a == k * a + a)%Q by (rewrite HS; ring).
      lra. }
    { intros k Hk; apply Hg, in_or_app; now left. }
    destruct (Hg n ltac:(apply in_or_app; right; now left)) as [Hgn Han].
    rewrite fold_left_app, map_app, length_app, Nat.add_1_r; cbn [fold_left map length].
    set (P := fold_left (fun acc k => Radd acc (g k)) ns R0) in *.
    pose proof (sumQ_app (map omega ns) [omega n]) as Hsum; cbn [sumQ fold_right] in Hsum.
    cbn [sum_tolerance] in *.
    generalize (Hadd P (g n)).
    revert Hrange Hstep HT0 HS Hk0 Hka IH1 IH2 Hgn Han Hsum.
    generalize (sum_tolerance u E a (length ns))
               (inject_Z (Z.of_nat (S (length ns)))) (inject_Z (Z.of_nat (length ns)))
               (omega n) (sumQ (map omega ns)) (sumQ (map omega ns ++ [omega n]))
               (value (Radd P (g n))) (value P) (value (g n)).
    clear - Hu HE Ha.
    intros T k' k om S1 S2 vs vP vg Hrange Hstep HT0 HS Hk0 Hka IH1 IH2 Hgn Han Hsum Herr.
    assert (Hk'a : (k' * a == k * a + a)%Q) by (rewrite HS; ring).
    assert (HsS : (s * S2 == s * S1 + s * om)%Q) by (rewrite Hsum; ring).
    set (X := Qabs (vP + vg)) in *.
    apply Qabs_Qle_condition in IH1, IH2, Hgn, Han.
    assert (HX : (X <= k' * a + T + E)%Q)
      by (unfold X; apply Qabs_Qle_condition; split; lra).
    assert (HuX : (u * X <= u * (k' * a + T + E))%Q)
      by (apply Qmult_le_compat_nonneg; split; try lra; unfold X; apply Qabs_nonneg).
    assert (HuB : (0 <= u * (k' * a + T + E))%Q)
      by (apply Qmult_le_0_compat; lra).
    assert (Herr' : (Qabs (vs - (vP + vg)) <= u * X)%Q).
    { apply Herr; apply Qabs_Qle_condition; split; lra. }
    apply Qabs_Qle_condition in Herr'.
    split; apply Qabs_Qle_condition; split; lra.
Qed.

End SumError.

(* ------------------------------------------------------------------ *)
(** ** The overlap-add buffer as a sum over the frames *)

Lemma fold_left_skip {A B : Type} (f : A -> B -> A) (c : B -> bool) (l : list B) (acc : A) :
  (forall n, In n l -> c n = false) ->
  fold_left (fun acc n => if c n then f acc n else acc) l acc = acc.
Proof.
  revert acc; induction l as [|n l IH]; intros acc Hc; [reflexivity|].
  cbn [fold_left]; rewrite (Hc n) by now left.
  apply IH; intros k Hk; apply Hc; now right.
Qed.

Lemma fold_left_take {A B : Type} (f : A -> B -> A) (c : B -> bool) (l : list B) (acc : A) :
  (forall n, In n l -> c n = true) ->
  fold_left (fun acc n => if c n then f acc n else acc) l acc = fold_left f l acc.
Proof.
  revert acc; induction l as [|n l IH]; intros acc Hc; [reflexivity|].
  cbn [fold_left]; rewrite (Hc n) by now left.
  apply IH; intros k Hk; apply Hc; now right.
Qed.

(** A fold over the frames that skips all but [cnt] of them, from frame [a]
    on. *)
Lemma fold_left_window {A : Type} (f : A -> nat -> A) (c : nat -> bool) (a cnt m : nat)
  (acc : A) :
  (a + cnt <= m)%nat ->
  (forall n, (n < m)%nat -> c n = true <-> (a <= n < a + cnt)%nat) ->
  fold_left (fun acc n => if c n then f acc n else acc) (seq 0 m) acc =
  fold_left f (seq a cnt) acc.
Proof.
  intros Hm Hc.
  replace m with (a + (cnt + (m - a - cnt)))%nat by lia.
  rewrite seq_app, seq_app, !fold_left_app; cbn [Nat.add].
  rewrite fold_left_skip, fold_left_take, fold_left_skip; [reflexivity| | |].
  - intros n Hn; apply in_seq in Hn.
    destruct (c n) eqn:E; [|reflexivity]; apply Hc in E; lia.
  - intros n Hn; apply in_seq in Hn; apply Hc; lia.
  - intros n Hn; apply in_seq in Hn.
    destruct (c n) eqn:E; [|reflexivity]; apply Hc in E; lia.
Qed.

(** The frames that cover the sample [q * h + i]. *)
Lemma covers_iff (h Wn q i n : nat) :
  (1 <= h)%nat -> (h <= Wn)%nat -> (i < h)%nat ->
  let J := ((Wn - 1 - i) / h)%nat in
  (J <= q)%nat ->
  covers h Wn n (q * h + i) = true <-> (q - J <= n < q - J + (J + 1))%nat.
Proof.
  intros Hh HW Hi J HJ; unfold covers.
  rewrite andb_true_iff, Nat.leb_le, Nat.ltb_lt.
  pose proof (Nat.div_mod_eq (Wn - 1 - i) h) as Hd.
  pose proof (Nat.mod_upper_bound (Wn - 1 - i) h ltac:(lia)) as Hr.
  fold J in Hd.
  split.
  - intros [H1 H2].
    assert (n <= q)%nat by nia.
    assert (q - n <= J)%nat by nia.
    lia.
  - intros Hn; split; [nia|].
    assert (q - n <= J)%nat by lia.
    assert ((q - n) * h <= J * h)%nat by nia.
    nia.
Qed.

Lemma sumQ_rev_index (F : nat -> Q) (cnt a top : nat) :
  (a + cnt = top + 1)%nat ->
  (sumQ (map (fun n => F (top - n)%nat) (seq a cnt)) == sumQ (map F (seq 0 cnt)))%Q.
Proof.
  revert a; induction cnt as [|c IH]; intros a Ha; [reflexivity|].
  rewrite (seq_S c 0), map_app, sumQ_app; cbn [Nat.add map seq sumQ fold_right].
  rewrite (IH (S a)) by lia.
  replace (top - a)%nat with c by lia; ring.
Qed.

Lemma sumQ_map_ext {A : Type} (f g : A -> Q) (l : list A) :
  (forall n, In n l -> f n = g n) -> sumQ (map f l) = sumQ (map g l).
Proof.
  intros H; f_equal; apply map_ext_in; exact H.
Qed.

Section BufferSum.
Context {K : NumLib}.

(** The buffer after the frames [0 .. k-1] have been added: each sample is
    the sum, from zero and in the order of the frames, of the frame samples
    that were added to it. *)
Lemma accumulate_nth (fr : Z -> list R) (H : Z) (h Wn m total : nat) :
  H = Z.of_nat h ->
  (forall k, (k < m)%nat -> length (fr (Z.of_nat k)) = Wn) ->
  (forall k, (k < m)%nat -> (k * h + Wn <= total)%nat) ->
  forall k, (k <= m)%nat ->
    let B := fold_left (fun b n => add_frame b (Z.to_nat (n * H)) (fr n))
                       (range (Z.of_nat k)) (repeat R0 total) in
    length B = total /\
    forall t, (t < total)%nat ->
      nth_error B t =
      Some (fold_left (fun acc n => if covers h Wn n t
                                    then Radd acc (nth (t - n * h) (fr (Z.of_nat n)) R0)
                                    else acc) (seq 0 k) R0).
Proof.
  intros HH Hlen Hfit.
  induction k as [|k IH]; intros Hk B.
  - unfold B; simpl; split; [apply repeat_length|].
    intros t Ht; apply nth_error_repeat; exact Ht.
  - specialize (IH ltac:(lia)); cbv zeta in IH; destruct IH as [I1 I2].
    unfold B; rewrite range_snoc, fold_left_app; cbn [fold_left].
    set (B0 := fold_left (fun b n => add_frame b (Z.to_nat (n * H)) (fr n))
                 (range (Z.of_nat k)) (repeat R0 total)) in *.
    replace (Z.to_nat (Z.of_nat k * H)) with (k * h)%nat by (subst H; rewrite <- Nat2Z.inj_mul, Nat2Z.id; reflexivity).
    pose proof (Hlen k ltac:(lia)) as Hf.
    pose proof (Hfit k ltac:(lia)) as Hft.
    assert (Hin : (k * h + length (fr (Z.of_nat k)) <= length B0)%nat) by (rewrite Hf, I1; exact Hft).
    split; [rewrite add_frame_length; assumption|].
    intros t Ht.
    rewrite seq_S, fold_left_app; cbn [fold_left Nat.add].
    unfold covers at 1.
    destruct (Nat.leb_spec (k * h) t) as [Hlo|Hlo];
      [destruct (Nat.ltb_spec t (k * h + Wn)) as [Hhi|Hhi]|]; cbn [andb].
    + erewrite add_frame_nth_inside;
        [reflexivity | exact Hin | rewrite Hf; lia | apply I2; exact Ht].
    + rewrite add_frame_nth_outside; [apply I2; exact Ht | exact Hin | right; rewrite Hf; lia].
    + rewrite add_frame_nth_outside; [apply I2; exact Ht | exact Hin | left; lia].
Qed.

End BufferSum.

(** The position [t] of the buffer, at least [Wn - h], by hops of [h]. *)
Lemma overlap_index (h Wn t : nat) :
  (1 <= h)%nat -> (h <= Wn)%nat -> (Wn - h <= t)%nat ->
  let q := (t / h)%nat in
  let i0 := (t mod h)%nat in
  let J := ((Wn - 1 - i0) / h)%nat in
  (q * h + i0 = t)%nat /\ (i0 < h)%nat /\ (J <= q)%nat /\
  (forall k, (q - J <= k <= q)%nat ->
     (t - k * h < Wn)%nat /\ (t - k * h = i0 + (q - k) * h)%nat /\ (k * h <= t)%nat) /\
  (forall m, (t < m * h)%nat -> (q < m)%nat).
Proof.
  intros Hh HW Ht q i0 J.
  pose proof (Nat.div_mod_eq t h) as Hd; fold q in Hd; fold i0 in Hd.
  assert (Hi0 : (i0 < h)%nat) by (unfold i0; apply Nat.mod_upper_bound; lia).
  pose proof (Nat.div_mod_eq (Wn - 1 - i0) h) as HJd; fold J in HJd.
  pose proof (Nat.mod_upper_bound (Wn - 1 - i0) h ltac:(lia)) as HJr.
  clearbody q i0 J.
  assert (HJq : (J <= q)%nat) by nia.
  split; [lia|]; split; [exact Hi0|]; split; [exact HJq|]; split.
  - intros k Hk.
    assert (Hk1 : (k * h <= q * h)%nat) by nia.
    assert (Hk2 : ((q - k) * h <= J * h)%nat) by nia.
    assert (Hk3 : ((q - k) * h + k * h = q * h)%nat) by nia.
    lia.
  - intros m Hm; nia.
Qed.

(** The frames kept by [e_stft] with a window of two hops or more end
    before the end of the signal. *)
Lemma kept_frames_inside (L W H tp : Z) :
  0 <= L -> 1 <= H -> 2 * H <= W -> W = 2 * (W / 2) -> 0 <= tp < H ->
  (L + tp) mod H = 0 ->
  let m := Z.max 0 ((L + 2 * (W / 2) + tp - W) / H + 1 - W / 2 / H - (W / 2 + tp) / H) in
  0 < m -> m * H <= L.
Proof.
  intros HL HH Hov Hz Ht Hmod m; unfold m; clear m.
  replace (L + 2 * (W / 2) + tp - W) with (L + tp) by lia.
  intros Hm.
  assert (HF1 : 1 <= W / 2 / H) by (apply Z.div_le_lower_bound; lia).
  assert (HT1 : W / 2 / H <= (W / 2 + tp) / H) by (apply Z.div_le_mono; lia).
  apply Z.mod_divide in Hmod; [|lia]; destruct Hmod as [Q HQ].
  assert (EQ : (L + tp) / H = Q) by (rewrite HQ; apply Z.div_mul; lia).
  rewrite EQ in *.
  set (F := W / 2 / H) in *; set (T := (W / 2 + tp) / H) in *; clearbody F T.
  nia.
Qed.

(** The index of the padded signal that frame [k] holds at the position
    [t] of the buffer. *)
Lemma frame_sample_index (W H : Z) (k i : nat) :
  1 <= H <= W -> 0 <= W / 2 ->
  (k * Z.to_nat H <= Z.to_nat (W - H) + i)%nat ->
  (Z.to_nat ((Z.of_nat k + W / 2 / H) * H) + (Z.to_nat (W - H) + i - k * Z.to_nat H))%nat =
  Z.to_nat (W / 2 + (W - H - (W / 2) mod H + Z.of_nat i)).
Proof.
  intros HH Hz Hk.
  pose proof (Z.div_mod (W / 2) H ltac:(lia)) as Hzdm.
  pose proof (Z.mod_pos_bound (W / 2) H ltac:(lia)) as Hrho.
  assert (HF0 : 0 <= W / 2 / H) by (apply Z.div_pos; lia).
  set (F := W / 2 / H) in *; set (rho := (W / 2) mod H) in *; clearbody F rho.
  apply Nat2Z.inj.
  rewrite Nat2Z.inj_add, Nat2Z.inj_sub by exact Hk.
  rewrite Nat2Z.inj_add, Nat2Z.inj_mul, !Z2Nat.id by nia.
  nia.
Qed.

Lemma hop_fits (m n H W : Z) :
  0 <= n < m -> 1 <= H -> 0 <= n * H /\ n * H + W <= (m - 1) * H + W.
Proof. intros Hn HH; nia. Qed.

Lemma frames_fit (m k : nat) (H W : Z) :
  1 <= H <= W -> (k < m)%nat ->
  (k * Z.to_nat H + Z.to_nat W <= Z.to_nat ((Z.of_nat m - 1) * H + W))%nat.
Proof.
  intros HH Hk.
  destruct (hop_fits (Z.of_nat m) (Z.of_nat k) H W ltac:(lia) ltac:(lia)) as [H1 H2].
  apply Nat2Z.inj_le.
  rewrite Nat2Z.inj_add, Nat2Z.inj_mul, !Z2Nat.id by lia; exact H2.
Qed.

(** The position in the buffer of the sample [i] of the result. *)
Lemma position_inside (m i : nat) (H W : Z) :
  1 <= H <= W -> Z.of_nat i < Z.max 0 (Z.of_nat m * H - (W - H)) ->
  let t := (Z.to_nat (W - H) + i)%nat in
  (t < m * Z.to_nat H)%nat /\ (Z.to_nat W - Z.to_nat H <= t)%nat /\
  (t < Z.to_nat ((Z.of_nat m - 1) * H + W))%nat /\ 0 < Z.of_nat m /\
  Z.of_nat i < Z.of_nat m * H - (W - H).
Proof.
  intros HH Hi t.
  assert (Hi' : Z.of_nat i < Z.of_nat m * H - (W - H)) by lia.
  assert (Hm : 0 < Z.of_nat m) by nia.
  assert (Ht : Z.of_nat t < Z.of_nat m * H)
    by (unfold t; rewrite Nat2Z.inj_add, Z2Nat.id by lia; lia).
  split; [|split; [|split; [|split]]].
  - apply Nat2Z.inj_lt; rewrite Nat2Z.inj_mul, Z2Nat.id by lia; exact Ht.
  - unfold t; lia.
  - apply Nat2Z.inj_lt; rewrite Z2Nat.id by nia; lia.
  - exact Hm.
  - exact Hi'.
Qed.

(* ------------------------------------------------------------------ *)
(** ** The tolerance in double precision *)

(** In double precision, with transforms and a window accurate to [1e-9],
    a window of at most one in size, up to four frames that overlap and an
    underflow that is small against the signal, the tolerance is below
    [1e-6] times the amplitude of the signal. *)
Lemma tolerance_double_precision (u eta eps delta A B : Q) (r : nat) :
  (0 <= u <= 1 # 9007199254740992)%Q -> (0 <= eta <= A * (1 # 1000000000))%Q ->
  (0 <= eps <= 1 # 1000000000)%Q -> (0 <= delta <= 1 # 1000000000)%Q ->
  (0 <= A)%Q -> (0 <= B <= 1)%Q -> (r <= 4)%nat ->
  (tolerance u eta eps delta A B r <= A * (1 # 1000000))%Q.
Proof.
  intros Hu Heta Heps Hdelta HA HB Hr.
  assert (Hc : (sum_tolerance (1 # 9007199254740992)
                  ((1 # 1000000000) * (1 + (1 # 9007199254740992) + (1 # 1000000000))
                   + 2 * (1 # 1000000000) + (1 # 9007199254740992)) 1 4
                + (1 # 1000000000) <= 1 # 1000000)%Q)
    by (apply Qle_bool_imp_le; vm_compute; reflexivity).
  assert (Hu64 : (0 <= 1 # 9007199254740992)%Q) by discriminate.
  assert (Hn9 : (0 <= 1 # 1000000000)%Q) by discriminate.
  revert Hc Hu64 Hn9 Hu Heta Heps Hdelta.
  generalize (1 # 9007199254740992)%Q (1 # 1000000000)%Q (1 # 1000000)%Q.
  intros u64 n9 n6 Hc Hu64 Hn9 Hu Heta Heps Hdelta.
  assert (HAB : (0 <= A * B <= A)%Q).
  { split; [apply Qmult_le_0_compat; lra|].
    setoid_replace A with (A * 1)%Q at 2 by ring.
    apply Qmult_le_compat_nonneg; split; lra. }
  assert (Hfb : (0 <= frame_bound u eta A B <= A * (1 + u64 + n9))%Q).
  { unfold frame_bound.
    assert (0 <= (1 + u) * (A * B) <= (1 + u64) * A)%Q.
    { split; [apply Qmult_le_0_compat; lra|].
      apply Qmult_le_compat_nonneg; split; lra. }
    lra. }
  set (e0 := (n9 * (1 + u64 + n9) + 2 * n9 + u64)%Q) in *.
  assert (Hte : (0 <= term_error u eta eps A B <= A * e0)%Q).
  { unfold term_error, e0.
    assert (0 <= eps * frame_bound u eta A B <= n9 * (A * (1 + u64 + n9)))%Q.
    { split; [apply Qmult_le_0_compat; lra|].
      apply Qmult_le_compat_nonneg; split; lra. }
    assert (0 <= u * (A * B) <= u64 * A)%Q.
    { split; [apply Qmult_le_0_compat; lra|].
      apply Qmult_le_compat_nonneg; split; lra. }
    lra. }
  unfold tolerance.
  pose proof (sum_tolerance_mono u (term_error u eta eps A B) (A * B) r 4
                ltac:(lra) ltac:(lra) ltac:(lra) Hr) as H1.
  pose proof (sum_tolerance_le u u64 (term_error u eta eps A B) (A * e0) (A * B) (A * 1) 4
                ltac:(lra) ltac:(lra) ltac:(lra)) as H2.
  pose proof (sum_tolerance_scale u64 e0 1 A 4) as H3.
  assert (Hd : (0 <= A * delta <= A * n9)%Q).
  { split; [apply Qmult_le_0_compat; lra|].
    apply Qmult_le_compat_nonneg; split; lra. }
  assert (He : (A * (sum_tolerance u64 e0 1 4 + n9) <= A * n6)%Q).
  { rewrite !(Qmult_comm A); apply Qmult_le_compat_r; assumption. }
  revert H1 H2 H3 Hd He.
  generalize (sum_tolerance u (term_error u eta eps A B) (A * B) r)
             (sum_tolerance u (term_error u eta eps A B) (A * B) 4)
             (sum_tolerance u64 (A * e0) (A * 1) 4)
             (sum_tolerance u64 e0 1 4).
  intros T1 T2 T3 T4 H1 H2 H3 Hd He; lra.
Qed.

(* ------------------------------------------------------------------ *)
(** ** Analysis followed by synthesis, in floating-point arithmetic *)

Section RoundTripTolerance.
Context {K : NumLib} `{!NumLibShapes K}.
Variable value : R -> Q.

Lemma padded_bound (x : list R) (W H : Z) (u eta Omega A : Q) (idx : nat) :
  float_model value u eta Omega -> (0 <= A)%Q ->
  (forall j, (j < length x)%nat -> (Qabs (value (nth j x R0)) <= A)%Q) ->
  (Qabs (value (nth idx (padded x W H) R0)) <= A)%Q.
Proof.
  intros (_ & _ & H0 & _) HA Hx.
  assert (Hzero : (Qabs (value R0) <= A)%Q)
    by (apply Qabs_Qle_condition; split; lra).
  destruct (nth_in_or_default idx (padded x W H) R0) as [Hin | Hd]; [|rewrite Hd; exact Hzero].
  revert Hin; generalize (nth idx (padded x W H) R0); intros e Hin.
  unfold padded in Hin.
  apply in_app_or in Hin; destruct Hin as [Hin|Hin];
    [apply repeat_spec in Hin; rewrite Hin; exact Hzero|].
  apply in_app_or in Hin; destruct Hin as [Hin|Hin].
  - destruct (In_nth _ _ R0 Hin) as (j & Hj & <-); now apply Hx.
  - apply in_app_or in Hin; destruct Hin as [Hin|Hin];
      apply repeat_spec in Hin; rewrite Hin; exact Hzero.
Qed.

Lemma padded_sample (x : list R) (W H j : Z) :
  0 <= W -> - (W / 2) <= j ->
  nth (Z.to_nat (W / 2 + j)) (padded x W H) R0 = sample_at x j.
Proof.
  intros HW Hj; unfold sample_at.
  assert (0 <= W / 2) by (apply Z.div_pos; lia).
  destruct (Z.ltb_spec j 0) as [Hneg|Hpos].
  - apply padded_head; lia.
  - replace (Z.to_nat (W / 2 + j)) with (Z.to_nat (W / 2) + Z.to_nat j)%nat by lia.
    apply padded_nth; exact HW.
Qed.

(** The sample of a windowed frame, as a number. *)
Lemma windowed_sample_error (a b : R) (u eta Omega A B : Q) :
  float_model value u eta Omega ->
  (Qabs (value a) <= A)%Q -> (Qabs (value b) <= B)%Q ->
  (A <= Omega)%Q -> (B <= Omega)%Q -> (A * B <= Omega)%Q ->
  (Qabs (value a * value b) <= A * B)%Q /\
  (Qabs (value (Rmul a b) - value a * value b) <= u * (A * B) + eta)%Q /\
  (Qabs (value (Rmul a b)) <= frame_bound u eta A B)%Q.
Proof.
  intros (Hu & _ & _ & _ & Hmul) Ha Hb HAO HBO HABO.
  assert (Hab : (Qabs (value a * value b) <= A * B)%Q).
  { rewrite Qabs_Qmult.
    apply Qmult_le_compat_nonneg; split;
      try apply Qabs_nonneg; assumption. }
  pose proof (Hmul a b ltac:(lra) ltac:(lra) ltac:(lra)) as Hm.
  unfold frame_bound.
  revert Hab Hm; generalize (value (Rmul a b)) (value a * value b)%Q.
  clear - Hu; intros vm P Hab Hm.
  assert (HuP : (u * Qabs P <= u * (A * B))%Q)
    by (apply Qmult_le_compat_nonneg; split; try lra; apply Qabs_nonneg).
  split; [exact Hab|]; split; [lra|].
  apply Qabs_Qle_condition in Hm, Hab; apply Qabs_Qle_condition; split; lra.
Qed.

(** A frame of the spectrogram of [e_stft], its reflection rebuilt by
    [e_istft] and transformed back, is the [resynthesis] of a windowed
    frame of the padded signal. *)
Lemma time_frame_resynthesis (x w : list R) (W H : Z) (full : ndarray2 (complex R))
  (k : nat) :
  2 <= W -> 1 <= H ->
  let U := untrimmed_stft x w W H W true in
  let S := column_slice (W / 2 / H)
             (Z.of_nat (shape1 U) - (W / 2 + tail_pad (len x) H) / H) U in
  rebuild_reflection S = Returns full ->
  (k < shape1 S)%nat ->
  let hop := Z.of_nat k + W / 2 / H in
  0 <= hop < (len (padded x W H) - W) / H + 1 /\
  time_frame full (Z.of_nat k) = resynthesis W (windowed_frame (padded x W H) w W H hop).
Proof.
  intros HW HH U S Efull Hk hop.
  assert (HW1 : 1 <= W) by lia.
  destruct (untrimmed_stft_shape x w W H W true HW1 HH HW1) as (HwsU & HU0 & HU1).
  fold U in HwsU, HU0, HU1.
  assert (HwsS : well_shaped S) by (apply column_slice_well_shaped; exact HwsU).
  destruct (tail_pad_spec (len x) H HH) as [Ht _].
  pose proof (num_blocks_nonneg x W H HW1 HH) as Hnb.
  assert (Hz : 0 <= W / 2) by (apply Z.div_pos; lia).
  assert (Hzh : 0 <= W / 2 / H) by (apply Z.div_pos; lia).
  assert (Hzt : 0 <= (W / 2 + tail_pad (len x) H) / H) by (apply Z.div_pos; lia).
  set (p := padded x W H) in *.
  assert (Hm : Z.of_nat (shape1 S) =
               Z.max 0 ((len p - W) / H + 1 - W / 2 / H - (W / 2 + tail_pad (len x) H) / H)).
  { unfold S; rewrite shape1_column_slice, HU1.
    apply trimmed_frame_count; [exact Hnb | exact Hz | exact Ht]. }
  assert (Hin : 0 <= hop < (len p - W) / H + 1) by (unfold hop; lia).
  split; [exact Hin|].
  destruct (frame_inside p W H _ HH Hin) as [F1 F2].
  unfold time_frame; rewrite Nat2Z.id.
  rewrite (rebuilt_column S full k HwsS Efull Hk).
  assert (Ecol : column k S = py_slice 0 (W / 2 + 1) (fft W (windowed_frame p w W H hop))).
  { unfold S, U, untrimmed_stft; fold p.
    rewrite (column_of_trimmed_transpose C0).
    - simpl rows.
      rewrite (nth_map_in _ _ _ 0) by (rewrite range_length; lia).
      rewrite nth_range by lia.
      unfold spectrum_frame, hop; do 3 f_equal; lia.
    - split; simpl; [now rewrite length_map, range_length|].
      apply Forall_forall; intros r Hrow; apply in_map_iff in Hrow.
      destruct Hrow as (hp & <- & _); unfold spectrum_frame.
      pose proof (stft_bins_range W true HW1) as Hb.
      rewrite py_slice_inside_length; [f_equal; lia | lia |].
      unfold len; rewrite fft_length; lia.
    - exact Hzh.
    - fold p in HU1; simpl shape1; lia.
    - simpl; lia. }
  rewrite Ecol; reflexivity.
Qed.

(** C1, as the code has it.  Take a window of an even number of samples and
    at least one hop, as many bins as the window has samples, floats that
    follow [float_model], transforms that give a frame back within
    [frame_accuracy], a window of amplitude [B] whose samples at a stride of
    one hop add up to [c] within [delta], and a signal of amplitude [A]
    small enough for the sums to stay in range.  Analysis followed by
    synthesis with [remove_padding] returns
    [frames * hop_length - (window_length - hop_length)] samples, [frames]
    being the number of frames of the spectrogram.  Sample [i] of the result
    is, within the tolerance, [c] times the sample of [x] at index
    [first + i], where [first] is [window_length - hop_length] less the
    remainder of the head pad by the hop; with a window of two hops or more
    these are samples of [x] itself.  In double precision the tolerance is
    below [1e-6] times the amplitude. *)
Theorem round_trip_interior (x w : list R) (W H : Z) (wt : string) (n : option Z)
  (u eta Omega eps Mmax c delta A B : Q) :
  float_model value u eta Omega -> frame_accuracy value W eps eta Mmax ->
  2 <= W -> W mod 2 = 0 -> 1 <= H <= W -> resolved_n_fft_bins W n = W ->
  make_window wt W = Returns (Some w) -> length w = Z.to_nat W ->
  (forall j, (j < Z.to_nat W)%nat -> (Qabs (value (nth j w R0)) <= B)%Q) ->
  cola_within value w H c delta ->
  (0 <= A)%Q ->
  (forall j, (j < length x)%nat -> (Qabs (value (nth j x R0)) <= A)%Q) ->
  let r := overlap_count W H 0 in
  (A <= Omega)%Q -> (B <= Omega)%Q ->
  (frame_bound u eta A B <= Mmax)%Q -> (largest_sum u eta eps A B r <= Omega)%Q ->
  let frames := kept_frames (len x) W H in
  let first := W - H - (W / 2) mod H in
  exists y,
    round_trip x W H wt n true = Returns y /\
    len y = Z.max 0 (frames * H - (W - H)) /\
    forall i : nat, Z.of_nat i < len y ->
      let err := Qabs (value (nth i y R0) - c * value (sample_at x (first + Z.of_nat i))) in
      (2 * H <= W -> 0 <= first + Z.of_nat i < len x) /\
      (err <= tolerance u eta eps delta A B r)%Q /\
      ((u <= 1 # 9007199254740992)%Q -> (eta <= A * (1 # 1000000000))%Q ->
       (eps <= 1 # 1000000000)%Q -> (delta <= 1 # 1000000000)%Q -> (B <= 1)%Q ->
       (r <= 4)%nat -> (err <= A * (1 # 1000000))%Q).
Proof.
  intros Hfm Hacc HW2 Heven HH Hres Hmw Hw HB Hcola HA Hx r HAO HBO HMmax Hlarge frames first.
  assert (HW1 : 1 <= W) by lia.
  assert (HH1 : 1 <= H) by lia.
  pose proof (len_nonneg x) as HL.
  assert (Hz2 : W = 2 * (W / 2)) by (apply Z.div_exact in Heven; lia).
  assert (Hz1 : 1 <= W / 2) by lia.
  pose proof (Z.mod_pos_bound (W / 2) H ltac:(lia)) as Hrho.
  pose proof (Z.mod_le (W / 2) H ltac:(lia) ltac:(lia)) as Hrho'.
  destruct (tail_pad_spec (len x) H HH1) as [Ht Htmod].
  (* the spectrogram *)
  destruct (untrimmed_stft_shape x w W H W true HW1 HH1 HW1) as (HwsU & HU0 & HU1).
  set (U := untrimmed_stft x w W H W true) in *.
  set (S := column_slice (W / 2 / H)
              (Z.of_nat (shape1 U) - (W / 2 + tail_pad (len x) H) / H) U).
  assert (Estft : e_stft x W H wt n true = Returns S).
  { rewrite e_stft_resolved, Hres by exact HW1.
    rewrite (e_stft_valid x w W H W wt true HW1 HH1 HW1 Hmw Hw); reflexivity. }
  assert (HwsS : well_shaped S) by (apply column_slice_well_shaped; exact HwsU).
  assert (HS0 : Z.of_nat (shape0 S) = W / 2 + 1)
    by (unfold S; rewrite shape0_column_slice; exact HU0).
  set (p := padded x W H) in *.
  pose proof (num_blocks_nonneg x W H HW1 HH1) as Hnb; fold p in Hnb.
  set (m := shape1 S).
  assert (Hm : Z.of_nat m = frames).
  { unfold m, S; rewrite shape1_column_slice, HU1.
    rewrite trimmed_frame_count; [| exact Hnb | lia | exact Ht].
    unfold frames, kept_frames, p; rewrite len_padded by lia; reflexivity. }
  assert (Hinside : 2 * H <= W -> 0 < Z.of_nat m -> Z.of_nat m * H <= len x).
  { intros Hov; rewrite Hm; unfold frames, kept_frames; cbv zeta.
    apply kept_frames_inside; assumption. }
  (* the full spectrum *)
  destruct (rebuild_reflection S) as [full|e] eqn:Efull;
    [|rewrite rebuild_reflection_returns in Efull; discriminate].
  destruct (rebuild_reflection_well_shaped S full HwsS Efull) as (Hwf & Hf1 & Hf0 & _).
  assert (HfW : Z.of_nat (shape0 full) = W) by lia.
  (* the buffer *)
  set (h := Z.to_nat H).
  set (Wn := Z.to_nat W).
  set (total := (Z.of_nat m - 1) * H + W).
  assert (HmH : 0 <= Z.of_nat m * H) by (apply Z.mul_nonneg_nonneg; lia).
  assert (Htotal : 0 <= total) by (unfold total; lia).
  destruct (overlap_add_loop full W H (range (Z.of_nat m)) (repeat R0 (Z.to_nat total))
              Hwf HW1 HfW) as [Eloop Elen].
  { intros k Hk; apply in_range in Hk; rewrite Hf1, len_repeat; fold m.
    destruct (hop_fits (Z.of_nat m) k H W Hk HH1) as [G1 G2].
    unfold total; lia. }
  set (Bf := accumulate full H (range (Z.of_nat m)) (repeat R0 (Z.to_nat total))) in *.
  assert (Eistft : e_istft S W H wt true true =
                   Returns (py_slice (W - H) (total - (W - H)) Bf)).
  { unfold e_istft, overlap_add, np_zeros; fold m; fold total.
    destruct (total <? 0) eqn:E; [lia|]; cbn [bind].
    rewrite Efull; cbn [bind]; rewrite Eloop; reflexivity. }
  assert (HlenB : len Bf = total)
    by (unfold len; rewrite Elen, repeat_length; lia).
  assert (Hstop : total - (W - H) = Z.of_nat m * H) by (unfold total; lia).
  exists (py_slice (W - H) (total - (W - H)) Bf).
  split; [unfold round_trip; rewrite Estft; exact Eistft|].
  rewrite Hstop.
  assert (Hleny : len (py_slice (W - H) (Z.of_nat m * H) Bf) =
                  Z.max 0 (Z.of_nat m * H - (W - H))).
  { unfold len at 1; rewrite py_slice_length, HlenB.
    unfold clamp_index.
    destruct (Z.of_nat m * H <? 0) eqn:E1; [lia|].
    destruct (W - H <? 0) eqn:E2; [lia|].
    unfold total; lia. }
  split; [rewrite Hleny, Hm; reflexivity|].
  intros i Hi; rewrite Hleny in Hi.
  destruct (position_inside m i H W HH Hi) as (Htm & Hth & Htt & Hmpos & Hi').
  fold h in Htm; fold h Wn in Hth; fold total in Htt.
  split.
  { intros Hov; specialize (Hinside Hov Hmpos); unfold first; lia. }
  (* the sample of the buffer *)
  set (t := (Z.to_nat (W - H) + i)%nat) in *.
  assert (Hh1 : (1 <= h)%nat) by (unfold h; lia).
  assert (HhW : (h <= Wn)%nat) by (unfold h, Wn; lia).
  assert (Hnth : nth i (py_slice (W - H) (Z.of_nat m * H) Bf) R0 = nth t Bf R0).
  { apply nth_py_slice; lia. }
  rewrite Hnth.
  destruct (accumulate_nth (time_frame full) H h Wn m (Z.to_nat total)) with (k := m)
    as [_ Hval].
  { unfold h; lia. }
  { intros k Hk; rewrite time_frame_length by (try exact Hwf; lia); unfold Wn; lia. }
  { intros k Hk; apply frames_fit; assumption. }
  { lia. }
  specialize (Hval t Htt).
  fold (accumulate full H (range (Z.of_nat m)) (repeat R0 (Z.to_nat total))) in Hval.
  fold Bf in Hval.
  rewrite (nth_error_nth _ _ _ Hval).
  (* the frames that cover it *)
  destruct (overlap_index h Wn t Hh1 HhW Hth) as (Htq & Hi0 & HJq & Hidx & Hqm).
  specialize (Hqm m Htm).
  set (q := (t / h)%nat) in *.
  set (i0 := (t mod h)%nat) in *.
  set (J := ((Wn - 1 - i0) / h)%nat) in *.
  rewrite (fold_left_window _ (fun k => covers h Wn k t) (q - J) (J + 1) m); [|lia|].
  2:{ intros k Hk; pose proof (covers_iff h Wn q i0 k Hh1 HhW Hi0) as Hc.
      cbv zeta in Hc; fold J in Hc; rewrite Htq in Hc; exact (Hc HJq). }
  (* each of them holds the sample of the signal times a sample of the window *)
  set (sx := sample_at x (first + Z.of_nat i)).
  assert (Hsx : forall k : nat, (q - J <= k <= q)%nat ->
            nth (Z.to_nat ((Z.of_nat k + W / 2 / H) * H) + (t - k * h)) p R0 = sx).
  { intros k Hk.
    destruct (Hidx k Hk) as (Hk1 & Hk2 & Hk3).
    unfold t, h; rewrite frame_sample_index; [| exact HH | lia |].
    - apply padded_sample; unfold first; lia.
    - fold h; fold t; exact Hk3. }
  assert (HsA : (Qabs (value sx) <= A)%Q).
  { rewrite <- (Hsx q ltac:(lia)); apply (padded_bound x W H u eta Omega); assumption. }
  assert (HB0 : (0 <= B)%Q).
  { eapply Qle_trans; [apply Qabs_nonneg | apply (HB 0%nat); lia]. }
  destruct Hfm as (Hu & Heta & Hv0 & Hadd & Hmul).
  assert (Hfm : float_model value u eta Omega) by (repeat split; assumption).
  destruct Hacc as [Heps Hacc].
  destruct Hcola as [Hdelta Hcola].
  assert (HAB : (0 <= A * B)%Q) by (apply Qmult_le_0_compat; assumption).
  assert (Hfb0 : (0 <= frame_bound u eta A B)%Q).
  { unfold frame_bound.
    assert (0 <= (1 + u) * (A * B))%Q by (apply Qmult_le_0_compat; lra).
    lra. }
  set (E := term_error u eta eps A B).
  assert (HE : (0 <= E)%Q).
  { unfold E, term_error.
    assert (0 <= eps * frame_bound u eta A B)%Q by (apply Qmult_le_0_compat; assumption).
    assert (0 <= u * (A * B))%Q by (apply Qmult_le_0_compat; assumption).
    lra. }
  (* the window samples that meet there *)
  assert (Hcnt : overlap_count W H (Z.to_nat (Z.of_nat i0)) = (J + 1)%nat).
  { unfold overlap_count, J, Wn, h; rewrite Nat2Z.id.
    rewrite Z2Nat.inj_add, Z2Nat.inj_div by (try apply Z.div_pos; lia).
    f_equal; f_equal; lia. }
  rewrite Nat2Z.id in Hcnt.
  assert (Hr : (J + 1 <= r)%nat).
  { rewrite <- Hcnt; unfold r, overlap_count.
    assert (0 <= (W - 1 - Z.of_nat i0) / H) by (apply Z.div_pos; lia).
    assert ((W - 1 - Z.of_nat i0) / H <= (W - 1 - Z.of_nat 0) / H)
      by (apply Z.div_le_mono; lia).
    lia. }
  pose proof (sum_tolerance_mono u E (A * B) (J + 1) r Hu HE HAB Hr) as Hmono.
  pose proof (sum_tolerance_nonneg u E (A * B) (J + 1) Hu HE HAB) as HT0.
  assert (Hrange : (inject_Z (Z.of_nat (J + 1)) * (A * B)
                    + sum_tolerance u E (A * B) (J + 1) <= Omega)%Q).
  { unfold largest_sum in Hlarge; fold E in Hlarge.
    pose proof (inject_nat_le _ _ Hr) as Hle.
    pose proof (inject_nat_nonneg (J + 1)) as Hj0.
    assert (inject_Z (Z.of_nat (J + 1)) * (A * B) <= inject_Z (Z.of_nat r) * (A * B))%Q
      by (apply Qmult_le_compat_r; assumption).
    lra. }
  assert (HABO : (A * B <= Omega)%Q).
  { assert (1 <= inject_Z (Z.of_nat (J + 1)))%Q
      by (change 1%Q with (inject_Z 1); rewrite <- Zle_Qle; lia).
    assert (1 * (A * B) <= inject_Z (Z.of_nat (J + 1)) * (A * B))%Q
      by (apply Qmult_le_compat_r; assumption).
    lra. }
  destruct (float_sum_error value u eta Omega E (A * B) (value sx)
              (fun k => nth (t - k * h) (time_frame full (Z.of_nat k)) R0)
              (fun k => value (nth (t - k * h) w R0))
              (seq (q - J) (J + 1)) Hfm HE HAB) as [Hsum _].
  { rewrite length_seq; exact Hrange. }
  { intros k Hk; apply in_seq in Hk.
    destruct (Hidx k ltac:(lia)) as (Hk1 & _ & _).
    assert (Hkm : (k < m)%nat) by lia.
    destruct (time_frame_resynthesis x w W H full k HW2 HH1 Efull Hkm) as [Hin Efr].
    fold p in Hin, Efr.
    destruct (frame_inside p W H _ HH1 Hin) as [F1 F2].
    set (v := windowed_frame p w W H (Z.of_nat k + W / 2 / H)) in *.
    assert (Hvn : forall j, (j < Wn)%nat ->
              nth j v R0 =
              Rmul (nth (Z.to_nat ((Z.of_nat k + W / 2 / H) * H) + j) p R0) (nth j w R0))
      by (intros j Hj; apply windowed_frame_nth; assumption).
    assert (Hvl : length v = Z.to_nat W) by (apply windowed_frame_length; lia).
    assert (Hres2 : (Qabs (value (nth (t - k * h) (resynthesis W v) R0)
                           - value (nth (t - k * h) v R0))
                     <= eps * frame_bound u eta A B + eta)%Q).
    { apply (Hacc v (frame_bound u eta A B) Hvl); [|exact HMmax|exact Hk1].
      intros j Hj; rewrite Hvn by exact Hj.
      apply (windowed_sample_error _ _ u eta Omega A B Hfm); try assumption;
        [apply (padded_bound x W H u eta Omega); assumption | apply HB; exact Hj]. }
    rewrite Efr.
    rewrite (Hvn _ Hk1), (Hsx k ltac:(lia)) in Hres2.
    destruct (windowed_sample_error sx (nth (t - k * h) w R0) u eta Omega A B Hfm HsA
                (HB _ Hk1) HAO HBO HABO) as (Hab & Hm1 & _).
    split; [|exact Hab].
    unfold E, term_error.
    apply Qabs_Qle_condition in Hres2, Hm1; apply Qabs_Qle_condition.
    clear - Hres2 Hm1; split; lra. }
  rewrite length_seq in Hsum.
  assert (Hwsum : (sumQ (map (fun k => value (nth (t - k * h) w R0)) (seq (q - J) (J + 1)))
                   == overlapped_window value w H i0)%Q).
  { unfold overlapped_window.
    replace (len w) with W by (unfold len; lia).
    rewrite Hcnt; fold h.
    rewrite <- (sumQ_rev_index (fun j => value (nth (i0 + j * h) w R0)) (J + 1) (q - J) q)
      by lia.
    rewrite (sumQ_map_ext (fun k => value (nth (t - k * h) w R0))
               (fun k => value (nth (i0 + (q - k) * h) w R0))); [reflexivity|].
    intros k Hk; apply in_seq in Hk; do 2 f_equal; apply Hidx; lia. }
  pose proof (Hcola i0 Hi0) as Hc0.
  assert (Herr : (Qabs (value (fold_left
                    (fun acc k => Radd acc (nth (t - k * h) (time_frame full (Z.of_nat k)) R0))
                    (seq (q - J) (J + 1)) R0) - c * value sx)
                  <= tolerance u eta eps delta A B r)%Q).
  { unfold tolerance; fold E.
    revert Hsum Hwsum Hc0 Hmono HsA.
    generalize (sum_tolerance u E (A * B) r).
    generalize (sum_tolerance u E (A * B) (J + 1)).
    generalize (sumQ (map (fun k => value (nth (t - k * h) w R0)) (seq (q - J) (J + 1)))).
    generalize (overlapped_window value w H i0).
    generalize (value (fold_left
                  (fun acc k => Radd acc (nth (t - k * h) (time_frame full (Z.of_nat k)) R0))
                  (seq (q - J) (J + 1)) R0)).
    generalize (value sx).
    clear - HA Hdelta.
    intros s vb Ov Sg T1 T2 Hsum Hwsum Hc0 Hmono HsA.
    assert (Hprod : (Qabs (s * (Ov - c)) <= A * delta)%Q).
    { rewrite Qabs_Qmult.
      apply Qmult_le_compat_nonneg; split; try apply Qabs_nonneg; assumption. }
    assert (Heq : (s * Sg == s * Ov)%Q) by (rewrite Hwsum; reflexivity).
    apply Qabs_Qle_condition in Hsum, Hprod; apply Qabs_Qle_condition; split; lra. }
  cbv zeta; split; [exact Herr|].
  intros Hu' Heta' Heps' Hdelta' HB' Hr'.
  assert (Htol : (tolerance u eta eps delta A B r <= A * (1 # 1000000))%Q).
  { apply tolerance_double_precision; try (split; assumption); assumption. }
  revert Herr Htol; clear; intros Herr Htol.
  exact (Qle_trans _ _ _ Herr Htol).
Qed.

End RoundTripTolerance.

(* ------------------------------------------------------------------ *)
(** ** The exact library as a floating-point library without rounding *)

(** [ExactLib] computes without rounding. *)
Lemma ExactLib_float_model (Omega : Q) : @float_model ExactLib exact_value 0 0 Omega.
Proof.
  split; [apply Qle_refl|]; split; [apply Qle_refl|]; split; [reflexivity|].
  split; intros a b _ _ _.
  - change (Qabs (Qred (this a + this b) - (this a + this b))
            <= 0 * Qabs (this a + this b))%Q.
    rewrite Qred_correct.
    apply Qabs_Qle_condition; split; lra.
  - change (Qabs (Qred (this a * this b) - this a * this b)
            <= 0 * Qabs (this a * this b) + 0)%Q.
    rewrite Qred_correct.
    apply Qabs_Qle_condition; split; lra.
Qed.

Lemma ExactLib_frame_accuracy4 (Mmax : Q) : @frame_accuracy ExactLib exact_value 4 0 0 Mmax.
Proof.
  split; [apply Qle_refl|].
  intros v M Hv HM _ i _.
  assert (E : @resynthesis ExactLib 4 v = v).
  { unfold resynthesis.
    rewrite (@hermitian_rebuild ExactLib _ v 4 2 ExactLib_dft4 ltac:(lia) eq_refl Hv).
    exact (proj2 ExactLib_dft4 v Hv). }
  rewrite E.
  assert (0 <= M)%Q.
  { eapply Qle_trans; [apply Qabs_nonneg | apply (HM 0%nat); simpl; lia]. }
  apply Qabs_Qle_condition; split; lra.
Qed.

(** The periodic Hann window of four samples, [0, 1/2, 1, 1/2], and the
    periodic Hamming window, [2/25, 27/50, 1, 27/50]: at most one, and
    adding up to [1] and to [27/25] at a stride of two samples. *)
Lemma ExactLib_windows4 :
  (forall j, (j < 4)%nat -> (Qabs (exact_value (nth j (@hann ExactLib 4) 0%Qc)) <= 1)%Q) /\
  @cola_within ExactLib exact_value (@hann ExactLib 4) 2 1 0 /\
  (forall j, (j < 4)%nat -> (Qabs (exact_value (nth j (@hamming ExactLib 4) 0%Qc)) <= 1)%Q) /\
  @cola_within ExactLib exact_value (@hamming ExactLib 4) 2 (27 # 25) 0.
Proof.
  split; [|split; [|split]].
  - intros j Hj; destruct j as [|[|[|[|j]]]]; [| | | |lia];
      apply Qle_bool_imp_le; vm_compute; reflexivity.
  - split; [apply Qle_refl|]; intros i Hi; change (Z.to_nat 2) with 2%nat in Hi.
    destruct i as [|[|i]]; [| |lia]; apply Qle_bool_imp_le; vm_compute; reflexivity.
  - intros j Hj; destruct j as [|[|[|[|j]]]]; [| | | |lia];
      apply Qle_bool_imp_le; vm_compute; reflexivity.
  - split; [apply Qle_refl|]; intros i Hi; change (Z.to_nat 2) with 2%nat in Hi.
    destruct i as [|[|i]]; [| |lia]; apply Qle_bool_imp_le; vm_compute; reflexivity.
Qed.

Lemma samples_bound :
  forall j, (j < 8)%nat ->
    (Qabs (exact_value (nth j (ExactQ.samples [1; 2; 3; 4; 5; 6; 7; 8]%Z) 0%Qc)) <= 8)%Q.
Proof.
  intros j Hj; do 8 (destruct j as [|j]; [apply Qle_bool_imp_le; vm_compute; reflexivity|]).
  lia.
Qed.

(** Eight samples, windows of 4 and a hop of 2, in exact arithmetic: what
    comes back is the four samples in the middle with the Hann window, and
    the same four samples times [27/25] with the Hamming window. *)
Lemma round_trip_interior_witness :
  let x := ExactQ.samples [1; 2; 3; 4; 5; 6; 7; 8] in
  (exists y,
     @round_trip ExactLib x 4 2 HANN (Some 4) true = Returns y /\ len y = 4 /\
     forall i : nat, Z.of_nat i < len y ->
       0 <= 2 + Z.of_nat i < len x /\
       (Qabs (exact_value (nth i y 0%Qc) - 1 * exact_value (@sample_at ExactLib x (2 + Z.of_nat i)))
          <= 0)%Q) /\
  (exists y,
     @round_trip ExactLib x 4 2 HAMMING (Some 4) true = Returns y /\ len y = 4 /\
     forall i : nat, Z.of_nat i < len y ->
       0 <= 2 + Z.of_nat i < len x /\
       (Qabs (exact_value (nth i y 0%Qc)
              - (27 # 25) * exact_value (@sample_at ExactLib x (2 + Z.of_nat i))) <= 0)%Q).
Proof.
  intros x.
  destruct ExactLib_windows4 as (Hb1 & Hc1 & Hb2 & Hc2).
  assert (Hzero : (tolerance 0 0 0 0 8 1 (overlap_count 4 2 0) <= 0)%Q)
    by (apply Qle_bool_imp_le; vm_compute; reflexivity).
  split.
  - destruct (@round_trip_interior ExactLib _ exact_value x (@hann ExactLib 4) 4 2 HANN
                (Some 4) 0 0 1000 0 1000 1 0 8 1
                (ExactLib_float_model 1000) (ExactLib_frame_accuracy4 1000)
                ltac:(lia) eq_refl ltac:(lia) eq_refl eq_refl eq_refl Hb1 Hc1
                ltac:(discriminate) samples_bound
                ltac:(discriminate) ltac:(discriminate)
                ltac:(apply Qle_bool_imp_le; vm_compute; reflexivity)
                ltac:(apply Qle_bool_imp_le; vm_compute; reflexivity))
      as (y & E & Hl & Hs).
    exists y; split; [exact E|]; split; [exact Hl|].
    intros i Hi; destruct (Hs i Hi) as (Hin & Herr & _).
    split; [exact (Hin ltac:(lia))|].
    exact (Qle_trans _ _ _ Herr Hzero).
  - destruct (@round_trip_interior ExactLib _ exact_value x (@hamming ExactLib 4) 4 2 HAMMING
                (Some 4) 0 0 1000 0 1000 (27 # 25) 0 8 1
                (ExactLib_float_model 1000) (ExactLib_frame_accuracy4 1000)
                ltac:(lia) eq_refl ltac:(lia) eq_refl eq_refl eq_refl Hb2 Hc2
                ltac:(discriminate) samples_bound
                ltac:(discriminate) ltac:(discriminate)
                ltac:(apply Qle_bool_imp_le; vm_compute; reflexivity)
                ltac:(apply Qle_bool_imp_le; vm_compute; reflexivity))
      as (y & E & Hl & Hs).
    exists y; split; [exact E|]; split; [exact Hl|].
    intros i Hi; destruct (Hs i Hi) as (Hin & Herr & _).
    split; [exact (Hin ltac:(lia))|].
    exact (Qle_trans _ _ _ Herr Hzero).
Defined.

(** C1, as the claim has it, fails: of the eight samples of [x] the round
    trip with [remove_padding] returns four, the first of which is the
    third sample of [x]; and with the Hamming window, whose halves add up
    to [27/25], it returns these four samples times [27/25]. *)
Lemma round_trip_counterexample :
  let x := ExactQ.samples [1; 2; 3; 4; 5; 6; 7; 8] in
  let y := ExactQ.samples [3; 4; 5; 6] in
  @round_trip ExactLib x 4 2 HANN (Some 4) true = Returns y /\
  length y <> length x /\
  nth 0 y 0%Qc <> nth 0 x 0%Qc /\
  exists y',
    @round_trip ExactLib x 4 2 HAMMING (Some 4) true = Returns y' /\
    map this y' = [81 # 25; 108 # 25; 27 # 5; 162 # 25]%Q /\
    map this y <> map this y'.
Proof.
  split; [vm_compute; reflexivity|]; split; [|split].
  - vm_compute; discriminate.
  - intros E; apply (f_equal this) in E; vm_compute in E; discriminate E.
  - eexists; split; [vm_compute; reflexivity|].
    split; [vm_compute; reflexivity | vm_compute; discriminate].
Qed.

(* ================================================================== *)
(** * Further properties *)

(** ** The round trip on full spectra *)

Lemma column_of_transpose {A : Type} (d : A) (a : ndarray2 A) (n : nat) :
  well_shaped a -> (n < shape0 a)%nat ->
  column n (transpose a) = nth n (rows a) [].
Proof.
  intros Hws Hn.
  rewrite (column_as_map d) by (try apply transpose_well_shaped; simpl; assumption).
  simpl rows; rewrite map_map.
  rewrite <- (map_nth_seq d (nth n (rows a) [])).
  rewrite nth_row_length by assumption.
  apply map_ext_in; intros i Hi; apply in_seq in Hi.
  rewrite (column_as_map d) by (try exact Hws; lia).
  apply (nth_map_in (fun r : list A => nth i r d)); destruct Hws as [Hr _]; lia.
Qed.

Lemma firstn_repeat_app {A : Type} (a : A) (n m : nat) :
  (n <= m)%nat -> firstn n (repeat a m ++ repeat a n) = repeat a n.
Proof.
  intros H; rewrite firstn_app, repeat_length.
  replace (n - m)%nat with 0%nat by lia; simpl; rewrite app_nil_r.
  replace m with (n + (m - n))%nat by lia.
  rewrite repeat_app, firstn_app, repeat_length, Nat.sub_diag, firstn_all2
    by (rewrite repeat_length; lia).
  simpl; apply app_nil_r.
Qed.

Section FullRoundTrip.
Context {K : NumLib} `{!NumLibShapes K} `{!ExactArithmetic K}.

(** X1.  In exact arithmetic, with a window of two hops whose halves add up
    to one and as many bins as the window has samples: [e_stft] with
    [remove_reflection=False] followed by [e_istft] with
    [reconstruct_reflection=False] and [remove_padding=True] returns the
    signal, followed by the zeros of the tail pad. *)
Theorem round_trip_full_spectrum (x w : list R) (W H : Z) (wt : string) (n : option Z) :
  exact_dft W -> 1 <= H -> W = 2 * H -> resolved_n_fft_bins W n = W ->
  make_window wt W = Returns (Some w) -> length w = Z.to_nat W -> cola w H ->
  round_trip_full x W H wt n true =
    Returns (x ++ repeat R0 (Z.to_nat (tail_pad (len x) H))).
Proof.
  intros Hdft HH HW Hres Hmw Hw Hcola.
  assert (HW1 : 1 <= W) by lia.
  assert (Hhalf : W / 2 = H) by (subst W; rewrite Z.mul_comm, Z.div_mul; lia).
  pose proof (len_nonneg x) as HL.
  destruct (tail_pad_spec (len x) H HH) as [Ht _].
  destruct (hops_over_signal (len x) H HL HH) as (Hq0 & Hq & _).
  set (q := (len x + tail_pad (len x) H) / H) in *.
  unfold round_trip_full.
  rewrite e_stft_resolved, Hres by exact HW1.
  rewrite (e_stft_valid x w W H W wt false HW1 HH HW1 Hmw Hw); simpl bind.
  destruct (untrimmed_stft_shape x w W H W false HW1 HH HW1) as (HwsU & HU0 & HU1).
  set (U := untrimmed_stft x w W H W false) in *.
  set (p := padded x W H) in *.
  assert (Hlenp : len p = (q + 2) * H)
    by (unfold p; rewrite len_padded, Hhalf by lia; lia).
  set (m := shape1 U) in *.
  assert (Hm : Z.of_nat m = q + 1).
  { rewrite HU1, Hlenp.
    replace ((q + 2) * H - W) with (q * H) by lia.
    rewrite Z.div_mul by lia; reflexivity. }
  assert (Hframe : forall k : nat, (k < m)%nat ->
            time_frame U (Z.of_nat k) = windowed_frame p w W H (Z.of_nat k)).
  { intros k Hk.
    assert (Hin : 0 <= Z.of_nat k < (len p - W) / H + 1) by lia.
    destruct (frame_inside p W H _ HH Hin) as [F1 F2].
    unfold time_frame; rewrite Nat2Z.id.
    assert (Ecol : column k U = fft W (windowed_frame p w W H (Z.of_nat k))).
    { unfold U, untrimmed_stft; fold p.
      rewrite (column_of_transpose C0).
      - simpl rows.
        rewrite (nth_map_in _ _ _ 0) by (rewrite range_length; lia).
        rewrite nth_range by lia.
        unfold spectrum_frame.
        rewrite py_slice_inside by (try (unfold len; rewrite fft_length by lia); lia).
        simpl skipn; apply firstn_all2; rewrite fft_length; lia.
      - split; simpl; [now rewrite length_map, range_length|].
        apply Forall_forall; intros r Hr; apply in_map_iff in Hr.
        destruct Hr as (hop & <- & _); unfold spectrum_frame.
        rewrite py_slice_inside_length; [f_equal; lia | lia |].
        unfold len; rewrite fft_length; lia.
      - simpl; lia. }
    rewrite Ecol; apply (proj2 Hdft), windowed_frame_length; lia. }
  set (h := Z.to_nat H).
  set (total := (Z.of_nat m - 1) * H + W).
  assert (Htotal : Z.to_nat total = ((m + 1) * h)%nat) by (unfold total, h; nia).
  destruct (overlap_add_loop U W H (range (Z.of_nat m)) (repeat R0 (Z.to_nat total))
              HwsU HW1 HU0) as [Eloop Elen].
  { intros k Hk; apply in_range in Hk; rewrite len_repeat; unfold total; nia. }
  set (B := accumulate U H (range (Z.of_nat m)) (repeat R0 (Z.to_nat total))) in *.
  assert (Eistft : e_istft U W H wt false true =
                   Returns (py_slice (W - H) (total - (W - H)) B)).
  { unfold e_istft, overlap_add, np_zeros; fold m; fold total.
    destruct (total <? 0) eqn:E; [unfold total in E; nia|]; simpl bind.
    rewrite Eloop; reflexivity. }
  rewrite Eistft; f_equal.
  replace (W - H) with H by lia.
  replace (total - H) with (Z.of_nat m * H) by (unfold total; lia).
  destruct (fold_frames_invariant (time_frame U) H h m (fun t => nth t p R0))
    with (k := m) as (I1 & _ & _ & I4).
  - unfold h; lia.
  - intros k Hk; rewrite time_frame_length by (try exact HwsU; lia); unfold h; lia.
  - intros k i Hk Hi.
    rewrite !Hframe by lia.
    assert (Hin1 : 0 <= Z.of_nat (k - 1) < (len p - W) / H + 1) by lia.
    assert (Hin2 : 0 <= Z.of_nat k < (len p - W) / H + 1) by lia.
    destruct (frame_inside p W H _ HH Hin1) as [F1 F2].
    destruct (frame_inside p W H _ HH Hin2) as [G1 G2].
    rewrite !windowed_frame_nth by (try assumption; unfold h; lia).
    replace (Z.to_nat (Z.of_nat (k - 1) * H) + (h + i))%nat
      with (k * h + i)%nat by (unfold h; nia).
    replace (Z.to_nat (Z.of_nat k * H) + i)%nat with (k * h + i)%nat by (unfold h; nia).
    rewrite Radd_0_l, Rmul_add_distr.
    unfold h; rewrite (Hcola i Hi), Rmul_1_r; reflexivity.
  - lia.
  - fold (accumulate U H (range (Z.of_nat m)) (repeat R0 ((m + 1) * h))) in I1, I4.
    rewrite <- Htotal in I1, I4; fold B in I1, I4.
    assert (HmB : Z.of_nat m * H <= len B) by (unfold len; rewrite I1; unfold total; nia).
    assert (HHm : H <= Z.of_nat m * H) by nia.
    rewrite (py_slice_inside H _ B) by lia.
    transitivity (firstn (Z.to_nat (Z.of_nat m * H - H)) (skipn (Z.to_nat H) p)).
    + apply nth_error_ext; intros i.
      rewrite !nth_error_firstn.
      destruct (Nat.ltb_spec i (Z.to_nat (Z.of_nat m * H - H))) as [Hi|_]; [|reflexivity].
      rewrite !nth_error_skipn; fold h.
      rewrite I4 by (unfold h in *; nia).
      symmetry; apply nth_error_nth'; unfold len, h in *; nia.
    + unfold p, padded; rewrite Hhalf.
      rewrite skipn_app, repeat_length, Nat.sub_diag, skipn_all2 by (rewrite repeat_length; lia).
      simpl.
      replace (Z.to_nat (Z.of_nat m * H - H))
        with (length x + Z.to_nat (tail_pad (len x) H))%nat by (unfold len in *; nia).
      rewrite firstn_app_2; f_equal.
      apply firstn_repeat_app; lia.
Qed.

End FullRoundTrip.

(** Five samples, a Hann window of 4 and a hop of 2: the five samples come
    back, followed by the zero of the tail pad. *)
Lemma round_trip_full_spectrum_witness :
  @round_trip_full ExactLib (ExactQ.samples [1; 2; 3; 4; 5]) 4 2 HANN (Some 4) true =
    Returns (ExactQ.samples [1; 2; 3; 4; 5; 0]).
Proof.
  rewrite (@round_trip_full_spectrum ExactLib _ _
             (ExactQ.samples [1; 2; 3; 4; 5]) (@hann ExactLib 4) 4 2 HANN (Some 4)
             ExactLib_dft4 ltac:(lia) eq_refl eq_refl eq_refl eq_refl ExactLib_hann4_cola).
  reflexivity.
Defined.

(* ------------------------------------------------------------------ *)
(** ** The round trip of the docstring *)

Section TaperedRoundTrip.
Context {K : NumLib} `{!NumLibShapes K} `{!ExactArithmetic K}.

(** The first hop of the buffer holds the first half of the first frame. *)
Lemma fold_frames_head (fr : Z -> list R) (H : Z) (h m : nat) :
  H = Z.of_nat h ->
  (forall k : nat, (k < m)%nat -> length (fr (Z.of_nat k)) = (2 * h)%nat) ->
  forall k : nat, (k <= m)%nat ->
    let B := fold_left (fun b n => add_frame b (Z.to_nat (n * H)) (fr n))
                       (range (Z.of_nat k)) (repeat R0 ((m + 1) * h)) in
    length B = ((m + 1) * h)%nat /\
    ((1 <= k)%nat -> forall t, (t < h)%nat ->
       nth_error B t = Some (Radd R0 (nth t (fr 0) R0))).
Proof.
  intros HH Hlen.
  induction k as [|k IH]; intros Hk B.
  - unfold B; simpl; split; [apply repeat_length | intros Hk1; lia].
  - specialize (IH ltac:(lia)); cbv zeta in IH; destruct IH as (I1 & I2).
    unfold B; rewrite range_snoc, fold_left_app; simpl fold_left.
    set (B0 := fold_left (fun b n => add_frame b (Z.to_nat (n * H)) (fr n))
                 (range (Z.of_nat k)) (repeat R0 ((m + 1) * h))) in *.
    replace (Z.to_nat (Z.of_nat k * H)) with (k * h)%nat by (subst H; lia).
    pose proof (Hlen k ltac:(lia)) as Hf.
    assert (Hfit : (k * h + length (fr (Z.of_nat k)) <= length B0)%nat)
      by (rewrite Hf, I1; nia).
    split; [rewrite add_frame_length; assumption|].
    intros _ t Ht.
    destruct k as [|k].
    + rewrite (add_frame_nth_inside _ _ _ _ R0); [| exact Hfit | rewrite Hf; lia |].
      * rewrite Nat.sub_0_r; reflexivity.
      * unfold B0; simpl; apply nth_error_repeat; nia.
    + rewrite add_frame_nth_outside; [apply I2; lia | exact Hfit | left; nia].
Qed.

(** The spectrogram of a window of two hops, its rebuilt spectra and the
    frames they transform back to. *)
Lemma half_overlap_analysis (x w : list R) (W H : Z) (wt : string) (n : option Z) :
  exact_dft W -> 1 <= H -> W = 2 * H -> resolved_n_fft_bins W n = W ->
  make_window wt W = Returns (Some w) -> length w = Z.to_nat W ->
  exists S full,
    e_stft x W H wt n true = Returns S /\ well_shaped S /\
    rebuild_reflection S = Returns full /\ well_shaped full /\
    Z.of_nat (shape0 full) = W /\ shape1 full = shape1 S /\
    Z.of_nat (shape1 S) = kept_frames (len x) W H /\
    Z.of_nat (shape1 S) = Z.max 0 ((len (padded x W H) - W) / H + 1 - 2) /\
    forall k : nat, (k < shape1 S)%nat ->
      time_frame full (Z.of_nat k) = windowed_frame (padded x W H) w W H (Z.of_nat k + 1).
Proof.
  intros Hdft HH HW Hres Hmw Hw.
  assert (HW1 : 1 <= W) by lia.
  assert (Hhalf : W / 2 = H) by (subst W; rewrite Z.mul_comm, Z.div_mul; lia).
  pose proof (len_nonneg x) as HL.
  destruct (tail_pad_spec (len x) H HH) as [Ht _].
  destruct (hops_over_signal (len x) H HL HH) as (Hq0 & Hq & Hq1).
  set (q := (len x + tail_pad (len x) H) / H) in *.
  rewrite e_stft_resolved, Hres by exact HW1.
  rewrite (e_stft_valid x w W H W wt true HW1 HH HW1 Hmw Hw).
  destruct (untrimmed_stft_shape x w W H W true HW1 HH HW1) as (HwsU & HU0 & HU1).
  set (U := untrimmed_stft x w W H W true) in *.
  assert (Hnb : Z.of_nat (shape1 U) = q + 1).
  { rewrite HU1, len_padded, Hhalf by lia.
    replace (len x + 2 * H + tail_pad (len x) H - W) with (q * H) by lia.
    rewrite Z.div_mul by lia; reflexivity. }
  cbv zeta; rewrite Hhalf, Z.div_same by lia.
  replace ((H + tail_pad (len x) H) / H) with 1
    by (apply Z.div_unique with (r := tail_pad (len x) H); lia).
  set (S := column_slice 1 (Z.of_nat (shape1 U) - 1) U).
  assert (HwsS : well_shaped S) by (apply column_slice_well_shaped; exact HwsU).
  assert (HS0 : Z.of_nat (shape0 S) = H + 1)
    by (unfold S; rewrite shape0_column_slice, HU0, Hhalf; reflexivity).
  assert (Hm : Z.of_nat (shape1 S) = Z.max 0 (q - 1)).
  { unfold S; rewrite shape1_column_slice, Hnb.
    unfold clamp_index.
    destruct (q + 1 - 1 <? 0) eqn:E1; destruct (1 <? 0) eqn:E2; lia. }
  destruct (rebuild_reflection S) as [full|e] eqn:Efull;
    [|rewrite rebuild_reflection_returns in Efull; discriminate].
  destruct (rebuild_reflection_well_shaped S full HwsS Efull) as (Hwf & Hf1 & Hf0 & _).
  set (p := padded x W H) in *.
  exists S, full.
  split; [reflexivity|]; split; [exact HwsS|]; split; [exact Efull|].
  split; [exact Hwf|]; split; [lia|]; split; [exact Hf1|].
  split; [rewrite HW, kept_frames_half_overlap, Hm by lia; reflexivity|].
  split.
  { fold p; lia. }
  intros k Hk.
  assert (Hin : 0 <= Z.of_nat k + 1 < (len p - W) / H + 1) by lia.
  destruct (frame_inside p W H _ HH Hin) as [F1 F2].
  unfold time_frame; rewrite Nat2Z.id.
  rewrite (rebuilt_column S full k HwsS Efull Hk).
  assert (Ecol : column k S =
                 py_slice 0 (W / 2 + 1) (fft W (windowed_frame p w W H (Z.of_nat k + 1)))).
  { unfold S, U, untrimmed_stft; fold p.
    rewrite (column_of_trimmed_transpose C0).
    - simpl rows.
      rewrite (nth_map_in _ _ _ 0) by (rewrite range_length; lia).
      rewrite nth_range by lia.
      unfold spectrum_frame; do 3 f_equal; lia.
    - split; simpl; [now rewrite length_map, range_length|].
      apply Forall_forall; intros r Hr; apply in_map_iff in Hr.
      destruct Hr as (hop & <- & _); unfold spectrum_frame.
      rewrite py_slice_inside_length; [f_equal; lia | lia |].
      unfold len; rewrite fft_length; lia.
    - lia.
    - fold p in HU1; simpl shape1; lia.
    - simpl; lia. }
  rewrite Ecol, (hermitian_rebuild _ W H Hdft HH HW).
  + now apply (proj2 Hdft), windowed_frame_length; try lia.
  + apply windowed_frame_length; lia.
Qed.

End TaperedRoundTrip.

Section DocstringRoundTrip.
Context {K : NumLib} `{!NumLibShapes K} `{!ExactArithmetic K}.

(** X2.  In exact arithmetic, with a window of two hops whose halves add up
    to one and as many bins as the window has samples: the round trip of the
    docstring of [e_istft] (reflection removed and rebuilt, no
    [remove_padding]) returns one hop more than the spectrogram has frames.
    Between the first hop and the last one the samples are those of [x]; on
    the first hop they are those of [x] times the first half of the window,
    and on the last hop those of [x] (zero past its end) times the second
    half. *)
Theorem round_trip_tapered (x w : list R) (W H : Z) (wt : string) (n : option Z) :
  exact_dft W -> 1 <= H -> W = 2 * H -> resolved_n_fft_bins W n = W ->
  make_window wt W = Returns (Some w) -> length w = Z.to_nat W -> cola w H ->
  let m := Z.to_nat (kept_frames (len x) W H) in
  let h := Z.to_nat H in
  exists B,
    round_trip x W H wt n false = Returns B /\
    length B = ((m + 1) * h)%nat /\
    (forall t, (h <= t < m * h)%nat -> nth t B R0 = nth t x R0) /\
    ((1 <= m)%nat -> forall i, (i < h)%nat ->
       nth i B R0 = Rmul (nth i x R0) (nth i w R0) /\
       nth (m * h + i) B R0 = Rmul (nth (m * h + i) x R0) (nth (h + i) w R0)).
Proof.
  intros Hdft HH HW Hres Hmw Hw Hcola m h.
  assert (HW1 : 1 <= W) by lia.
  assert (Hhalf : W / 2 = H) by (subst W; rewrite Z.mul_comm, Z.div_mul; lia).
  destruct (half_overlap_analysis x w W H wt n Hdft HH HW Hres Hmw Hw)
    as (S & full & ES & HwsS & Efull & Hwf & HfW & Hf1 & Hkept & Hnb & Hframe).
  set (p := padded x W H) in *.
  assert (Em : shape1 S = m) by (unfold m; lia).
  rewrite Em in *.
  set (total := (Z.of_nat m - 1) * H + W).
  assert (Htotal : Z.to_nat total = ((m + 1) * h)%nat) by (unfold total, h; nia).
  destruct (overlap_add_loop full W H (range (Z.of_nat m)) (repeat R0 (Z.to_nat total))
              Hwf HW1 HfW) as [Eloop Elen].
  { intros k Hk; apply in_range in Hk; rewrite Hf1, len_repeat.
    unfold total; nia. }
  set (B := accumulate full H (range (Z.of_nat m)) (repeat R0 (Z.to_nat total))) in *.
  assert (Hlenfr : forall k : nat, (k < m)%nat ->
            length (time_frame full (Z.of_nat k)) = (2 * h)%nat).
  { intros k Hk; rewrite time_frame_length by (try exact Hwf; lia); unfold h; lia. }
  assert (Hinside : forall k : nat, (k < m)%nat ->
            0 <= (Z.of_nat k + 1) * H /\ (Z.of_nat k + 1) * H + W <= len p).
  { intros k Hk; apply frame_inside; lia. }
  destruct (fold_frames_invariant (time_frame full) H h m (fun t => nth t x R0))
    with (k := m) as (I1 & _ & I3 & I4); [unfold h; lia | exact Hlenfr | | lia |].
  { intros k i Hk Hi.
    rewrite !Hframe by lia.
    destruct (Hinside (k - 1)%nat ltac:(lia)) as [F1 F2].
    destruct (Hinside k ltac:(lia)) as [G1 G2].
    rewrite !windowed_frame_nth by (try assumption; unfold h; lia).
    replace (Z.to_nat ((Z.of_nat (k - 1) + 1) * H) + (h + i))%nat
      with (Z.to_nat (W / 2) + (k * h + i))%nat by (unfold h; nia).
    replace (Z.to_nat ((Z.of_nat k + 1) * H) + i)%nat
      with (Z.to_nat (W / 2) + (k * h + i))%nat by (unfold h; nia).
    unfold p; rewrite padded_nth by lia.
    rewrite Radd_0_l, Rmul_add_distr.
    unfold h; rewrite (Hcola i Hi), Rmul_1_r; reflexivity. }
  destruct (fold_frames_head (time_frame full) H h m) with (k := m)
    as (_ & Ihead); [unfold h; lia | exact Hlenfr | lia |].
  fold (accumulate full H (range (Z.of_nat m)) (repeat R0 ((m + 1) * h))) in I1, I3, I4, Ihead.
  rewrite <- Htotal in I1, I3, I4, Ihead; fold B in I1, I3, I4, Ihead.
  exists B; split; [|split; [|split]].
  - unfold round_trip; rewrite ES; simpl bind.
    unfold e_istft, overlap_add, np_zeros; rewrite Em; fold total.
    destruct (total <? 0) eqn:E; [unfold total in E; nia|]; simpl bind.
    rewrite Efull; simpl bind; rewrite Eloop; reflexivity.
  - rewrite I1; exact Htotal.
  - intros t Ht; apply nth_error_nth, I4; exact Ht.
  - intros Hm1 i Hi; split.
    + apply nth_error_nth; rewrite (Ihead Hm1 i Hi).
      change 0 with (Z.of_nat 0); rewrite Hframe by lia.
      destruct (Hinside 0%nat ltac:(lia)) as [F1 F2].
      rewrite windowed_frame_nth by (try assumption; unfold h in *; lia).
      replace (Z.to_nat ((Z.of_nat 0 + 1) * H) + i)%nat
        with (Z.to_nat (W / 2) + i)%nat by (unfold h; nia).
      unfold p; rewrite padded_nth, Radd_0_l by lia; reflexivity.
    + apply nth_error_nth; rewrite (I3 i Hm1 Hi).
      rewrite Hframe by lia.
      destruct (Hinside (m - 1)%nat ltac:(lia)) as [F1 F2].
      rewrite windowed_frame_nth by (try assumption; unfold h in *; lia).
      replace (Z.to_nat ((Z.of_nat (m - 1) + 1) * H) + (h + i))%nat
        with (Z.to_nat (W / 2) + (m * h + i))%nat by (unfold h; nia).
      unfold p; rewrite padded_nth, Radd_0_l by lia; reflexivity.
Qed.

End DocstringRoundTrip.

(** Eight samples, a Hann window of 4 and a hop of 2: the two samples at
    each end are tapered, the four in the middle are exact. *)
Lemma round_trip_tapered_witness :
  @round_trip ExactLib (ExactQ.samples [1; 2; 3; 4; 5; 6; 7; 8]) 4 2 HANN (Some 4) false =
    Returns (ExactQ.samples [0; 1; 3; 4; 5; 6; 7; 4]) /\
  exists B,
    @round_trip ExactLib (ExactQ.samples [1; 2; 3; 4; 5; 6; 7; 8]) 4 2 HANN (Some 4) false =
      Returns B /\ length B = 8%nat.
Proof.
  split; [vm_compute; reflexivity|].
  destruct (@round_trip_tapered ExactLib _ _
              (ExactQ.samples [1; 2; 3; 4; 5; 6; 7; 8]) (@hann ExactLib 4) 4 2 HANN (Some 4)
              ExactLib_dft4 ltac:(lia) eq_refl eq_refl eq_refl eq_refl ExactLib_hann4_cola)
    as (B & E & Hl & _).
  exists B; split; [exact E | exact Hl].
Defined.

(* ------------------------------------------------------------------ *)
(** ** What each frame of the spectrogram holds *)

Section FrameContent.
Context {K : NumLib} `{!NumLibShapes K}.

(** X3.  On a valid call with [remove_reflection] set, frame [k] of the
    spectrogram holds the first [n_fft_bins // 2 + 1] bins of the transform
    of the windowed samples of the padded signal from index
    [(k + z // hop_length) * hop_length] on, [z = window_length // 2] being
    the head pad: sample [i] of that window is [x[t] * window[i]] where
    [t = (k + z // hop_length) * hop_length + i - z], and zero times
    [window[i]] when [t] is negative. *)
Theorem stft_frame_content (x w : list R) (W H : Z) (wt : string) (n : option Z) :
  1 <= W -> 1 <= H -> match n with Some k => 1 <= k | None => True end ->
  make_window wt W = Returns (Some w) -> length w = Z.to_nat W ->
  exists a,
    e_stft x W H wt n true = Returns a /\
    forall k : nat, Z.of_nat k < kept_frames (len x) W H ->
      let hop := Z.of_nat k + W / 2 / H in
      let frame := windowed_frame (padded x W H) w W H hop in
      column k a = py_slice 0 (resolved_n_fft_bins W n / 2 + 1)
                     (fft (resolved_n_fft_bins W n) frame) /\
      length frame = Z.to_nat W /\
      forall i : nat, (i < Z.to_nat W)%nat ->
        (forall t : nat, hop * H + Z.of_nat i = W / 2 + Z.of_nat t ->
           nth i frame R0 = Rmul (nth t x R0) (nth i w R0)) /\
        (hop * H + Z.of_nat i < W / 2 -> nth i frame R0 = Rmul R0 (nth i w R0)).
Proof.
  intros HW HH Hn Hmw Hw.
  pose proof (resolved_n_fft_bins_positive W n Hn) as Hr.
  set (N := resolved_n_fft_bins W n) in *.
  rewrite e_stft_resolved by exact HW; fold N.
  rewrite (e_stft_valid x w W H N wt true HW HH Hr Hmw Hw).
  destruct (untrimmed_stft_shape x w W H N true HW HH Hr) as (HwsU & HU0 & HU1).
  destruct (tail_pad_spec (len x) H HH) as [Ht _].
  pose proof (num_blocks_nonneg x W H HW HH) as Hnb.
  assert (Hz : 0 <= W / 2) by (apply Z.div_pos; lia).
  assert (Hzh : 0 <= W / 2 / H) by (apply Z.div_pos; lia).
  assert (Hzt : 0 <= (W / 2 + tail_pad (len x) H) / H) by (apply Z.div_pos; lia).
  set (p := padded x W H) in *.
  eexists; split; [reflexivity|]; cbv zeta.
  intros k Hk.
  assert (Hkept : kept_frames (len x) W H =
                  Z.max 0 ((len p - W) / H + 1 - W / 2 / H
                           - (W / 2 + tail_pad (len x) H) / H)).
  { unfold kept_frames, p; rewrite len_padded by lia; reflexivity. }
  assert (Hin : 0 <= Z.of_nat k + W / 2 / H < (len p - W) / H + 1) by lia.
  destruct (frame_inside p W H _ HH Hin) as [F1 F2].
  split; [|split].
  - unfold untrimmed_stft; fold p.
    rewrite (column_of_trimmed_transpose C0).
    + simpl rows.
      rewrite (nth_map_in _ _ _ 0) by (rewrite range_length; lia).
      rewrite nth_range by lia.
      unfold spectrum_frame; do 3 f_equal; lia.
    + split; simpl; [now rewrite length_map, range_length|].
      apply Forall_forall; intros r Hrow; apply in_map_iff in Hrow.
      destruct Hrow as (hop & <- & _); unfold spectrum_frame.
      pose proof (stft_bins_range N true Hr) as Hb.
      rewrite py_slice_inside_length; [f_equal; lia | lia |].
      unfold len; rewrite fft_length; lia.
    + exact Hzh.
    + simpl shape1; lia.
    + simpl; lia.
  - apply windowed_frame_length; lia.
  - intros i Hi.
    rewrite windowed_frame_nth by (try assumption; lia).
    split.
    + intros t Et.
      replace (Z.to_nat ((Z.of_nat k + W / 2 / H) * H) + i)%nat
        with (Z.to_nat (W / 2) + t)%nat by lia.
      unfold p; rewrite padded_nth by lia; reflexivity.
    + intros Hneg; unfold p; rewrite padded_head by lia; reflexivity.
Qed.

(** X4.  On a valid call without [remove_reflection] the spectrogram has all
    [n_fft_bins] bins and all the frames of the padded signal,
    [(L + 2 z + t - window_length) // hop_length + 1] of them: the frames
    that lie in the padding are cut off only together with the reflection. *)
Theorem stft_full_shape (x : list R) (W H : Z) (wt : string) (n : option Z) :
  1 <= W -> 1 <= H -> In wt all_types ->
  match n with Some k => 1 <= k | None => True end ->
  exists a,
    e_stft x W H wt n false = Returns a /\ well_shaped a /\
    Z.of_nat (shape0 a) = resolved_n_fft_bins W n /\
    Z.of_nat (shape1 a) =
      (len x + 2 * (W / 2) + tail_pad (len x) H - W) / H + 1 /\
    kept_frames (len x) W H <= Z.of_nat (shape1 a).
Proof.
  intros HW HH Hwt Hn.
  destruct (make_window_known wt W Hwt ltac:(lia)) as (w & Hmw & Hw).
  pose proof (resolved_n_fft_bins_positive W n Hn) as Hr.
  rewrite e_stft_resolved by exact HW.
  rewrite (e_stft_valid x w W H _ wt false HW HH Hr Hmw Hw).
  destruct (untrimmed_stft_shape x w W H (resolved_n_fft_bins W n) false HW HH Hr)
    as (Hws & Hs0 & Hs1).
  destruct (tail_pad_spec (len x) H HH) as [Ht _].
  pose proof (num_blocks_nonneg x W H HW HH) as Hnb.
  assert (Hzh : 0 <= W / 2 / H) by (apply Z.div_pos; [apply Z.div_pos|]; lia).
  assert (Hzt : 0 <= (W / 2 + tail_pad (len x) H) / H).
  { apply Z.div_pos; [|lia]. assert (0 <= W / 2) by (apply Z.div_pos; lia). lia. }
  eexists; split; [reflexivity|]; cbv zeta.
  split; [exact Hws|]; split; [exact Hs0|].
  rewrite len_padded in Hnb by lia.
  rewrite Hs1, len_padded by lia; split; [reflexivity|].
  unfold kept_frames; cbv zeta; lia.
Qed.

End FrameContent.

Lemma stft_frame_content_witness :
  exists a,
    @e_stft ExactLib (ExactQ.samples [1; 2; 3; 4; 5]) 4 2 HANN (Some 4) true = Returns a /\
    column 1 a = py_slice 0 3 (@fft ExactLib 4 (ExactQ.samples [0; 2; 5; 0])).
Proof.
  destruct (@stft_frame_content ExactLib _ (ExactQ.samples [1; 2; 3; 4; 5])
              (@hann ExactLib 4) 4 2 HANN (Some 4)
              ltac:(lia) ltac:(lia) ltac:(simpl; lia) eq_refl eq_refl) as (a & E & Hk).
  exists a; split; [exact E|].
  destruct (Hk 1%nat ltac:(vm_compute; reflexivity)) as (Ec & _).
  rewrite Ec; f_equal.
Defined.

Lemma stft_full_shape_witness :
  shape_of (@e_stft ExactLib (ExactQ.samples [1; 2; 3; 4; 5]) 4 2 HANN (Some 4) false) =
    Some (4%nat, 4%nat).
Proof.
  destruct (@stft_full_shape ExactLib _ (ExactQ.samples [1; 2; 3; 4; 5]) 4 2 HANN (Some 4)
              ltac:(lia) ltac:(lia) ltac:(simpl; auto) ltac:(simpl; lia))
    as (a & E & _ & H0 & H1 & _).
  assert (S0 : shape0 a = 4%nat) by (apply Nat2Z.inj; rewrite H0; reflexivity).
  assert (S1 : shape1 a = 4%nat) by (apply Nat2Z.inj; rewrite H1; reflexivity).
  rewrite E; exact (f_equal2 (fun r c => Some (r, c)) S0 S1).
Defined.

(* ------------------------------------------------------------------ *)
(** ** e_stft_plus *)

Section SpectralFeatures.
Context {K : NumLib} `{!NumLibShapes K}.

(** X5.  On a valid call with a sample rate other than zero, [e_stft_plus]
    returns the spectrogram of [e_stft] (with [n_fft_bins] defaulting to
    [window_length]), a power spectral density of the same shape, one
    frequency per bin and one time per frame. *)
Theorem e_stft_plus_shapes (x : list R) (W H : Z) (wt : string) (sr : Z) (n : option Z) :
  1 <= W -> 1 <= H -> In wt all_types -> sr <> 0 ->
  match n with Some k => 1 <= k | None => True end ->
  let N := match n with Some k => k | None => W end in
  exists stft psd frequency_vector time_vector,
    e_stft_plus x W H wt sr n = Returns (stft, psd, frequency_vector, time_vector) /\
    e_stft x W H wt (Some N) true = Returns stft /\
    Z.of_nat (shape0 stft) = N / 2 + 1 /\
    well_shaped psd /\ shape0 psd = shape0 stft /\ shape1 psd = shape1 stft /\
    length frequency_vector = shape0 stft /\
    length time_vector = shape1 stft.
Proof.
  intros HW HH Hwt Hsr Hn N.
  assert (HN : 1 <= N) by (unfold N; destruct n; lia).
  destruct (e_stft_returns x W H wt N true HW HH HN Hwt) as (a & w & Ea & Hws & Hmw & Hs0).
  assert (Hbins : 0 <= N / 2 + 1) by (assert (0 <= N / 2) by (apply Z.div_pos; lia); lia).
  unfold e_stft_plus; fold N; rewrite Ea; simpl bind.
  destruct (N / 2 + 1 <? 0) eqn:E1; [lia|].
  destruct (sr =? 0) eqn:E2; [lia|].
  rewrite Hmw; simpl bind.
  unfold np_dot; rewrite Nat.eqb_refl; simpl bind.
  do 4 eexists; split; [reflexivity|].
  split; [reflexivity|]; split; [exact Hs0|].
  split; [|split; [reflexivity|split; [reflexivity|split]]].
  - destruct Hws as [Hr Hc]; split; simpl; [now rewrite length_map|].
    apply Forall_forall; intros r Hin; apply in_map_iff in Hin.
    destruct Hin as (r0 & <- & Hin); rewrite length_map.
    rewrite Forall_forall in Hc; now apply Hc.
  - rewrite length_map, linspace01_length; lia.
  - rewrite !length_map, range_length; lia.
Qed.

(** X6.  With a sample rate of zero, an otherwise valid call of
    [e_stft_plus] raises [ZeroDivisionError], from the division of line
    262. *)
Theorem e_stft_plus_zero_sample_rate (x : list R) (W H : Z) (wt : string) (n : option Z) :
  1 <= W -> 1 <= H -> In wt all_types ->
  match n with Some k => 1 <= k | None => True end ->
  e_stft_plus x W H wt 0 n = Raises ZeroDivisionError.
Proof.
  intros HW HH Hwt Hn.
  set (N := match n with Some k => k | None => W end).
  assert (HN : 1 <= N) by (unfold N; destruct n; lia).
  destruct (e_stft_returns x W H wt N true HW HH HN Hwt) as (a & w & Ea & _).
  assert (Hbins : 0 <= N / 2 + 1) by (assert (0 <= N / 2) by (apply Z.div_pos; lia); lia).
  unfold e_stft_plus; fold N; rewrite Ea; simpl bind.
  destruct (N / 2 + 1 <? 0) eqn:E1; [lia|]; reflexivity.
Qed.

(** X7.  With a window type that is none of the four, a call of [e_stft]
    on a signal that is not empty, valid otherwise, raises [TypeError]: the
    [None] that [make_window] returned meets [np.multiply] in the first
    frame.  [e_stft_plus] raises the same. *)
Theorem e_stft_unknown_window (x : list R) (W H : Z) (wt : string) (n : option Z)
  (rr : bool) (sr : Z) :
  1 <= W -> 1 <= H -> ~ In wt all_types -> x <> [] ->
  match n with Some k => 1 <= k | None => True end ->
  e_stft x W H wt n rr = Raises TypeError /\
  e_stft_plus x W H wt sr n = Raises TypeError.
Proof.
  intros HW HH Hwt Hx Hn.
  assert (Hgen : forall k rr', 1 <= k -> e_stft x W H wt (Some k) rr' = Raises TypeError).
  { intros k rr' Hk; unfold e_stft; simpl bind.
    rewrite (pad_signal_valid x W H ltac:(lia) HH); simpl bind.
    destruct (not_in_all_types wt Hwt) as (E1 & E2 & E3 & E4).
    unfold make_window; rewrite E1, E2, E3, E4; simpl bind.
    fold (padded x W H).
    assert (Hnb : 1 <= (len (padded x W H) - W) / H + 1).
    { assert (0 <= (len (padded x W H) - W) / H); [|lia].
      apply Z.div_pos; [|lia].
      rewrite len_padded by lia.
      destruct (tail_pad_spec (len x) H HH) as [Ht _].
      assert (1 <= len x) by (destruct x; [congruence | unfold len; simpl length; lia]).
      pose proof (Z.div_mod W 2 ltac:(lia)).
      pose proof (Z.mod_pos_bound W 2 ltac:(lia)); lia. }
    pose proof (stft_bins_range k rr' Hk) as Hb.
    destruct ((len (padded x W H) - W) / H + 1 <? 0) eqn:Eb; [lia|].
    destruct ((if rr' then k / 2 + 1 else k) <? 0) eqn:Ec; [lia|]; simpl orb; cbv iota.
    unfold range.
    destruct (Z.to_nat ((len (padded x W H) - W) / H + 1)) as [|nb] eqn:En; [lia|].
    reflexivity. }
  split.
  - rewrite e_stft_resolved by exact HW.
    apply Hgen, resolved_n_fft_bins_positive, Hn.
  - unfold e_stft_plus; rewrite Hgen by (destruct n; lia); reflexivity.
Qed.

End SpectralFeatures.

Lemma e_stft_plus_shapes_witness :
  exists stft psd frequency_vector time_vector,
    @e_stft_plus ExactLib (ExactQ.samples [1; 2; 3; 4; 5]) 4 2 HANN 8 None =
      Returns (stft, psd, frequency_vector, time_vector) /\
    length frequency_vector = shape0 stft /\ length time_vector = shape1 stft.
Proof.
  destruct (@e_stft_plus_shapes ExactLib _ (ExactQ.samples [1; 2; 3; 4; 5]) 4 2 HANN 8 None
              ltac:(lia) ltac:(lia) ltac:(simpl; auto) ltac:(lia) I)
    as (stft & psd & f & t & E & _ & _ & _ & _ & _ & Hf & Ht).
  exists stft, psd, f, t; auto.
Defined.

Lemma e_stft_plus_zero_sample_rate_witness :
  @e_stft_plus ExactLib (ExactQ.samples [1; 2; 3; 4; 5]) 4 2 HANN 0 None =
    Raises ZeroDivisionError.
Proof.
  apply (@e_stft_plus_zero_sample_rate ExactLib _); [lia | lia | simpl; auto | exact I].
Defined.

Lemma e_stft_unknown_window_witness :
  @e_stft ExactLib (ExactQ.samples [1; 2; 3; 4; 5]) 4 2 "triangular" None true =
    Raises TypeError.
Proof.
  apply (@e_stft_unknown_window ExactLib (ExactQ.samples [1; 2; 3; 4; 5]) 4 2
           "triangular" None true 8);
    [lia | lia | simpl; intros [H|[H|[H|[H|[]]]]]; discriminate H | discriminate | exact I].
Defined.

(* ------------------------------------------------------------------ *)
(** ** e_istft on spectrograms it cannot invert *)

Lemma broadcast2_mismatch {A B C : Type} (f : A -> B -> C) (xs : list A) (ys : list B) :
  length xs <> length ys -> length xs <> 1%nat -> length ys <> 1%nat ->
  broadcast2 f xs ys = Raises ValueError.
Proof.
  intros Hne Hx Hy; unfold broadcast2.
  destruct (Nat.eqb_spec (length xs) (length ys)) as [E|_]; [contradiction|].
  destruct xs as [|x [|x' xs]]; destruct ys as [|y [|y' ys]];
    simpl in *; try reflexivity; congruence.
Qed.

Section InverseErrors.
Context {K : NumLib} `{!NumLibShapes K}.

Lemma range_starts_at_zero (n : Z) : 1 <= n -> exists rest, range n = 0 :: rest.
Proof.
  intros Hn; unfold range.
  destruct (Z.to_nat n) as [|k] eqn:E; [lia|].
  simpl; eexists; reflexivity.
Qed.

(** The first iteration of the loop on a spectrum that has not the length
    of the window. *)
Lemma overlap_add_bins_mismatch (full : ndarray2 (complex R)) (W H : Z) :
  well_shaped full -> (1 <= shape1 full)%nat -> 0 <= H -> 2 <= W ->
  Z.of_nat (shape0 full) <> W -> shape0 full <> 1%nat ->
  for_fold (overlap_add_step full W H) (range (Z.of_nat (shape1 full)))
           (repeat R0 (Z.to_nat ((Z.of_nat (shape1 full) - 1) * H + W)))
  = Raises ValueError.
Proof.
  intros Hws Hframes HH HW Hne H1.
  destruct (range_starts_at_zero (Z.of_nat (shape1 full)) ltac:(lia)) as (rest & ->).
  set (buf := repeat R0 (Z.to_nat ((Z.of_nat (shape1 full) - 1) * H + W))).
  assert (Hbuf : W <= len buf) by (unfold buf; rewrite len_repeat; nia).
  assert (Estep : overlap_add_step full W H buf 0 = Raises ValueError).
  { unfold overlap_add_step.
    change (Z.to_nat 0) with 0%nat; change (0 * H) with 0.
    rewrite (column_length 0 full Hws) by lia.
    destruct (Nat.eqb_spec (shape0 full) 0) as [E|E]; [reflexivity|].
    rewrite broadcast2_mismatch; [reflexivity | | |].
    - rewrite py_slice_inside_length by lia.
      rewrite length_map, ifft_length, (column_length 0 full Hws) by lia; lia.
    - rewrite py_slice_inside_length by lia; lia.
    - rewrite length_map, ifft_length, (column_length 0 full Hws) by lia; exact H1. }
  cbn [for_fold]; rewrite Estep; reflexivity.
Qed.

(** X8.  [e_istft] has no [n_fft_bins] argument: on a spectrogram of at
    least one frame whose full spectrum has neither [window_length] bins nor
    a single one, with a window of at least two samples, it raises
    [ValueError], from the addition of line 230. *)
Theorem e_istft_bins_mismatch (stft : ndarray2 (complex R)) (W H : Z) (wt : string)
  (rr rp : bool) :
  well_shaped stft -> (1 <= shape1 stft)%nat -> 0 <= H -> 2 <= W ->
  let bins := (if rr then shape0 stft + (shape0 stft - 2) else shape0 stft)%nat in
  Z.of_nat bins <> W -> bins <> 1%nat ->
  e_istft stft W H wt rr rp = Raises ValueError.
Proof.
  intros Hws Hframes HH HW bins Hne H1.
  assert (Hfull : exists full,
            (if rr then rebuild_reflection stft else Returns stft) = Returns full /\
            well_shaped full /\ shape1 full = shape1 stft /\ shape0 full = bins).
  { unfold bins; destruct rr.
    - destruct (rebuild_reflection stft) as [full|e] eqn:E;
        [|rewrite rebuild_reflection_returns in E; discriminate].
      destruct (rebuild_reflection_well_shaped stft full Hws E) as (Hwf & Hs1 & Hs0 & _).
      exists full; auto.
    - exists stft; auto. }
  destruct Hfull as (full & Efull & Hwf & Hs1 & Hs0).
  unfold e_istft, overlap_add, np_zeros.
  destruct ((Z.of_nat (shape1 stft) - 1) * H + W <? 0) eqn:E; [nia|]; simpl bind.
  rewrite Efull; simpl bind.
  rewrite <- Hs1, overlap_add_bins_mismatch; try assumption; try lia; reflexivity.
Qed.

(** X9.  On a spectrogram without frames [e_istft] does not raise when
    [hop_length <= window_length]: the buffer is [window_length - hop_length]
    zeros, and nothing is left of it with [remove_padding].  When
    [hop_length > window_length] the length of the buffer is negative and
    [np.zeros] raises [ValueError]. *)
Theorem e_istft_no_frames (stft : ndarray2 (complex R)) (W H : Z) (wt : string) (rr : bool) :
  shape1 stft = 0%nat ->
  (H <= W ->
   e_istft stft W H wt rr false = Returns (repeat R0 (Z.to_nat (W - H))) /\
   e_istft stft W H wt rr true = Returns []) /\
  (W < H -> forall rp, e_istft stft W H wt rr rp = Raises ValueError).
Proof.
  intros Hs.
  assert (Efull : exists full,
            (if rr then rebuild_reflection stft else Returns stft) = Returns full).
  { destruct rr; [rewrite rebuild_reflection_returns|]; eexists; reflexivity. }
  destruct Efull as (full & Efull).
  unfold e_istft, overlap_add, np_zeros; rewrite Hs.
  change ((Z.of_nat 0 - 1) * H + W) with (-1 * H + W).
  replace (-1 * H + W) with (W - H) by lia.
  split.
  - intros HH; destruct (W - H <? 0) eqn:E; [lia|]; simpl bind.
    rewrite Efull; simpl; split; [reflexivity|].
    rewrite Z.sub_diag, py_slice_to_zero by lia; reflexivity.
  - intros HH rp; destruct (W - H <? 0) eqn:E; [reflexivity|lia].
Qed.

End InverseErrors.

Lemma e_istft_bins_mismatch_witness :
  @e_istft ExactLib ExactQ.three_bins 6 3 HANN true false = Raises ValueError.
Proof.
  apply (@e_istft_bins_mismatch ExactLib _ ExactQ.three_bins 6 3 HANN true false).
  - split; [reflexivity | repeat constructor].
  - simpl; lia.
  - lia.
  - lia.
  - simpl; lia.
  - simpl; lia.
Defined.

Lemma e_istft_no_frames_witness :
  @e_istft ExactLib (mk2d 3 0 [[]; []; []]) 4 2 HANN true false =
    Returns (ExactQ.samples [0; 0]) /\
  @e_istft ExactLib (mk2d 3 0 [[]; []; []]) 2 4 HANN true false = Raises ValueError.
Proof.
  destruct (@e_istft_no_frames ExactLib (mk2d 3 0 [[]; []; []]) 4 2 HANN true eq_refl)
    as [P _].
  destruct (@e_istft_no_frames ExactLib (mk2d 3 0 [[]; []; []]) 2 4 HANN true eq_refl)
    as [_ Q].
  split; [exact (proj1 (P ltac:(lia))) | exact (Q ltac:(lia) false)].
Defined.

(* ------------------------------------------------------------------ *)
(** ** StftParams: what the properties read back *)

Lemma last_written_snoc {A : Type} (field : write -> option A) (ws : list write) (w : write) :
  last_written field (ws ++ [w]) =
  match field w with Some v => Some v | None => last_written field ws end.
Proof. unfold last_written; rewrite fold_left_app; reflexivity. Qed.

Lemma apply_writes_snoc (ws : list write) (w : write) (s : StftParams) :
  apply_writes (ws ++ [w]) s = apply_write (apply_writes ws s) w.
Proof. unfold apply_writes; rewrite fold_left_app; reflexivity. Qed.

Lemma no_hop_written (ws : list write) :
  last_written hop_length_written ws = None <-> existsb is_hop_write ws = false.
Proof.
  induction ws as [|w ws IH] using rev_ind; [simpl; tauto|].
  rewrite last_written_snoc, existsb_app; simpl; rewrite orb_false_r.
  destruct w; simpl; rewrite ?orb_false_r, ?orb_true_r; try exact IH.
  split; discriminate.
Qed.

Lemma no_n_fft_written (ws : list write) :
  last_written n_fft_bins_written ws = None <-> existsb is_n_fft_write ws = false.
Proof.
  induction ws as [|w ws IH] using rev_ind; [simpl; tauto|].
  rewrite last_written_snoc, existsb_app; simpl; rewrite orb_false_r.
  destruct w; simpl; rewrite ?orb_false_r, ?orb_true_r; try exact IH.
  split; discriminate.
Qed.

Section ParamsReadBack.
Variable default_win_len : Z -> Z.

(** X10.  After any sequence of writes to an instance built by [__init__],
    [window_length] reads the last value written to it, or else the
    constructor's (the argument, or the default for the sample rate);
    [hop_length] reads the last value written to it, or else the
    constructor's argument, or else half of what [window_length] reads now;
    [n_fft_bins] likewise, with [window_length] itself as the derived
    value. *)
Theorem params_read_back (sr : Z) (wl hl : option Z) (wt : option string) (nf : option Z)
  (ws : list write) :
  let s := apply_writes ws (StftParams_init default_win_len sr wl hl wt nf) in
  window_length s =
    match last_written window_length_written ws with
    | Some v => v
    | None => match wl with Some v => v | None => default_win_len sr end
    end /\
  hop_length s =
    match last_written hop_length_written ws with
    | Some v => v
    | None => match hl with Some v => v | None => window_length s / 2 end
    end /\
  n_fft_bins s =
    match last_written n_fft_bins_written ws with
    | Some v => v
    | None => match nf with Some v => v | None => window_length s end
    end.
Proof.
  induction ws as [|w ws IH] using rev_ind.
  - cbv zeta; unfold apply_writes, StftParams_init, window_length, hop_length, n_fft_bins;
      simpl; destruct wl, hl, nf; auto.
  - cbv zeta in *; rewrite apply_writes_snoc, !last_written_snoc.
    set (s := apply_writes ws (StftParams_init default_win_len sr wl hl wt nf)) in *.
    destruct IH as (IW & IHop & IN).
    assert (Fh : _hop_length_needs_update s =
                 negb (is_given hl || existsb is_hop_write ws)).
    { unfold s; rewrite hop_flag_after_writes; destruct hl; reflexivity. }
    assert (Fn : _n_fft_bins_needs_update s =
                 negb (is_given nf || existsb is_n_fft_write ws)).
    { unfold s; rewrite n_fft_flag_after_writes; destruct nf; reflexivity. }
    destruct w as [v|v|v|v|t]; simpl apply_write; simpl window_length_written;
      simpl hop_length_written; simpl n_fft_bins_written; cbv iota.
    + (* window_length = v *)
      destruct (set_window_length_fields v s) as (E1 & E2 & E3).
      rewrite E1, E2, E3, Fh, Fn.
      split; [reflexivity|]; split.
      * destruct (last_written hop_length_written ws) as [u|] eqn:L.
        -- assert (X : existsb is_hop_write ws = true).
           { destruct (existsb is_hop_write ws) eqn:X; [reflexivity|].
             apply no_hop_written in X; congruence. }
           rewrite X, orb_true_r; exact IHop.
        -- apply no_hop_written in L; rewrite L, orb_false_r.
           destruct hl; simpl; [exact IHop | reflexivity].
      * destruct (last_written n_fft_bins_written ws) as [u|] eqn:L.
        -- assert (X : existsb is_n_fft_write ws = true).
           { destruct (existsb is_n_fft_write ws) eqn:X; [reflexivity|].
             apply no_n_fft_written in X; congruence. }
           rewrite X, orb_true_r; exact IN.
        -- apply no_n_fft_written in L; rewrite L, orb_false_r.
           destruct nf; simpl; [exact IN | reflexivity].
    + split; [exact IW|]; split; [reflexivity | exact IN].
    + split; [exact IW|]; split; [exact IHop | reflexivity].
    + split; [exact IW|]; split; [exact IHop | exact IN].
    + split; [exact IW|]; split; [exact IHop | exact IN].
Qed.

End ParamsReadBack.

(* ------------------------------------------------------------------ *)
(** ** A spectrogram with more bins than the window cannot be inverted *)

Section BinsMismatch.
Context {K : NumLib} `{!NumLibShapes K}.

(** X11.  On a valid call that keeps at least one frame, with a window of
    at least two samples and [n_fft_bins] at least 2, when twice
    [n_fft_bins // 2] is not [window_length] (so for every even [n_fft_bins]
    other than the window length, and for the default of [e_stft] when the
    window length is not a power of two), [e_istft] applied to the
    spectrogram of [e_stft] raises [ValueError]. *)
Theorem round_trip_bins_mismatch (x : list R) (W H : Z) (wt : string) (n : option Z)
  (rp : bool) :
  2 <= W -> 1 <= H -> In wt all_types ->
  match n with Some k => 1 <= k | None => True end ->
  2 <= resolved_n_fft_bins W n ->
  2 * (resolved_n_fft_bins W n / 2) <> W ->
  1 <= kept_frames (len x) W H ->
  round_trip x W H wt n rp = Raises ValueError.
Proof.
  intros HW HH Hwt Hn HN Hne Hkept.
  assert (HW1 : 1 <= W) by lia.
  set (N := resolved_n_fft_bins W n) in *.
  destruct (make_window_known wt W Hwt ltac:(lia)) as (w & Hmw & Hw).
  assert (Hr : 1 <= N) by lia.
  unfold round_trip; rewrite e_stft_resolved by exact HW1; fold N.
  rewrite (e_stft_valid x w W H N wt true HW1 HH Hr Hmw Hw); simpl bind; cbv zeta.
  destruct (untrimmed_stft_shape x w W H N true HW1 HH Hr) as (HwsU & HU0 & HU1).
  set (U := untrimmed_stft x w W H N true) in *.
  set (S := column_slice (W / 2 / H)
              (Z.of_nat (shape1 U) - (W / 2 + tail_pad (len x) H) / H) U).
  assert (HwsS : well_shaped S) by (apply column_slice_well_shaped; exact HwsU).
  assert (HS0 : Z.of_nat (shape0 S) = N / 2 + 1)
    by (unfold S; rewrite shape0_column_slice; exact HU0).
  assert (HS1 : Z.of_nat (shape1 S) = kept_frames (len x) W H).
  { destruct (tail_pad_spec (len x) H HH) as [Ht _].
    pose proof (num_blocks_nonneg x W H HW1 HH) as Hnb.
    unfold S; rewrite shape1_column_slice, HU1.
    rewrite trimmed_frame_count; [| lia | apply Z.div_pos; lia | exact Ht].
    unfold kept_frames; rewrite len_padded by lia; reflexivity. }
  assert (HN2 : 1 <= N / 2) by (apply Z.div_le_lower_bound; lia).
  change (e_istft S W H wt true rp = Raises ValueError).
  clearbody S.
  destruct (rebuild_reflection S) as [full|e] eqn:Efull;
    [|rewrite rebuild_reflection_returns in Efull; discriminate].
  destruct (rebuild_reflection_well_shaped S full HwsS Efull) as (Hwf & Hf1 & Hf0 & _).
  unfold e_istft, overlap_add, np_zeros.
  destruct ((Z.of_nat (shape1 S) - 1) * H + W <? 0) eqn:E; [nia|]; simpl bind.
  rewrite Efull; simpl bind.
  rewrite <- Hf1, overlap_add_bins_mismatch; try assumption; try lia; reflexivity.
Qed.

(** X12.  For each of the four window types and a length that is not
    negative, [make_window] returns an array of that many coefficients, all
    of them one for the rectangular window; a negative length of the
    rectangular window is a [ValueError] of [np.ones]. *)
Theorem make_window_supported (wt : string) (n : Z) :
  In wt all_types ->
  (0 <= n ->
   exists w, make_window wt n = Returns (Some w) /\ length w = Z.to_nat n /\
             (wt = RECTANGULAR -> w = repeat R1 (Z.to_nat n))) /\
  (n < 0 -> wt = RECTANGULAR -> make_window wt n = Raises ValueError).
Proof.
  intros Hwt; split.
  - intros Hn; destruct (make_window_known wt n Hwt Hn) as (w & E & Hl).
    exists w; split; [exact E|]; split; [exact Hl|].
    intros ->; revert E; unfold make_window, np_ones; simpl.
    destruct (n <? 0) eqn:En; [lia|]; simpl; congruence.
  - intros Hn ->; unfold make_window, np_ones; simpl.
    destruct (n <? 0) eqn:En; [reflexivity|lia].
Qed.

End BinsMismatch.

(** A window of 6 samples and the default of 8 bins. *)
Lemma round_trip_bins_mismatch_witness :
  @round_trip ExactLib (ExactQ.samples [1; 2; 3; 4; 5; 6; 7; 8; 9]) 6 3 HANN None false =
    Raises ValueError.
Proof.
  apply (@round_trip_bins_mismatch ExactLib _);
    [lia | lia | simpl; auto | exact I | vm_compute; discriminate | vm_compute; discriminate
    | vm_compute; discriminate].
Defined.

Lemma make_window_supported_witness :
  exists w, @make_window ExactLib RECTANGULAR 3 = Returns (Some w) /\ length w = 3%nat.
Proof.
  destruct (@make_window_supported ExactLib _ RECTANGULAR 3 ltac:(simpl; auto)) as [P _].
  destruct (P ltac:(lia)) as (w & E & Hl & _).
  exists w; split; [exact E | exact Hl].
Defined.

Lemma params_read_back_example :
  let s := apply_writes [WriteHopLength 100; WriteWindowLength 512]
             (StftParams_init (fun _ => 2048) 44100 None None None None) in
  window_length s = 512 /\ hop_length s = 100 /\ n_fft_bins s = 512.
Proof.
  exact (params_read_back (fun _ => 2048) 44100 None None None None
           [WriteHopLength 100; WriteWindowLength 512]).
Defined.
